(** * ScreenWrite: block transitions, auto-formatting and PDF pagination

    A shallow embedding of [src/components/ScreenplayEditor.tsx] and of the
    export path of [src/App.tsx], with the properties of the design document
    stated and proved (or refuted) over it.

    Conventions.
    - A JavaScript string is the list of its UTF-16 code units ([jsstring]);
      [lit] writes an ASCII literal.
    - JavaScript numbers that the code only ever uses as small integers
      (indices, the vertical cursor, font sizes) are [Z]; numbers that come
      from font metrics or from the DOM are rationals ([Q]).
    - The Slate editor is an external library: its operations form the
      interface [TextBuffer]; the handlers of the editor are written over
      that interface, exactly as the source calls them.
    - The PDF library is external too: its two calls are parameters of the
      export, and a call that throws makes the export fail ([None]), as the
      [try]/[catch] of the source does. *)

From Stdlib Require Import List ZArith NArith QArith Bool Lia String Ascii.
Import ListNotations.

Set Warnings "-register-all".

Local Open Scope Z_scope.

(* ================================================================== *)
(** ** JavaScript strings *)

Module JS.

Definition jsstring := list N.

(** An ASCII literal as a list of code units. *)
Definition lit (s : string) : jsstring :=
  map N_of_ascii (list_ascii_of_string s).

Fixpoint eqb (a b : jsstring) : bool :=
  match a, b with
  | [], [] => true
  | x :: a', y :: b' => N.eqb x y && eqb a' b'
  | _, _ => false
  end.

(** Truthiness of a string: only the empty string is falsy. *)
Definition truthy (s : jsstring) : bool :=
  match s with [] => false | _ :: _ => true end.

(** WhiteSpace and LineTerminator code units of ECMAScript: the set used
    both by the regular-expression class [\s] and by
    [String.prototype.trim]. *)
Definition isWhiteSpace (c : N) : bool :=
  ((9 <=? c) && (c <=? 13))%N        (* TAB LF VT FF CR *)
  || (c =? 32)%N                      (* SPACE *)
  || (c =? 160)%N                     (* NBSP *)
  || (c =? 5760)%N                    (* U+1680 *)
  || ((8192 <=? c) && (c <=? 8202))%N (* U+2000 .. U+200A *)
  || (c =? 8232)%N || (c =? 8233)%N   (* LS, PS *)
  || (c =? 8239)%N || (c =? 8287)%N   (* U+202F, U+205F *)
  || (c =? 12288)%N                   (* U+3000 *)
  || (c =? 65279)%N.                  (* U+FEFF *)

Fixpoint trimStart (s : jsstring) : jsstring :=
  match s with
  | c :: s' => if isWhiteSpace c then trimStart s' else s
  | [] => []
  end.

(** [s.trim()] *)
Definition trim (s : jsstring) : jsstring :=
  rev (trimStart (rev (trimStart s))).

(** [s.split('\n')]: always at least one piece. *)
Fixpoint splitNewline (s : jsstring) : list jsstring :=
  match s with
  | [] => [[]]
  | c :: s' =>
      if (c =? 10)%N then [] :: splitNewline s'
      else match splitNewline s' with
           | l :: ls => (c :: l) :: ls
           | [] => [[c]]
           end
  end.

(** [a || b] on possibly undefined values without falsy inhabitants. *)
Definition orElse {A} (a b : option A) : option A :=
  match a with Some _ => a | None => b end.

End JS.
Import JS.

(* ================================================================== *)
(** ** Data model *)

(** [CustomElement.type] *)
Inductive BlockType :=
| Paragraph | SceneHeading | Action | Character
| Dialogue | Parenthetical | Transition.

Definition BlockType_eqb (a b : BlockType) : bool :=
  match a, b with
  | Paragraph, Paragraph | SceneHeading, SceneHeading | Action, Action
  | Character, Character | Dialogue, Dialogue
  | Parenthetical, Parenthetical | Transition, Transition => true
  | _, _ => false
  end.

(** A block of the document: an element with one text run,
    [{ type, children: [{ text }] }]. *)
Record Block := mkBlock { btype : BlockType; btext : jsstring }.

(* ================================================================== *)
(** ** Auto-format patterns

    The five patterns of [autoFormatPatterns] are all of the shape
    [/^WORD\.?\s/i] or [/^WORD\s/i]; they are written with three kinds of
    atoms and matched from the start of the text ([^]).  The patterns carry
    no [g] or [y] flag, so [pattern.test] has no state. *)

Module Regex.

Inductive atom :=
| Letter (upper : N)   (* an ASCII capital letter under the [i] flag *)
| OptChar (c : N)      (* [c?] for a caseless character *)
| Space.               (* [\s] *)

(** Under [/i] without [/u] a code unit is compared through
    [toUpperCase], except that a code unit of 128 or more is never mapped
    to one below 128: a capital ASCII letter matches itself and its
    lower-case form only. *)
Definition letterMatches (upper c : N) : bool :=
  ((c =? upper) || (c =? upper + 32))%N.

Fixpoint matchAt (p : list atom) (s : jsstring) : bool :=
  match p with
  | [] => true
  | Letter u :: p' =>
      match s with
      | c :: s' => letterMatches u c && matchAt p' s'
      | [] => false
      end
  | OptChar d :: p' =>
      match s with
      | c :: s' => ((c =? d)%N && matchAt p' s') || matchAt p' s
      | [] => matchAt p' s
      end
  | Space :: p' =>
      match s with
      | c :: s' => isWhiteSpace c && matchAt p' s'
      | [] => false
      end
  end.

(** [pattern.test(text)] for an anchored pattern. *)
Definition test (p : list atom) (text : jsstring) : bool := matchAt p text.

Definition word (w : string) : list atom := map Letter (lit w).

End Regex.

Record AutoFormatRule := mkRule { pattern : list Regex.atom; type : BlockType }.

Definition autoFormatPatterns : list AutoFormatRule :=
  [ mkRule (Regex.word "INT" ++ [Regex.OptChar 46%N; Regex.Space]) SceneHeading;
    mkRule (Regex.word "EXT" ++ [Regex.OptChar 46%N; Regex.Space]) SceneHeading;
    mkRule (Regex.word "FADE" ++ [Regex.Space]) Transition;
    mkRule (Regex.word "CUT" ++ [Regex.Space]) Transition;
    mkRule (Regex.word "DISSOLVE" ++ [Regex.Space]) Transition ].

(** The [for ... of autoFormatPatterns] loop of [editor.insertText].

    [element] is the type of the element found by [Editor.above] ([None]
    when there is none).  The result records the [Transforms.setNodes] call
    the loop makes, if any, and how many rules had their pattern tested
    before the loop ended.  The [break] sits inside the inner [if]: a rule
    that matches but whose type is already the element's does not end the
    loop. *)
Record LoopResult := mkLoop { setNodesTo : option BlockType; tested : nat }.

Fixpoint autoFormatLoop (rules : list AutoFormatRule) (textContent : jsstring)
    (element : option BlockType) : LoopResult :=
  match rules with
  | [] => mkLoop None 0
  | r :: rest =>
      if Regex.test (pattern r) textContent then
        match element with
        | Some ty =>
            if negb (BlockType_eqb ty (type r))
            then mkLoop (Some (type r)) 1
            else let k := autoFormatLoop rest textContent element in
                 mkLoop (setNodesTo k) (S (tested k))
        | None =>
            let k := autoFormatLoop rest textContent element in
            mkLoop (setNodesTo k) (S (tested k))
        end
      else
        let k := autoFormatLoop rest textContent element in
        mkLoop (setNodesTo k) (S (tested k))
  end.

Definition autoFormat (textContent : jsstring) (element : option BlockType)
  : LoopResult :=
  autoFormatLoop autoFormatPatterns textContent element.

(** The type of the block once the loop has run. *)
Definition typeAfterAutoFormat (textContent : jsstring) (ty : BlockType)
  : BlockType :=
  match setNodesTo (autoFormat textContent (Some ty)) with
  | Some t => t
  | None => ty
  end.

(** The first rule, in catalog order, whose pattern matches, with its
    position. *)
Fixpoint firstMatchFrom (i : nat) (rules : list AutoFormatRule)
    (textContent : jsstring) : option (nat * AutoFormatRule) :=
  match rules with
  | [] => None
  | r :: rest =>
      if Regex.test (pattern r) textContent then Some (i, r)
      else firstMatchFrom (S i) rest textContent
  end.

Definition firstMatch (textContent : jsstring) : option (nat * AutoFormatRule) :=
  firstMatchFrom 0 autoFormatPatterns textContent.

(** How many rules of the catalog match a text. *)
Definition matchCount (textContent : jsstring) : nat :=
  List.length
    (filter (fun r => Regex.test (pattern r) textContent) autoFormatPatterns).

(** The design document's reading of the loop: it ends at the first rule
    that matches, whatever that rule's type. *)
Definition stopsAtFirstMatch (textContent : jsstring) (ty : BlockType) : Prop :=
  forall i r,
    firstMatch textContent = Some (i, r) ->
    tested (autoFormat textContent (Some ty)) = S i.

(* ================================================================== *)
(** ** The text buffer (Slate), as the editor code uses it

    Every operation below is a call the source makes on the Slate editor.
    The handlers are written over this interface; [SpecBuffer] further down
    is one implementation of it. *)

Class TextBuffer (B : Type) := {
  (** [editor.selection] with [Range.isCollapsed]: [None] for no selection,
      [Some true] for a collapsed one. *)
  selectionCollapsed : B -> option bool;
  (** [Editor.node(editor, selection)]: the text of the node, when it is a
      text node (['text' in node]). *)
  nodeText : B -> option jsstring;
  (** [Editor.above(editor, { match: element })]: the type of the enclosing
      element, if there is one. *)
  aboveType : B -> option BlockType;
  (** The editor's own [insertText], captured before it is overridden. *)
  insertText : jsstring -> B -> B;
  (** [Transforms.insertText(editor, text)] *)
  Transforms_insertText : jsstring -> B -> B;
  (** The editor's own [insertData], for a payload without plain text. *)
  insertData : B -> B;
  (** [Transforms.insertNodes(editor, element)] *)
  Transforms_insertNodes : Block -> B -> B;
  (** [Transforms.setNodes(editor, { type })] *)
  Transforms_setNodes : BlockType -> B -> B;
  (** [Transforms.delete(editor, { distance: 1, reverse: true })] *)
  Transforms_delete : B -> B;
  (** [Transforms.move(editor)] *)
  Transforms_move : B -> B
}.

(** [{ type, children: [{ text: '' }] }] *)
Definition emptyElement (ty : BlockType) : Block := mkBlock ty [].

(* ------------------------------------------------------------------ *)
(** *** The command catalog of the palette *)

Record Command := mkCommand { id : jsstring; label : jsstring; shortcut : jsstring }.

Definition command (i l s : string) : Command := mkCommand (lit i) (lit l) (lit s).

(** The [commands] array of [CommandPalette] (icons left out). *)
Definition commands : list Command :=
  [ command "scene" "Scene Heading" "/scene";
    command "action" "Action" "/action";
    command "character" "Character" "/character";
    command "dialogue" "Dialogue" "/dialogue";
    command "parenthetical" "Parenthetical" "/parens";
    command "transition" "Transition" "/transition";
    command "shot" "Shot" "/shot";
    command "text" "Text" "/text";
    command "note" "Note" "/note";
    command "outline" "Outline" "/outline";
    command "newact" "New Act" "/newact";
    command "endact" "End Act" "/endact";
    command "lyrics" "Lyrics" "/lyrics";
    command "image" "Image" "/image";
    command "sequence" "Sequence" "/sequence";
    command "dual" "Dual Dialogue" "/dual" ].

(** [commands.length] *)
Definition commands_length : Z := Z.of_nat (List.length commands).

(** [elementMap] of [handleCommandSelect]. *)
Definition elementMap : list (jsstring * BlockType) :=
  [ (lit "scene", SceneHeading); (lit "action", Action);
    (lit "character", Character); (lit "dialogue", Dialogue);
    (lit "parenthetical", Parenthetical); (lit "transition", Transition);
    (lit "shot", Action); (lit "text", Action); (lit "note", Action);
    (lit "outline", Action); (lit "newact", Action); (lit "endact", Action);
    (lit "lyrics", Action); (lit "image", Action); (lit "sequence", Action);
    (lit "dual", Dialogue) ].

Fixpoint lookup (k : jsstring) (m : list (jsstring * BlockType)) : option BlockType :=
  match m with
  | [] => None
  | (k', v) :: m' => if JS.eqb k k' then Some v else lookup k m'
  end.

(* ------------------------------------------------------------------ *)
(** *** Component state and key events *)

Record Position := mkPosition { top : Q; left : Q }.

(** The React state of [ScreenplayEditor] and of [CommandPalette]. *)
Record Ui := mkUi {
  showCommandPalette : bool;
  commandPalettePosition : Position;
  selectedIndex : Z
}.

(** What the [/] handler reads from the DOM: the bounding rectangle of the
    first range of the window selection, if any, and the scroll offsets. *)
Record Dom := mkDom {
  rangeRect : option (Q * Q);   (* (rect.bottom, rect.left) *)
  scrollX : Q;
  scrollY : Q
}.

Record KeyEvent := mkKeyEvent { key : jsstring; dom : Dom }.

Definition keyIs (ev : KeyEvent) (name : string) : bool := JS.eqb (key ev) (lit name).

Definition setShowCommandPalette (v : bool) (u : Ui) : Ui :=
  mkUi v (commandPalettePosition u) (selectedIndex u).

Definition setCommandPalettePosition (p : Position) (u : Ui) : Ui :=
  mkUi (showCommandPalette u) p (selectedIndex u).

Definition setSelectedIndex (f : Z -> Z) (u : Ui) : Ui :=
  mkUi (showCommandPalette u) (commandPalettePosition u) (f (selectedIndex u)).

Section Editor.

Context {B : Type} {TB : TextBuffer B}.

Record State := mkState { editor : B; ui : Ui }.

(** A handler's result: the new state and whether [preventDefault] was
    called on the event. *)
Record Outcome := mkOutcome { state : State; defaultPrevented : bool }.

(* ---------------------------------------------------------------- *)
(** *** [withAutoFormatting] *)

(** [text && text.length === 1 && text !== '\n' && text !== '\t'] *)
Definition isActualText (text : jsstring) : bool :=
  truthy text && (List.length text =? 1)%nat
  && negb (JS.eqb text [10%N]) && negb (JS.eqb text [9%N]).

(** The overriding [editor.insertText]. *)
Definition editor_insertText (text : jsstring) (b : B) : B :=
  let b1 := insertText text b in
  if isActualText text then
    match selectionCollapsed b1 with
    | Some true =>
        match nodeText b1 with
        | Some textContent =>
            match setNodesTo (autoFormat textContent (aboveType b1)) with
            | Some ty => Transforms_setNodes ty b1
            | None => b1
            end
        | None => b1
        end
    | _ => b1
    end
  else b1.

(** The overriding [editor.insertData]; [text] is
    [data.getData('text/plain')]. *)
Definition editor_insertData (text : jsstring) (b : B) : B :=
  if truthy text then Transforms_insertText text b else insertData b.

(* ---------------------------------------------------------------- *)
(** *** [ScreenplayEditor] callbacks *)

Definition handleCommandSelect (command : jsstring) (s : State) : State :=
  let e1 := Transforms_delete (editor s) in
  let elementType :=
    match lookup command elementMap with Some t => t | None => Action end in
  let e2 := Transforms_insertNodes (emptyElement elementType) e1 in
  let e3 := Transforms_move e2 in
  mkState e3 (setShowCommandPalette false (ui s)).

Definition handleCommandClose (s : State) : State :=
  let u := setShowCommandPalette false (ui s) in
  if showCommandPalette (ui s)
  then mkState (Transforms_delete (editor s)) u
  else mkState (editor s) u.

(** The block type inserted by Enter after a block of type [ty]. *)
Definition enterTarget (ty : BlockType) : BlockType :=
  if BlockType_eqb ty Character then Dialogue
  else if BlockType_eqb ty SceneHeading then Action
  else Action.

Definition handleKeyDown (event : KeyEvent) (s : State) : Outcome :=
  if showCommandPalette (ui s) then mkOutcome s false
  else if keyIs event "/" then
    let u1 :=
      match rangeRect (dom event) with
      | Some (bottom, lft) =>
          setCommandPalettePosition
            (mkPosition (bottom + scrollY (dom event) + 5)%Q
                        (lft + scrollX (dom event))%Q) (ui s)
      | None => ui s
      end in
    mkOutcome (mkState (editor s) (setShowCommandPalette true u1)) false
  else if keyIs event "Enter" then
    match selectionCollapsed (editor s) with
    | Some true =>
        match aboveType (editor s) with
        | Some ty =>
            mkOutcome
              (mkState (Transforms_insertNodes (emptyElement (enterTarget ty)) (editor s))
                       (ui s))
              true
        | None => mkOutcome s false
        end
    | _ => mkOutcome s false
    end
  else if keyIs event "Tab" then
    match selectionCollapsed (editor s) with
    | Some true =>
        mkOutcome
          (mkState (Transforms_insertNodes (emptyElement Character) (editor s)) (ui s))
          true
    | _ => mkOutcome s true
    end
  else if keyIs event "Escape" then
    mkOutcome (mkState (editor s) (setShowCommandPalette false (ui s))) false
  else mkOutcome s false.

(* ---------------------------------------------------------------- *)
(** *** [CommandPalette] *)

(** The [keydown] listener the palette puts on the document.  [isOpen] and
    [index] are the values of the render that installed the listener; the
    selection updates are functional ([prev => ...]).  JavaScript's [%] is
    [Z.rem].  [None] is the [TypeError] of [commands[selectedIndex].id] on
    an index outside the array. *)
Definition CommandPalette_handleKeyDown (isOpen : bool) (index : Z)
    (event : KeyEvent) (o : Outcome) : option Outcome :=
  if negb isOpen then Some o
  else if keyIs event "ArrowDown" then
    Some (mkOutcome
            (mkState (editor (state o))
               (setSelectedIndex (fun prev => Z.rem (prev + 1) commands_length)
                  (ui (state o))))
            true)
  else if keyIs event "ArrowUp" then
    Some (mkOutcome
            (mkState (editor (state o))
               (setSelectedIndex
                  (fun prev => Z.rem (prev - 1 + commands_length) commands_length)
                  (ui (state o))))
            true)
  else if keyIs event "Enter" then
    match (if index <? 0 then None else nth_error commands (Z.to_nat index)) with
    | Some c => Some (mkOutcome (handleCommandSelect (id c) (state o)) true)
    | None => None
    end
  else if keyIs event "Escape" then
    Some (mkOutcome (handleCommandClose (state o)) true)
  else Some o.

(** The effect [if (!isOpen) setSelectedIndex(0)], run after a render in
    which [isOpen] changed. *)
Definition resetSelectionEffect (before : Ui) (after : Ui) : Ui :=
  if Bool.eqb (showCommandPalette before) (showCommandPalette after) then after
  else if negb (showCommandPalette after)
       then setSelectedIndex (fun _ => 0) after
       else after.

(** One [keydown] event: the handler of the editable surface, then the
    document listener of the palette (both closed over the state of the
    last render), then the effects of the re-render. *)
Definition keydown (event : KeyEvent) (s : State) : option Outcome :=
  match CommandPalette_handleKeyDown (showCommandPalette (ui s))
          (selectedIndex (ui s)) event (handleKeyDown event s) with
  | Some o =>
      Some (mkOutcome
              (mkState (editor (state o))
                       (resetSelectionEffect (ui s) (ui (state o))))
              (defaultPrevented o))
  | None => None
  end.

(** Pressing a key that produces the single character [c].  When no
    handler prevented the default action of the event, the editing surface
    inserts the character through [editor.insertText]: this is how the
    [/] that opens the palette gets into the text, from which
    [handleCommandSelect] and [handleCommandClose] delete it again. *)
Definition pressCharacter (c : N) (d : Dom) (s : State) : option State :=
  match keydown (mkKeyEvent [c] d) s with
  | Some o =>
      if defaultPrevented o then Some (state o)
      else Some (mkState (editor_insertText [c] (editor (state o))) (ui (state o)))
  | None => None
  end.


(** Clicking the palette entry [c]: [onClick={() => onSelect(command.id)}]. *)
Definition clickCommand (c : Command) (s : State) : State :=
  let s1 := handleCommandSelect (id c) s in
  mkState (editor s1) (resetSelectionEffect (ui s) (ui s1)).

End Editor.




Arguments State B : clear implicits.
Arguments Outcome B : clear implicits.

(* ================================================================== *)
(** ** A document buffer *)

Module SpecBuffer.

(** Modelled from the spec: the Text Buffer Primitives of sections 2 and 6
    (the Slate library, which is not part of the repository; where the spec
    leaves a primitive open, it is given the behaviour of the library).  The
    selection is a position in one block, with the number of code units
    selected after it; it is collapsed when that number is 0. *)
Record Cursor := mkCursor { block : nat; offset : nat; extent : nat }.

(** Modelled from the spec: the Document of section 3, an ordered sequence
    of blocks, with the selection the buffer owns. *)
Record Buffer := mkBuffer { blocks : list Block; cursor : option Cursor }.

(** Modelled from the spec: "which block contains" the cursor. *)
Definition currentBlock (b : Buffer) : option Block :=
  match cursor b with
  | Some c => nth_error (blocks b) (block c)
  | None => None
  end.

(** Replace the block at index [i] (nothing happens out of range). *)
Fixpoint setBlock (i : nat) (v : Block) (l : list Block) : list Block :=
  match l, i with
  | [], _ => []
  | _ :: l', O => v :: l'
  | x :: l', S i' => x :: setBlock i' v l'
  end.

(** The text [t] with [ins] in place of what the cursor [c] selects. *)
Definition spliceText (c : Cursor) (ins : jsstring) (t : jsstring) : jsstring :=
  firstn (offset c) t ++ ins ++ skipn (offset c + extent c) t.

(** Modelled from the spec: [insertText], the text is put at the cursor, in
    place of what is selected, and the cursor ends up behind it; the type of
    the block is not touched.  Without a selection nothing happens. *)
Definition insertTextAtCursor (text : jsstring) (b : Buffer) : Buffer :=
  match cursor b with
  | Some c =>
      match nth_error (blocks b) (block c) with
      | Some blk =>
          mkBuffer
            (setBlock (block c)
               (mkBlock (btype blk) (spliceText c text (btext blk))) (blocks b))
            (Some (mkCursor (block c) (offset c + List.length text) 0))
      | None => b
      end
  | None => b
  end.

(** [Transforms.insertNodes(editor, element)] of the Slate library, for one
    block element and the selection as the place of insertion (the spec
    says "at the cursor").  What is selected is deleted first.  The block
    is then split at the cursor, unless the cursor is at one of its edges:
    at the end of the text the element is put right after the block, at
    the start of a text that is not empty right before it, and otherwise
    between the two parts of the block, which both keep its type.  The
    cursor is put at the end of the element.  Without a selection the
    element is added at the end of the document. *)
Definition insertNodesAtCursor (e : Block) (b : Buffer) : Buffer :=
  match cursor b with
  | Some c =>
      match nth_error (blocks b) (block c) with
      | Some blk =>
          let t := spliceText c [] (btext blk) in
          let before := firstn (block c) (blocks b) in
          let after := skipn (S (block c)) (blocks b) in
          if (List.length t <=? offset c)%nat
          then mkBuffer (before ++ mkBlock (btype blk) t :: e :: after)
                 (Some (mkCursor (S (block c)) (List.length (btext e)) 0))
          else if (offset c =? 0)%nat
          then mkBuffer (before ++ e :: mkBlock (btype blk) t :: after)
                 (Some (mkCursor (block c) (List.length (btext e)) 0))
          else mkBuffer
                 (before ++ mkBlock (btype blk) (firstn (offset c) t) :: e
                  :: mkBlock (btype blk) (skipn (offset c) t) :: after)
                 (Some (mkCursor (S (block c)) (List.length (btext e)) 0))
      | None => b
      end
  | None =>
      mkBuffer (blocks b ++ [e])
               (Some (mkCursor (List.length (blocks b)) (List.length (btext e)) 0))
  end.

(** Modelled from the spec: [setCurrentBlockType], the block that holds the
    cursor gets the type, its text stays. *)
Definition setCurrentBlockType (ty : BlockType) (b : Buffer) : Buffer :=
  match cursor b with
  | Some c =>
      match nth_error (blocks b) (block c) with
      | Some blk =>
          mkBuffer (setBlock (block c) (mkBlock ty (btext blk)) (blocks b)) (cursor b)
      | None => b
      end
  | None => b
  end.

(** [Transforms.delete(editor, { distance: 1, reverse: true })] of the
    Slate library.  A selection that is not collapsed is removed.  At a
    collapsed cursor the character before it is removed, a character being
    one code unit here (text without surrogate pairs and combining
    sequences).  At the start of a block the block is joined to the one
    before it: a block before it that is empty is removed, otherwise the
    texts are put together in a block of the type of the first.  At the
    start of the document, and without a selection, nothing happens. *)
Definition deleteBackward (b : Buffer) : Buffer :=
  match cursor b with
  | Some c =>
      match nth_error (blocks b) (block c) with
      | Some blk =>
          if negb (extent c =? 0)%nat
          then mkBuffer
                 (setBlock (block c)
                    (mkBlock (btype blk) (spliceText c [] (btext blk))) (blocks b))
                 (Some (mkCursor (block c) (offset c) 0))
          else
            match offset c, block c with
            | S o, _ =>
                mkBuffer
                  (setBlock (block c)
                     (mkBlock (btype blk) (firstn o (btext blk) ++ skipn (S o) (btext blk)))
                     (blocks b))
                  (Some (mkCursor (block c) o 0))
            | O, O => b
            | O, S p =>
                match nth_error (blocks b) p with
                | Some prev =>
                    match btext prev with
                    | [] =>
                        mkBuffer (firstn p (blocks b) ++ skipn (S p) (blocks b))
                                 (Some (mkCursor p 0 0))
                    | _ :: _ =>
                        mkBuffer
                          (firstn p (blocks b)
                           ++ mkBlock (btype prev) (btext prev ++ btext blk)
                           :: skipn (S (S p)) (blocks b))
                          (Some (mkCursor p (List.length (btext prev)) 0))
                    end
                | None => b
                end
            end
      | None => b
      end
  | None => b
  end.

(** [Transforms.move(editor)] of the Slate library: the selection moves
    one character forward (one code unit here, as for [deleteBackward]).
    A cursor at the end of its block goes to the start of the block that
    follows it, and stays where it is in the last block.  The editor calls
    it right after [Transforms.insertNodes], which leaves a collapsed
    cursor; of a selection that is not collapsed both ends move, an end
    that is at the end of the text staying there. *)
Definition moveCursor (b : Buffer) : Buffer :=
  match cursor b with
  | Some c =>
      match nth_error (blocks b) (block c) with
      | Some blk =>
          if (offset c + extent c <? List.length (btext blk))%nat
          then mkBuffer (blocks b)
                 (Some (mkCursor (block c) (S (offset c)) (extent c)))
          else if (extent c =? 0)%nat
          then if (S (block c) <? List.length (blocks b))%nat
               then mkBuffer (blocks b) (Some (mkCursor (S (block c)) 0 0))
               else b
          else mkBuffer (blocks b)
                 (Some (mkCursor (block c) (S (offset c)) (Nat.pred (extent c))))
      | None => b
      end
  | None => b
  end.

(** The buffer as an implementation of the calls the editor code makes.  A
    paste payload without plain text inserts nothing. *)
#[global] Instance buffer : TextBuffer Buffer := {|
  selectionCollapsed b := option_map (fun c => (extent c =? 0)%nat) (cursor b);
  nodeText b := option_map btext (currentBlock b);
  aboveType b := option_map btype (currentBlock b);
  insertText := insertTextAtCursor;
  Transforms_insertText := insertTextAtCursor;
  insertData b := b;
  Transforms_insertNodes := insertNodesAtCursor;
  Transforms_setNodes := setCurrentBlockType;
  Transforms_delete := deleteBackward;
  Transforms_move := moveCursor
|}.

End SpecBuffer.

(* ================================================================== *)
(** ** PDF export ([App.tsx]) *)

Module Pdf.

(** A node of the editor value as [formatContentForPDF] reads it: any of
    [type], [text] and [children] may be missing. *)
Inductive Node :=
| mkNode (type : option BlockType) (text : option jsstring)
         (children : option (list Node)).

(** The element of the editor value that holds a block. *)
Definition ofBlock (b : Block) : Node :=
  mkNode (Some (btype b)) None (Some [mkNode None (Some (btext b)) None]).

Record PageLine := mkLine {
  text : jsstring;
  type : BlockType;
  bold : bool;
  size : Z
}.

(** [node.type === 'character' || ... 'scene-heading' || ... 'transition'] *)
Definition isBoldType (ty : option BlockType) : bool :=
  match ty with
  | Some Character | Some SceneHeading | Some Transition => true
  | _ => false
  end.

(** The lines pushed for a text node of (possibly missing) type [ty]. *)
Definition linesOfText (ty : option BlockType) (s : jsstring) : list PageLine :=
  flat_map
    (fun line =>
       if truthy (trim line)
       then [mkLine line (match ty with Some t => t | None => Action end)
                    (isBoldType ty)
                    (match ty with Some SceneHeading => 12 | _ => 12 end)]
       else [])
    (splitNewline s).

(** [processNode({ ...node, type: inherited || node.type })]: the
    recursive call of the source rebuilds the child with the type of its
    parent, if the parent has one; here that type is the first argument
    ([None] at the top level). *)
Fixpoint processNode (inherited : option BlockType) (node : Node) : list PageLine :=
  match node with
  | mkNode ty tx ch =>
      let ty' := orElse inherited ty in
      (match tx with Some s => linesOfText ty' s | None => [] end)
      ++ (match ch with
          | Some cs => flat_map (processNode ty') cs
          | None => []
          end)
  end.

Definition formatContentForPDF (nodes : list Node) : list PageLine :=
  flat_map (processNode None) nodes.

(** The two fonts the export draws with. *)
Inductive Font := courierFont | courierBoldFont.

(** One [drawText] call (the colour is always black). *)
Record Draw := mkDraw {
  drawn : jsstring;
  x : Q;
  y : Z;
  fontSize : Z;
  font : Font
}.

Definition Page := list Draw.

Record TitlePage := mkTitlePage {
  title : jsstring;
  author : jsstring;
  contact : jsstring;
  basedOn : jsstring
}.

Record Geometry := mkGeometry {
  pageWidth : Z;
  pageHeight : Z;
  marginLeft : Z;
  marginRight : Z;
  marginTop : Z;
  marginBottom : Z;
  lineHeight : Z
}.

(** The constants of [handleExportPDF]. *)
Definition letter : Geometry := mkGeometry 612 792 72 72 72 72 14.

(** [Math.floor((pageHeight - marginTop - marginBottom) / lineHeight)];
    the export computes it and never reads it. *)
Definition maxLinesPerPage (g : Geometry) : Z :=
  (pageHeight g - marginTop g - marginBottom g) / lineHeight g.

(** [Math.ceil(n / d)] on natural numbers. *)
Definition ceilDiv (n d : nat) : nat := ((n + d - 1) / d)%nat.

(** The outcome of a step of the export that may throw: [None] is an
    exception, which the [try]/[catch] of [handleExportPDF] turns into the
    alert 'Failed to export PDF', no document being saved. *)
Definition andThen {A B : Type} (o : option A) (k : A -> option B) : option B :=
  match o with
  | Some a => k a
  | None => None
  end.

Local Notation "v <- o ;; k" := (andThen o (fun v => k))
  (at level 61, o at next level, right associativity).

Section Drawing.

(** The two calls into the PDF library, and
    [String.prototype.toUpperCase].  [font.widthOfTextAtSize] throws on a
    text that the encoding of the font cannot hold ([None]); so does
    [page.drawText], and [drawable] tells whether it draws the text. *)
Variable widthOfTextAtSize : Font -> jsstring -> Z -> option Q.
Variable drawable : Font -> jsstring -> bool.
Variable toUpperCase : jsstring -> jsstring.

Variable g : Geometry.

(** [(pageWidth - font.widthOfTextAtSize(s, sz)) / 2] *)
Definition centered (f : Font) (s : jsstring) (sz : Z) : option Q :=
  w <- widthOfTextAtSize f s sz ;;
  Some ((inject_Z (pageWidth g) - w) / 2)%Q.

(** [page.drawText(s, { x, y, size, font, color })] *)
Definition drawText (f : Font) (s : jsstring) (xPosition : Q)
    (yPosition sz : Z) : option Draw :=
  if drawable f s then Some (mkDraw s xPosition yPosition sz f) else None.

(** The draws of the title page, in the order of the source; the width of
    a centred text is asked for before the text is drawn. *)
Definition titlePageDraws (tp : TitlePage) : option Page :=
  let height := pageHeight g in
  d1 <- (if truthy (title tp)
         then titleX <- centered courierBoldFont (toUpperCase (title tp)) 24 ;;
              d <- drawText courierBoldFont (toUpperCase (title tp)) titleX
                     (height - 200) 24 ;;
              Some [d]
         else Some []) ;;
  d2 <- (if truthy (author tp)
         then authorX <- centered courierFont (lit "Written by " ++ author tp) 12 ;;
              d <- drawText courierFont (lit "Written by " ++ author tp) authorX
                     (height - 300) 12 ;;
              Some [d]
         else Some []) ;;
  d3 <- (if truthy (basedOn tp)
         then basedOnX <- centered courierFont
                            (lit "Based on " ++ [34%N] ++ basedOn tp ++ [34%N]) 12 ;;
              d <- drawText courierFont
                     (lit "Based on " ++ [34%N] ++ basedOn tp ++ [34%N]) basedOnX
                     (height - 350) 12 ;;
              Some [d]
         else Some []) ;;
  d4 <- (if truthy (contact tp)
         then d <- drawText courierFont (contact tp) (inject_Z (marginLeft g))
                     (marginBottom g) 10 ;;
              Some [d]
         else Some []) ;;
  Some (d1 ++ d2 ++ d3 ++ d4).

(** [if (showTitlePage && (titlePage.title || titlePage.author))] *)
Definition titlePages (showTitlePage : bool) (tp : TitlePage)
  : option (list Page) :=
  if showTitlePage && (truthy (title tp) || truthy (author tp))
  then p <- titlePageDraws tp ;; Some [p]
  else Some [].

(** [const xPosition = line.type === 'scene-heading' ? ... : ...]: the
    width is asked for a scene heading and for a transition only. *)
Definition xPositionOf (line : PageLine) (f : Font) (sz : Z) : option Q :=
  match type line with
  | SceneHeading => centered f (toUpperCase (text line)) sz
  | Character => Some (inject_Z (marginLeft g + 144))
  | Dialogue => Some (inject_Z (marginLeft g + 108))
  | Parenthetical => Some (inject_Z (marginLeft g + 144))
  | Transition =>
      w <- widthOfTextAtSize f (toUpperCase (text line)) sz ;;
      Some (inject_Z (pageWidth g - marginRight g) - w)%Q
  | _ => Some (inject_Z (marginLeft g + 108))
  end.

(** The body of the loop for one line at height [yPosition], up to its
    [drawText] call. *)
Definition drawLine (line : PageLine) (yPosition : Z) : option Draw :=
  let f := if bold line then courierBoldFont else courierFont in
  let sz := if size line =? 0 then 12 else size line in
  xPosition <- xPositionOf line f sz ;;
  drawText f (text line) xPosition yPosition sz.

(** The [for (const line of formattedContent)] loop.  [currentPage]
    holds the draws made so far on the page being filled; the result is
    the list of content pages in the order they were added, or [None] when
    a call of the library has thrown. *)
Fixpoint layout (lines : list PageLine) (yPosition : Z) (currentPage : Page)
  : option (list Page) :=
  match lines with
  | [] => Some [currentPage]
  | line :: rest =>
      if yPosition - lineHeight g <? marginBottom g
      then d <- drawLine line (pageHeight g - marginTop g) ;;
           pages <- layout rest (pageHeight g - marginTop g - lineHeight g) [d] ;;
           Some (currentPage :: pages)
      else d <- drawLine line yPosition ;;
           layout rest (yPosition - lineHeight g) (currentPage ++ [d])
  end.

(** The content pages: one page is added before the loop starts. *)
Definition contentPages (lines : list PageLine) : option (list Page) :=
  layout lines (pageHeight g - marginTop g) [].

(** The pages of the document that is saved; [None] when the export has
    failed. *)
Definition exportPages (showTitlePage : bool) (tp : TitlePage)
    (content : list Node) : option (list Page) :=
  tps <- titlePages showTitlePage tp ;;
  body <- contentPages (formatContentForPDF content) ;;
  Some (tps ++ body).

(** Whether the library measures and draws the line: its calls for the
    line do not throw. *)
Definition placeable (line : PageLine) : bool :=
  let f := if bold line then courierBoldFont else courierFont in
  let sz := if size line =? 0 then 12 else size line in
  (match type line with
   | SceneHeading | Transition =>
       match widthOfTextAtSize f (toUpperCase (text line)) sz with
       | Some _ => true
       | None => false
       end
   | _ => true
   end)
  && drawable f (text line).

(** Whether the library measures and draws a centred text. *)
Definition centrable (f : Font) (s : jsstring) (sz : Z) : bool :=
  (match widthOfTextAtSize f s sz with Some _ => true | None => false end)
  && drawable f s.

(** Whether the library measures and draws every field that the title
    page shows. *)
Definition titlePageDrawable (tp : TitlePage) : bool :=
  (if truthy (title tp)
   then centrable courierBoldFont (toUpperCase (title tp)) 24 else true)
  && (if truthy (author tp)
      then centrable courierFont (lit "Written by " ++ author tp) 12 else true)
  && (if truthy (basedOn tp)
      then centrable courierFont
             (lit "Based on " ++ [34%N] ++ basedOn tp ++ [34%N]) 12
      else true)
  && (if truthy (contact tp) then drawable courierFont (contact tp) else true).

End Drawing.

(** [handleExportPDF], with the page geometry of the source and an editor
    that is mounted. *)
Definition handleExportPDF (widthOfTextAtSize : Font -> jsstring -> Z -> option Q)
    (drawable : Font -> jsstring -> bool)
    (toUpperCase : jsstring -> jsstring) :=
  exportPages widthOfTextAtSize drawable toUpperCase letter.

(** An instance of the library functions, for evaluating the export on
    examples: the standard Courier fonts hold the printable characters of
    Windows-1252 and throw on any other, every glyph is 0.6 em wide, and
    only ASCII letters change case.  (Control characters, some of which
    [drawText] replaces or splits the text at before it encodes it, are
    not drawn by this instance.) *)
Definition winAnsi (c : N) : bool :=
  ((32 <=? c) && (c <=? 126) || (160 <=? c) && (c <=? 255)
   || existsb (N.eqb c)
        [8364; 8218; 402; 8222; 8230; 8224; 8225; 710; 8240; 352; 8249; 338;
         381; 8216; 8217; 8220; 8221; 8226; 8211; 8212; 732; 8482; 353; 8250;
         339; 382; 376])%N.

Definition courierWidth (_ : Font) (s : jsstring) (sz : Z) : option Q :=
  if forallb winAnsi s
  then Some (inject_Z (Z.of_nat (List.length s)) * inject_Z sz * (6 # 10))%Q
  else None.

Definition courierDraws (_ : Font) (s : jsstring) : bool := forallb winAnsi s.

Definition asciiUpper (s : jsstring) : jsstring :=
  map (fun c => if ((97 <=? c) && (c <=? 122))%N then (c - 32)%N else c) s.

End Pdf.

(* ================================================================== *)
(** ** Further definitions: states of the palette, case folding *)

(** The states of the palette the handlers can reach: the selection is an
    index of the catalog, and it is 0 whenever the palette is closed. *)
Definition paletteInvariant (u : Ui) : Prop :=
  0 <= selectedIndex u < commands_length
  /\ (showCommandPalette u = false -> selectedIndex u = 0).

(** The capital of an ASCII letter; every other code unit is left alone. *)
Definition asciiFold (c : N) : N :=
  if ((97 <=? c) && (c <=? 122))%N then (c - 32)%N else c.

(** The rule of a list that makes the loop of [editor.insertText] call
    [Transforms.setNodes] for an element of type [ty]: the first one whose
    pattern matches and whose type is not [ty]. *)
Definition retypingRule (rules : list AutoFormatRule) (textContent : jsstring)
    (ty : BlockType) : option AutoFormatRule :=
  find (fun r => Regex.test (pattern r) textContent
                 && negb (BlockType_eqb ty (type r))) rules.

(** The atoms of the catalog: capital ASCII letters, an optional character
    that is not a letter, white space. *)
Definition caseless (a : Regex.atom) : Prop :=
  match a with
  | Regex.Letter u => (65 <= u <= 90)%N
  | Regex.OptChar d => (d < 65 \/ 122 < d)%N
  | Regex.Space => True
  end.

(* ================================================================== *)
(** ** The scene navigator and the name of the exported file ([App.tsx]) *)

Module App.

Record SceneInfo := mkScene { number : nat; heading : jsstring; page : nat }.

(** The heading [extractScenes] reports for a node, if it reports one:
    [node.type === 'scene-heading' && node.children && node.children[0]],
    then [node.children[0].text || 'Untitled Scene']. *)
Definition sceneHeading (node : Pdf.Node) : option jsstring :=
  match node with
  | Pdf.mkNode (Some SceneHeading) _ (Some (Pdf.mkNode _ tx _ :: _)) =>
      match tx with
      | Some s => if truthy s then Some s else Some (lit "Untitled Scene")
      | None => Some (lit "Untitled Scene")
      end
  | _ => None
  end.

(** The [forEach] of [extractScenes]; [sceneNumber] is the counter the
    callback increments, [pageNumber] the variable it never assigns. *)
Fixpoint extractScenesFrom (sceneNumber pageNumber : nat) (content : list Pdf.Node)
  : list SceneInfo :=
  match content with
  | [] => []
  | node :: rest =>
      match sceneHeading node with
      | Some h =>
          mkScene sceneNumber h pageNumber
          :: extractScenesFrom (S sceneNumber) pageNumber rest
      | None => extractScenesFrom sceneNumber pageNumber rest
      end
  end.

Definition extractScenes (content : list Pdf.Node) : list SceneInfo :=
  extractScenesFrom 1 1 content.

(** [Math.ceil(scenes.length * 1.5)], the page estimate of the side bar. *)
Definition estimatedPages (scenes : nat) : nat := ((3 * scenes + 1) / 2)%nat.

(** A code unit matched by [/[a-z0-9]/i]: without the [u] flag only ASCII
    letters are related by case, so these are the ASCII letters and
    digits. *)
Definition isAlphanumeric (c : N) : bool :=
  (((48 <=? c) && (c <=? 57)) || ((65 <=? c) && (c <=? 90))
   || ((97 <=? c) && (c <=? 122)))%N.

(** [s.replace(/[^a-z0-9]/gi, '_')]: the pattern matches one code unit at a
    time. *)
Definition replaceNonAlphanumeric (s : jsstring) : jsstring :=
  map (fun c => if isAlphanumeric c then c else 95%N) s.

(** [toLowerCase] on a string of ASCII code units, which is all the export
    applies it to. *)
Definition toLowerCase (s : jsstring) : jsstring :=
  map (fun c => if ((65 <=? c) && (c <=? 90))%N then (c + 32)%N else c) s.

(** [`${currentDocument.replace(/[^a-z0-9]/gi, '_').toLowerCase()}.pdf`] *)
Definition downloadName (currentDocument : jsstring) : jsstring :=
  toLowerCase (replaceNonAlphanumeric currentDocument) ++ lit ".pdf".

(** A code unit of a safe file name: a lower-case letter, a digit or an
    underscore. *)
Definition isSafe (c : N) : bool :=
  (((48 <=? c) && (c <=? 57)) || ((97 <=? c) && (c <=? 122)) || (c =? 95))%N.

End App.

(** What every line coming out of [formatContentForPDF] looks like. *)
Definition wellFormedLine (l : Pdf.PageLine) : Prop :=
  Pdf.size l = 12
  /\ Pdf.bold l
     = match Pdf.type l with
       | Character | SceneHeading | Transition => true
       | _ => false
       end
  /\ ~ In 10%N (Pdf.text l)
  /\ existsb (fun c => negb (isWhiteSpace c)) (Pdf.text l) = true.

(* ================================================================== *)
(** ** The persistence server ([dist-server/index.js]) and its client
       ([lib/api.ts]) *)

From Stdlib Require DecimalString.

(** [s.includes(needle)] *)
Fixpoint startsWith (needle s : jsstring) : bool :=
  match needle, s with
  | [], _ => true
  | _ :: _, [] => false
  | x :: needle', y :: s' => N.eqb x y && startsWith needle' s'
  end.

Fixpoint includes (needle s : jsstring) : bool :=
  startsWith needle s
  || match s with
     | [] => false
     | _ :: s' => includes needle s'
     end.

(** A number in a template literal, for a non-negative integer. *)
Definition decimal (n : N) : jsstring :=
  lit (DecimalString.NilZero.string_of_uint (N.to_uint n)).

Module Server.

Section Store.

(** The JSON values of request bodies, with JavaScript's truthiness and the
    empty object.  The table keeps [content] and [title_page] as
    [JSON.stringify] of such a value and every read applies [JSON.parse] to
    the column: a row is modelled with the value itself. *)
Variable Json : Type.
Variable truthyJson : Json -> bool.
Variable emptyObject : Json.

(** A row of the table [screenplays]; the two times are what
    [CURRENT_TIMESTAMP] was when they were written. *)
Record Row := mkRow {
  id : jsstring;
  title : jsstring;
  content : Json;
  title_page : Json;
  created_at : Z;
  updated_at : Z
}.

Definition Db := list Row.

(** The fields the handlers read from [req.body]; [None] is a field that is
    missing (a title that is missing or [null]); a content or a title page
    sent as [null] is the [Json] value [null], which is not truthy.  A title
    is a string. *)
Record RequestBody := mkBody {
  body_title : option jsstring;
  body_content : option Json;
  body_title_page : option Json
}.

Inductive ResponseBody :=
| Screenplay (row : Row)
| ErrorBody (error : jsstring)
| MessageBody (message : jsstring).

Record Response := mkResponse { status : N; body : ResponseBody }.

(** [SELECT * FROM screenplays WHERE id = ?] with [.get] *)
Definition selectById (i : jsstring) (db : Db) : option Row :=
  find (fun r => JS.eqb (id r) i) db.

(** [title_page || {}] *)
Definition titlePageOrEmpty (tp : option Json) : Json :=
  match tp with
  | Some v => if truthyJson v then v else emptyObject
  | None => emptyObject
  end.

(** [app.get('/api/screenplays/:id')] *)
Definition getScreenplay (i : jsstring) (db : Db) : Response :=
  match selectById i db with
  | None => mkResponse 404 (ErrorBody (lit "Screenplay not found"))
  | Some row => mkResponse 200 (Screenplay row)
  end.

(** [app.post('/api/screenplays')].  [stamp] stands for
    [`${Date.now()}-${Math.random().toString(36).substr(2, 9)}`] and [now]
    for [CURRENT_TIMESTAMP].  An [INSERT] of an id the table already has
    fails on the primary key; the exception is caught and answered with
    500. *)
Definition postScreenplay (b : RequestBody) (stamp : jsstring) (now : Z) (db : Db)
  : Response * Db :=
  match body_title b, body_content b with
  | Some t, Some c =>
      if truthy t && truthyJson c then
        let newId := lit "screenplay-" ++ stamp in
        match selectById newId db with
        | Some _ => (mkResponse 500 (ErrorBody (lit "Failed to create screenplay")), db)
        | None =>
            let row := mkRow newId t c (titlePageOrEmpty (body_title_page b)) now now in
            (mkResponse 201 (Screenplay row), db ++ [row])
        end
      else (mkResponse 400 (ErrorBody (lit "Title and content are required")), db)
  | _, _ => (mkResponse 400 (ErrorBody (lit "Title and content are required")), db)
  end.

(** [UPDATE screenplays SET ... WHERE id = ?] *)
Definition updateRow (i : jsstring) (t : jsstring) (c tp : Json) (now : Z) (db : Db) : Db :=
  map (fun r => if JS.eqb (id r) i then mkRow (id r) t c tp (created_at r) now else r) db.

(** [app.put('/api/screenplays/:id')].  A title that is missing cannot go
    into the column [title TEXT NOT NULL], and a content that is missing
    cannot go into [content TEXT NOT NULL] ([JSON.stringify(undefined)] is
    [undefined]): the statement throws, which is answered with 500. *)
Definition putScreenplay (i : jsstring) (b : RequestBody) (now : Z) (db : Db)
  : Response * Db :=
  match selectById i db with
  | None => (mkResponse 404 (ErrorBody (lit "Screenplay not found")), db)
  | Some _ =>
      match body_title b, body_content b with
      | Some t, Some c =>
          let db' := updateRow i t c (titlePageOrEmpty (body_title_page b)) now db in
          match selectById i db' with
          | Some row => (mkResponse 200 (Screenplay row), db')
          | None => (mkResponse 500 (ErrorBody (lit "Failed to update screenplay")), db')
          end
      | _, _ => (mkResponse 500 (ErrorBody (lit "Failed to update screenplay")), db)
      end
  end.

(** [app.delete('/api/screenplays/:id')]; [result.changes] is the number of
    rows deleted. *)
Definition deleteScreenplay (i : jsstring) (db : Db) : Response * Db :=
  let db' := filter (fun r => negb (JS.eqb (id r) i)) db in
  if (List.length db - List.length db' =? 0)%nat
  then (mkResponse 404 (ErrorBody (lit "Screenplay not found")), db)
  else (mkResponse 200 (MessageBody (lit "Screenplay deleted successfully")), db').

(* ---------------------------------------------------------------- *)
(** *** The client, [screenplayService] *)

(** What an [await] of a service call gives: a value or a thrown [Error]
    with its message. *)
Inductive Result (A : Type) :=
| Returned (value : A)
| Thrown (message : jsstring).

Arguments Returned {A} value.
Arguments Thrown {A} message.

(** [apiRequest] on a response of the server: [response.ok] is a status
    from 200 to 299; otherwise [error.error || `HTTP ${response.status}`] is
    thrown. *)
Definition apiRequest (r : Response) : Result ResponseBody :=
  if ((200 <=? status r) && (status r <=? 299))%N then Returned (body r)
  else
    match body r with
    | ErrorBody e => if truthy e then Thrown e else Thrown (lit "HTTP " ++ decimal (status r))
    | _ => Thrown (lit "HTTP " ++ decimal (status r))
    end.

(** [screenplayService.getScreenplay]: [null] when the error message
    contains "404". *)
Definition client_getScreenplay (i : jsstring) (db : Db) : Result (option ResponseBody) :=
  match apiRequest (getScreenplay i db) with
  | Returned v => Returned (Some v)
  | Thrown m => if includes (lit "404") m then Returned None else Thrown m
  end.

(** [screenplayService.createScreenplay] *)
Definition client_createScreenplay (t : jsstring) (c tp : Json)
    (stamp : jsstring) (now : Z) (db : Db) : Result ResponseBody * Db :=
  let (r, db') := postScreenplay (mkBody (Some t) (Some c) (Some tp)) stamp now db in
  (apiRequest r, db').

(** [screenplayService.updateScreenplay] with the [updates] that
    [saveCurrentScreenplay] passes: [{ content, title_page }], no title. *)
Definition client_updateContent (i : jsstring) (c tp : Json) (now : Z) (db : Db)
  : Result ResponseBody * Db :=
  let (r, db') := putScreenplay i (mkBody None (Some c) (Some tp)) now db in
  (apiRequest r, db').

(** [screenplayService.saveCurrentScreenplay]: the title is used as the id
    of the screenplay to look up and to update.  The route parameter the
    server sees is the title itself, which is the case for a title that is
    a plain path segment. *)
Definition saveCurrentScreenplay (t : jsstring) (c tp : Json)
    (stamp : jsstring) (now : Z) (db : Db) : Result ResponseBody * Db :=
  let create db0 := client_createScreenplay t c tp stamp now db0 in
  match client_getScreenplay t db with
  | Returned (Some _) =>
      match client_updateContent t c tp now db with
      | (Returned v, db') => (Returned v, db')
      | (Thrown _, db') => create db'
      end
  | Returned None => create db
  | Thrown _ => create db
  end.

End Store.

Arguments mkRow {Json}.
Arguments id {Json}.
Arguments title {Json}.
Arguments content {Json}.
Arguments title_page {Json}.
Arguments created_at {Json}.
Arguments updated_at {Json}.
Arguments mkBody {Json}.
Arguments body_title {Json}.
Arguments body_content {Json}.
Arguments body_title_page {Json}.
Arguments Screenplay {Json}.
Arguments ErrorBody {Json}.
Arguments MessageBody {Json}.
Arguments mkResponse {Json}.
Arguments status {Json}.
Arguments body {Json}.
Arguments selectById {Json}.
Arguments titlePageOrEmpty {Json}.
Arguments getScreenplay {Json}.
Arguments postScreenplay {Json}.
Arguments updateRow {Json}.
Arguments putScreenplay {Json}.
Arguments deleteScreenplay {Json}.
Arguments apiRequest {Json}.
Arguments client_getScreenplay {Json}.
Arguments client_createScreenplay {Json}.
Arguments client_updateContent {Json}.
Arguments saveCurrentScreenplay {Json}.
Arguments Returned {A} value.
Arguments Thrown {A} message.

(** A title the URL of a request carries unchanged as one path segment:
    not empty, and made of ASCII letters, digits, spaces, hyphens and
    underscores. *)
Definition plainPathSegment (t : jsstring) : bool :=
  truthy t
  && forallb (fun c => App.isAlphanumeric c
                       || (c =? 32)%N || (c =? 45)%N || (c =? 95)%N) t.

End Server.

(* ================================================================== *)
(** * Properties *)

(** ** Block types *)

Lemma BlockType_eqb_eq a b : BlockType_eqb a b = true <-> a = b.
Proof. destruct a, b; simpl; split; congruence. Qed.

(** ** Auto-format engine *)

(** The catalog with its patterns written out. *)
Lemma autoFormatPatterns_atoms :
  autoFormatPatterns
  = [ mkRule [Regex.Letter 73; Regex.Letter 78; Regex.Letter 84;
              Regex.OptChar 46; Regex.Space]%N SceneHeading;
      mkRule [Regex.Letter 69; Regex.Letter 88; Regex.Letter 84;
              Regex.OptChar 46; Regex.Space]%N SceneHeading;
      mkRule [Regex.Letter 70; Regex.Letter 65; Regex.Letter 68;
              Regex.Letter 69; Regex.Space]%N Transition;
      mkRule [Regex.Letter 67; Regex.Letter 85; Regex.Letter 84;
              Regex.Space]%N Transition;
      mkRule [Regex.Letter 68; Regex.Letter 73; Regex.Letter 83;
              Regex.Letter 83; Regex.Letter 79; Regex.Letter 76;
              Regex.Letter 86; Regex.Letter 69; Regex.Space]%N Transition ].
Proof. reflexivity. Qed.

(** Case analysis on the first code unit of a text: one of the ten letters
    that can start a match, or none of them. *)
Ltac head_is c v :=
  let E := fresh "E" in
  destruct (N.eqb c v) eqn:E; [apply N.eqb_eq in E; subst c|].

Ltac first_letter c :=
  head_is c 73%N; [|head_is c 105%N; [|head_is c 69%N; [|head_is c 101%N;
  [|head_is c 70%N; [|head_is c 102%N; [|head_is c 67%N; [|head_is c 99%N;
  [|head_is c 68%N; [|head_is c 100%N]]]]]]]]].

Lemma matchAt_letter (u : N) (p : list Regex.atom) (c : N) (s : jsstring) :
  Regex.matchAt (Regex.Letter u :: p) (c :: s)
  = Regex.letterMatches u c && Regex.matchAt p s.
Proof. reflexivity. Qed.

(** One turn of the loop: it ends exactly when the rule matches and would
    change the type. *)
Lemma autoFormatLoop_cons r rest textContent element :
  autoFormatLoop (r :: rest) textContent element
  = if Regex.test (pattern r) textContent
       && match element with
          | Some ty => negb (BlockType_eqb ty (type r))
          | None => false
          end
    then mkLoop (Some (type r)) 1
    else mkLoop (setNodesTo (autoFormatLoop rest textContent element))
                (S (tested (autoFormatLoop rest textContent element))).
Proof.
  cbn [autoFormatLoop].
  destruct (Regex.test _ _), element as [ty|]; reflexivity.
Qed.

(** C1 as stated fails: with the text "INT " in a block that already is a
    scene heading, the first rule matches, nothing is changed, and the loop
    goes on to test the four rules below it. *)
Lemma autoFormat_tests_lower_rules :
  firstMatch (lit "INT ")
  = Some (0%nat, mkRule (Regex.word "INT" ++ [Regex.OptChar 46%N; Regex.Space]) SceneHeading)
  /\ autoFormat (lit "INT ") (Some SceneHeading) = mkLoop None 5
  /\ ~ stopsAtFirstMatch (lit "INT ") SceneHeading.
Proof.
  split; [reflexivity|]. split; [reflexivity|].
  intro H. specialize (H _ _ eq_refl). vm_compute in H. discriminate H.
Qed.

(** C1 (amended): the first rule in catalog order whose pattern matches
    decides the outcome.  If its target type differs from the current type
    the block is reclassified to it and the loop stops there, no lower rule
    being tested.  If its target type is the current type nothing changes;
    the loop then does go on to test every remaining rule, but no other rule
    of the catalog matches the text, so the type stays as it is.  Without a
    match all five rules are tested and nothing changes. *)
Theorem autoFormat_first_match_decides (textContent : jsstring) (ty : BlockType) :
  match firstMatch textContent with
  | None =>
      autoFormat textContent (Some ty) = mkLoop None 5
      /\ typeAfterAutoFormat textContent ty = ty
  | Some (i, r) =>
      matchCount textContent = 1%nat
      /\ autoFormat textContent (Some ty)
         = (if BlockType_eqb ty (type r)
            then mkLoop None 5
            else mkLoop (Some (type r)) (S i))
      /\ typeAfterAutoFormat textContent ty = type r
  end.
Proof.
  destruct textContent as [|c s].
  - destruct ty; vm_compute; auto.
  - unfold typeAfterAutoFormat, matchCount, firstMatch, autoFormat.
    rewrite autoFormatPatterns_atoms.
    rewrite !autoFormatLoop_cons.
    cbn [firstMatchFrom filter pattern type]. unfold Regex.test.
    rewrite !matchAt_letter. unfold Regex.letterMatches.
    cbn [N.add Pos.add Pos.succ Pos.add_carry].
    first_letter c.
    all: repeat match goal with E : N.eqb _ _ = false |- _ => rewrite E; clear E end.
    all: cbn -[Regex.matchAt].
    all: try match goal with
        | |- context [if ?X then _ else _] => destruct X
        end.
    all: destruct ty; cbn; auto.
Qed.

(** ** Command palette *)




Section PaletteRun.

Context {B : Type} {TB : TextBuffer B}.




End PaletteRun.


(** ** Typing and pasting *)

Section Insertion.

Context {B : Type} {TB : TextBuffer B}.

Lemma isActualText_true (text : jsstring) :
  isActualText text = true ->
  List.length text = 1%nat /\ text <> [10%N] /\ text <> [9%N].
Proof.
  unfold isActualText. intros H.
  apply andb_prop in H as [H Htab]. apply andb_prop in H as [H Hnl].
  apply andb_prop in H as [_ Hlen]. apply Nat.eqb_eq in Hlen.
  repeat split; [exact Hlen| |]; intros ->; discriminate.
Qed.

(** Without the single-character test passing, the override is the
    editor's own insertion and nothing more. *)
Lemma editor_insertText_bypass (text : jsstring) (b : B) :
  isActualText text = false -> editor_insertText text b = insertText text b.
Proof. intros H. unfold editor_insertText. now rewrite H. Qed.

Lemma isActualText_long (text : jsstring) :
  (1 < List.length text)%nat -> isActualText text = false.
Proof.
  intros H. unfold isActualText.
  destruct (Nat.eqb_spec (List.length text) 1) as [E|_]; [lia|].
  now rewrite andb_false_r.
Qed.

Lemma editor_insertData_paste (text : jsstring) (b : B) :
  (1 < List.length text)%nat -> editor_insertData text b = Transforms_insertText text b.
Proof. intros H. unfold editor_insertData. destruct text; [cbn in H; lia|reflexivity]. Qed.

End Insertion.

Module SpecBufferFacts.
Import SpecBuffer.

Lemma setBlock_types (i : nat) (blk : Block) (t : jsstring) (l : list Block) :
  nth_error l i = Some blk ->
  map btype (setBlock i (mkBlock (btype blk) t) l) = map btype l.
Proof.
  revert i. induction l as [|x l IH]; intros [|i] H; cbn in *; try discriminate.
  - now inversion H.
  - f_equal. now apply IH.
Qed.

Lemma setBlock_same (i : nat) (v blk : Block) (l : list Block) :
  nth_error l i = Some blk -> nth_error (setBlock i v l) i = Some v.
Proof.
  revert i. induction l as [|x l IH]; intros [|i] H; cbn in *; try discriminate; auto.
Qed.

Lemma setBlock_setBlock (i : nat) (v w : Block) (l : list Block) :
  setBlock i v (setBlock i w l) = setBlock i v l.
Proof.
  revert i. induction l as [|x l IH]; intros [|i]; cbn; auto. now rewrite IH.
Qed.

Lemma insertTextAtCursor_types (text : jsstring) (b : Buffer) :
  map btype (blocks (insertTextAtCursor text b)) = map btype (blocks b).
Proof.
  unfold insertTextAtCursor. destruct (cursor b) as [c|]; [|reflexivity].
  destruct (nth_error (blocks b) (block c)) as [blk|] eqn:E; [|reflexivity].
  cbn [blocks]. now apply setBlock_types.
Qed.

End SpecBufferFacts.

(** C8: an insertion of more than one code unit never runs the auto-format
    pass.  Through [editor.insertText] it is the editor's own insertion and
    nothing else, and a paste goes straight to [Transforms.insertText]; in
    the document every block, the one holding the cursor included, keeps its
    type.  The pass can only run for a text of length 1 that is neither a
    newline nor a tab. *)
Theorem multi_character_insertion_keeps_type
    (text : jsstring) (b : SpecBuffer.Buffer) (Hlong : (1 < List.length text)%nat) :
  editor_insertText text b = insertText text b
  /\ editor_insertData text b = Transforms_insertText text b
  /\ map btype (SpecBuffer.blocks (editor_insertText text b))
     = map btype (SpecBuffer.blocks b)
  /\ map btype (SpecBuffer.blocks (editor_insertData text b))
     = map btype (SpecBuffer.blocks b)
  /\ (forall (t : jsstring) (b' : SpecBuffer.Buffer),
        editor_insertText t b' <> insertText t b' ->
        List.length t = 1%nat /\ t <> [10%N] /\ t <> [9%N]).
Proof.
  pose proof (editor_insertText_bypass text b (isActualText_long text Hlong)) as E1.
  pose proof (editor_insertData_paste text b Hlong) as E2.
  split; [exact E1|]. split; [exact E2|].
  rewrite E1, E2. cbn [insertText Transforms_insertText SpecBuffer.buffer].
  split; [apply SpecBufferFacts.insertTextAtCursor_types|].
  split; [apply SpecBufferFacts.insertTextAtCursor_types|].
  intros t b' Hne. apply isActualText_true.
  destruct (isActualText t) eqn:E; [reflexivity|].
  exfalso. apply Hne. exact (editor_insertText_bypass t b' E).
Qed.

Lemma multi_character_insertion_witness :
  let text := lit "INT " in
  let b := SpecBuffer.mkBuffer [mkBlock Action []]
             (Some (SpecBuffer.mkCursor 0 0 0)) in
  (1 < List.length text)%nat
  /\ (editor_insertText text b = insertText text b
      /\ editor_insertData text b = Transforms_insertText text b
      /\ map btype (SpecBuffer.blocks (editor_insertText text b))
         = map btype (SpecBuffer.blocks b)
      /\ map btype (SpecBuffer.blocks (editor_insertData text b))
         = map btype (SpecBuffer.blocks b)
      /\ (forall (t : jsstring) (b' : SpecBuffer.Buffer),
            editor_insertText t b' <> insertText t b' ->
            List.length t = 1%nat /\ t <> [10%N] /\ t <> [9%N])).
Proof.
  cbn zeta. split; [cbn; lia|].
  apply (multi_character_insertion_keeps_type (lit "INT ")). cbn; lia.
Defined.

(** ** Key handling in the Editing state *)

Section EditingKeys.

Context {B : Type} {TB : TextBuffer B}.

(** Enter with a collapsed selection inside an element: one call of
    [Transforms.insertNodes], with an empty element of the type the
    current element's type selects, and the default action prevented. *)
Lemma handleKeyDown_Enter (d : Dom) (e : B) (u : Ui) (ty : BlockType) :
  showCommandPalette u = false ->
  selectionCollapsed e = Some true ->
  aboveType e = Some ty ->
  keydown (mkKeyEvent (lit "Enter") d) (mkState e u)
  = Some (mkOutcome
            (mkState (Transforms_insertNodes (emptyElement (enterTarget ty)) e) u)
            true).
Proof.
  intros Hu Hs Ha. destruct u as [sh pos i]. cbn in Hu. subst sh.
  unfold keydown, handleKeyDown. cbn. rewrite Hs, Ha. reflexivity.
Qed.

(** Tab: the default action is always prevented; the one call of
    [Transforms.insertNodes] is made only for a collapsed selection. *)
Lemma handleKeyDown_Tab (d : Dom) (e : B) (u : Ui) :
  showCommandPalette u = false ->
  keydown (mkKeyEvent (lit "Tab") d) (mkState e u)
  = Some (mkOutcome
            (mkState
               (match selectionCollapsed e with
                | Some true => Transforms_insertNodes (emptyElement Character) e
                | _ => e
                end) u)
            true).
Proof.
  intros Hu. destruct u as [sh pos i]. cbn in Hu. subst sh.
  unfold keydown, handleKeyDown. cbn.
  destruct (selectionCollapsed e) as [[|]|]; reflexivity.
Qed.

(** The [/] key: the palette opens, the buffer is not touched by the
    handler and the default action is not prevented. *)
Lemma handleKeyDown_slash (d : Dom) (e : B) (u : Ui) :
  showCommandPalette u = false ->
  exists pos,
    keydown (mkKeyEvent [47%N] d) (mkState e u)
    = Some (mkOutcome (mkState e (mkUi true pos (selectedIndex u))) false).
Proof.
  intros Hu. destruct u as [sh pos i]. cbn in Hu. subst sh.
  unfold keydown, handleKeyDown. cbn.
  destruct (rangeRect d) as [[bottom lft]|]; cbn; eexists; reflexivity.
Qed.

(** While the palette is open, a key that is none of the four the palette
    listens to goes through both handlers without any effect. *)
Lemma keydown_palette_open_other (ev : KeyEvent) (s : State B) :
  showCommandPalette (ui s) = true ->
  keyIs ev "ArrowDown" = false -> keyIs ev "ArrowUp" = false ->
  keyIs ev "Enter" = false -> keyIs ev "Escape" = false ->
  keydown ev s = Some (mkOutcome s false).
Proof.
  intros Hu H1 H2 H3 H4. destruct s as [e [sh pos i]]. cbn in Hu. subst sh.
  unfold keydown, handleKeyDown, CommandPalette_handleKeyDown.
  cbn [ui showCommandPalette negb state]. rewrite H1, H2, H3, H4. reflexivity.
Qed.

Lemma keyIs_character (c : N) (d : Dom) (name : string) :
  (1 < String.length name)%nat -> keyIs (mkKeyEvent [c] d) name = false.
Proof.
  intros H. unfold keyIs. cbn [key].
  destruct name as [|a [|a' name]]; cbn in H; try lia.
  unfold lit. cbn. now rewrite andb_false_r.
Qed.

Lemma pressCharacter_palette_open (c : N) (d : Dom) (s : State B) :
  showCommandPalette (ui s) = true ->
  pressCharacter c d s
  = Some (mkState (editor_insertText [c] (editor s)) (ui s)).
Proof.
  intros Hu. unfold pressCharacter.
  rewrite keydown_palette_open_other;
    [reflexivity|exact Hu|apply keyIs_character; cbn; lia..].
Qed.

End EditingKeys.

Module EditingFacts.
Import SpecBuffer.

Lemma firstn_S_nth {A} (l : list A) (i : nat) (x : A) :
  nth_error l i = Some x -> firstn (S i) l = firstn i l ++ [x].
Proof.
  revert i. induction l as [|y l IH]; intros [|i] H; cbn in *; try discriminate.
  - now inversion H.
  - f_equal. now apply IH.
Qed.

(** A list taken apart at one of its elements. *)
Lemma split_at_nth {A} (l : list A) (i : nat) (x : A) :
  nth_error l i = Some x -> l = firstn i l ++ x :: skipn (S i) l.
Proof.
  intros H. rewrite <- (firstn_skipn (S i) l) at 1.
  rewrite (firstn_S_nth l i x H), <- app_assoc. reflexivity.
Qed.

Lemma collapsed_cursor (b : Buffer) (c : Cursor) :
  cursor b = Some c -> extent c = 0%nat -> selectionCollapsed b = Some true.
Proof.
  intros Hc He. cbn [selectionCollapsed buffer]. rewrite Hc. cbn. now rewrite He.
Qed.

Lemma element_at_cursor (b : Buffer) (c : Cursor) (blk : Block) :
  cursor b = Some c -> nth_error (blocks b) (block c) = Some blk ->
  aboveType b = Some (btype blk).
Proof.
  intros Hc Hb. cbn [aboveType buffer]. unfold currentBlock. now rewrite Hc, Hb.
Qed.

(** [Transforms.insertNodes] at a collapsed cursor. *)
Lemma insertNodes_collapsed (e : Block) (b : Buffer) (c : Cursor) (blk : Block) :
  cursor b = Some c -> extent c = 0%nat ->
  nth_error (blocks b) (block c) = Some blk ->
  Transforms_insertNodes e b
  = if (List.length (btext blk) <=? offset c)%nat
    then mkBuffer
           (firstn (block c) (blocks b) ++ blk :: e :: skipn (S (block c)) (blocks b))
           (Some (mkCursor (S (block c)) (List.length (btext e)) 0))
    else if (offset c =? 0)%nat
    then mkBuffer
           (firstn (block c) (blocks b) ++ e :: blk :: skipn (S (block c)) (blocks b))
           (Some (mkCursor (block c) (List.length (btext e)) 0))
    else mkBuffer
           (firstn (block c) (blocks b)
            ++ mkBlock (btype blk) (firstn (offset c) (btext blk)) :: e
            :: mkBlock (btype blk) (skipn (offset c) (btext blk))
            :: skipn (S (block c)) (blocks b))
           (Some (mkCursor (S (block c)) (List.length (btext e)) 0)).
Proof.
  intros Hc He Hb. cbn [Transforms_insertNodes buffer]. unfold insertNodesAtCursor.
  rewrite Hc, Hb. cbv zeta. unfold spliceText. rewrite He, Nat.add_0_r. cbn [app].
  rewrite firstn_skipn. destruct blk as [ty t]. reflexivity.
Qed.

(** Inserting an element without text at a collapsed cursor adds no code
    unit to the document and takes none away. *)
Lemma insertNodes_texts (e : Block) (b : Buffer) (c : Cursor) (blk : Block) :
  cursor b = Some c -> extent c = 0%nat ->
  nth_error (blocks b) (block c) = Some blk ->
  btext e = [] ->
  flat_map btext (blocks (Transforms_insertNodes e b)) = flat_map btext (blocks b).
Proof.
  intros Hc He Hb Hempty.
  rewrite (insertNodes_collapsed e b c blk Hc He Hb).
  assert (R : flat_map btext (blocks b)
              = flat_map btext (firstn (block c) (blocks b))
                ++ btext blk ++ flat_map btext (skipn (S (block c)) (blocks b))).
  { rewrite (split_at_nth (blocks b) (block c) blk Hb) at 1.
    rewrite flat_map_app. reflexivity. }
  rewrite R.
  destruct (List.length (btext blk) <=? offset c)%nat;
    [|destruct (offset c =? 0)%nat];
    cbn [blocks]; rewrite !flat_map_app; cbn [flat_map btext];
    rewrite Hempty; cbn [app]; try reflexivity.
  f_equal. now rewrite app_assoc, firstn_skipn.
Qed.

End EditingFacts.

(** C6 as stated fails: Enter with the cursor at the start of the text
    "Hello" puts the new block before the block that holds the cursor, not
    after it. *)
Lemma enter_at_start_inserts_before :
  let b := SpecBuffer.mkBuffer
             [mkBlock Dialogue (lit "Hello"); mkBlock Action (lit "x")]
             (Some (SpecBuffer.mkCursor 0 0 0)) in
  let u := mkUi false (mkPosition 0 0) 0 in
  let d := mkDom None 0 0 in
  keydown (mkKeyEvent (lit "Enter") d) (mkState b u)
  = Some (mkOutcome
            (mkState
               (SpecBuffer.mkBuffer
                  [mkBlock Action []; mkBlock Dialogue (lit "Hello");
                   mkBlock Action (lit "x")]
                  (Some (SpecBuffer.mkCursor 0 0 0)))
               u)
            true)
  /\ keydown (mkKeyEvent (lit "Enter") d) (mkState b u)
     <> Some (mkOutcome
                (mkState
                   (SpecBuffer.mkBuffer
                      [mkBlock Dialogue (lit "Hello"); mkBlock Action [];
                       mkBlock Action (lit "x")]
                      (Some (SpecBuffer.mkCursor 1 0 0)))
                   u)
                true).
Proof. cbn zeta. split; [reflexivity|]. cbv. discriminate. Qed.

(** C6 (amended): Enter in the Editing state with a collapsed selection puts
    exactly one new block, with empty text, at the cursor, leaves every other
    block as it was, and moves the cursor into the new block; the new block
    is a Dialogue in a Character block and an Action in a SceneHeading and in
    every other type.  The new block comes right after the block that holds
    the cursor when the cursor is at the end of its text, right before it
    when the cursor is at the start of a text that is not empty, and
    otherwise between the two parts into which the block is split at the
    cursor.  The default action of the key is prevented and the palette
    stays closed. *)
Theorem enter_inserts_block_by_type
    (b : SpecBuffer.Buffer) (u : Ui) (d : Dom)
    (c : SpecBuffer.Cursor) (blk : Block)
    (Hediting : showCommandPalette u = false)
    (Hcursor : SpecBuffer.cursor b = Some c)
    (Hcollapsed : SpecBuffer.extent c = 0%nat)
    (Hblock : nth_error (SpecBuffer.blocks b) (SpecBuffer.block c) = Some blk) :
  let i := SpecBuffer.block c in
  let off := SpecBuffer.offset c in
  let before := firstn i (SpecBuffer.blocks b) in
  let after := skipn (S i) (SpecBuffer.blocks b) in
  let inserted :=
    mkBlock match btype blk with
            | Character => Dialogue
            | SceneHeading => Action
            | Action | Dialogue | Parenthetical | Transition | Paragraph => Action
            end [] in
  SpecBuffer.blocks b = before ++ blk :: after
  /\ keydown (mkKeyEvent (lit "Enter") d) (mkState b u)
     = Some (mkOutcome
               (mkState
                  (if (List.length (btext blk) <=? off)%nat
                   then SpecBuffer.mkBuffer (before ++ blk :: inserted :: after)
                          (Some (SpecBuffer.mkCursor (S i) 0 0))
                   else if (off =? 0)%nat
                   then SpecBuffer.mkBuffer (before ++ inserted :: blk :: after)
                          (Some (SpecBuffer.mkCursor i 0 0))
                   else SpecBuffer.mkBuffer
                          (before
                           ++ mkBlock (btype blk) (firstn off (btext blk))
                           :: inserted
                           :: mkBlock (btype blk) (skipn off (btext blk))
                           :: after)
                          (Some (SpecBuffer.mkCursor (S i) 0 0)))
                  u)
               true).
Proof.
  cbn zeta. split.
  - exact (EditingFacts.split_at_nth _ _ _ Hblock).
  - rewrite (handleKeyDown_Enter d b u (btype blk) Hediting
               (EditingFacts.collapsed_cursor b c Hcursor Hcollapsed)
               (EditingFacts.element_at_cursor b c blk Hcursor Hblock)).
    rewrite (EditingFacts.insertNodes_collapsed _ b c blk Hcursor Hcollapsed Hblock).
    destruct (btype blk); reflexivity.
Qed.

Lemma enter_inserts_block_witness :
  let b := SpecBuffer.mkBuffer
             [mkBlock Character (lit "WRITER"); mkBlock Action (lit "x")]
             (Some (SpecBuffer.mkCursor 0 6 0)) in
  let u := mkUi false (mkPosition 0 0) 0 in
  let d := mkDom None 0 0 in
  keydown (mkKeyEvent (lit "Enter") d) (mkState b u)
  = Some (mkOutcome
            (mkState
               (SpecBuffer.mkBuffer
                  [mkBlock Character (lit "WRITER"); mkBlock Dialogue [];
                   mkBlock Action (lit "x")]
                  (Some (SpecBuffer.mkCursor 1 0 0)))
               u)
            true).
Proof.
  cbn zeta.
  exact (proj2 (enter_inserts_block_by_type
    (SpecBuffer.mkBuffer
       [mkBlock Character (lit "WRITER"); mkBlock Action (lit "x")]
       (Some (SpecBuffer.mkCursor 0 6 0)))
    (mkUi false (mkPosition 0 0) 0) (mkDom None 0 0)
    (SpecBuffer.mkCursor 0 6 0) (mkBlock Character (lit "WRITER"))
    eq_refl eq_refl eq_refl eq_refl)).
Defined.

(** C4 as stated fails: with a selection that is not collapsed, Tab inserts
    nothing; the document is left as it was. *)
Lemma tab_with_selection_inserts_nothing :
  let b := SpecBuffer.mkBuffer [mkBlock Action (lit "ab")]
             (Some (SpecBuffer.mkCursor 0 0 1)) in
  let u := mkUi false (mkPosition 0 0) 0 in
  selectionCollapsed b = Some false
  /\ keydown (mkKeyEvent (lit "Tab") (mkDom None 0 0)) (mkState b u)
     = Some (mkOutcome (mkState b u) true)
  /\ ~ In (mkBlock Character []) (SpecBuffer.blocks b).
Proof.
  cbn zeta. split; [reflexivity|]. split; [reflexivity|].
  cbn. intros [H|[]]. discriminate H.
Qed.

(** C4 (amended): Tab in the Editing state always has its default action
    prevented.  With a collapsed selection it puts exactly one new empty
    Character block at the cursor and moves the cursor into it, whatever the
    type of the current block: right after the cursor's block when the
    cursor is at the end of its text, right before it when the cursor is at
    the start of a text that is not empty, and otherwise between the two
    parts into which the block is split at the cursor.  With a selection
    that is not collapsed, or with none, it changes nothing. *)
Theorem tab_inserts_character_when_collapsed
    (b : SpecBuffer.Buffer) (u : Ui) (d : Dom)
    (Hediting : showCommandPalette u = false) :
  keydown (mkKeyEvent (lit "Tab") d) (mkState b u)
  = Some (mkOutcome
            (mkState
               match SpecBuffer.cursor b with
               | Some c =>
                   let i := SpecBuffer.block c in
                   let off := SpecBuffer.offset c in
                   let before := firstn i (SpecBuffer.blocks b) in
                   let after := skipn (S i) (SpecBuffer.blocks b) in
                   match nth_error (SpecBuffer.blocks b) i with
                   | Some blk =>
                       if negb (SpecBuffer.extent c =? 0)%nat then b
                       else if (List.length (btext blk) <=? off)%nat
                       then SpecBuffer.mkBuffer
                              (before ++ blk :: mkBlock Character [] :: after)
                              (Some (SpecBuffer.mkCursor (S i) 0 0))
                       else if (off =? 0)%nat
                       then SpecBuffer.mkBuffer
                              (before ++ mkBlock Character [] :: blk :: after)
                              (Some (SpecBuffer.mkCursor i 0 0))
                       else SpecBuffer.mkBuffer
                              (before
                               ++ mkBlock (btype blk) (firstn off (btext blk))
                               :: mkBlock Character []
                               :: mkBlock (btype blk) (skipn off (btext blk))
                               :: after)
                              (Some (SpecBuffer.mkCursor (S i) 0 0))
                   | None => b
                   end
               | None => b
               end
               u)
            true).
Proof.
  rewrite (handleKeyDown_Tab d b u Hediting). do 3 f_equal.
  destruct (SpecBuffer.cursor b) as [c|] eqn:Hcursor;
    [|cbn [selectionCollapsed SpecBuffer.buffer]; now rewrite Hcursor].
  cbn zeta.
  destruct (SpecBuffer.extent c =? 0)%nat eqn:Hext.
  - apply Nat.eqb_eq in Hext.
    rewrite (EditingFacts.collapsed_cursor b c Hcursor Hext).
    destruct (nth_error (SpecBuffer.blocks b) (SpecBuffer.block c)) as [blk|] eqn:Hblock.
    + cbn [negb].
      exact (EditingFacts.insertNodes_collapsed _ b c blk Hcursor Hext Hblock).
    + cbn [Transforms_insertNodes SpecBuffer.buffer].
      unfold SpecBuffer.insertNodesAtCursor. now rewrite Hcursor, Hblock.
  - cbn [selectionCollapsed SpecBuffer.buffer]. rewrite Hcursor. cbn [option_map].
    rewrite Hext. now destruct (nth_error _ _).
Qed.

Lemma tab_inserts_character_witness :
  let b := SpecBuffer.mkBuffer
             [mkBlock Dialogue (lit "Hello."); mkBlock Action (lit "x")]
             (Some (SpecBuffer.mkCursor 0 3 0)) in
  let u := mkUi false (mkPosition 0 0) 0 in
  keydown (mkKeyEvent (lit "Tab") (mkDom None 0 0)) (mkState b u)
  = Some (mkOutcome
            (mkState
               (SpecBuffer.mkBuffer
                  [mkBlock Dialogue (lit "Hel"); mkBlock Character [];
                   mkBlock Dialogue (lit "lo."); mkBlock Action (lit "x")]
                  (Some (SpecBuffer.mkCursor 1 0 0)))
               u)
            true).
Proof.
  cbn zeta.
  exact (tab_inserts_character_when_collapsed
    (SpecBuffer.mkBuffer
       [mkBlock Dialogue (lit "Hello."); mkBlock Action (lit "x")]
       (Some (SpecBuffer.mkCursor 0 3 0)))
    (mkUi false (mkPosition 0 0) 0) (mkDom None 0 0) eq_refl).
Defined.

(** C5 as stated fails: typing [/] at the end of the text "ab" opens the
    palette and leaves the text "ab/" in the block. *)
Lemma slash_enters_the_text :
  let b := SpecBuffer.mkBuffer [mkBlock Action (lit "ab")]
             (Some (SpecBuffer.mkCursor 0 2 0)) in
  let u := mkUi false (mkPosition 0 0) 0 in
  pressCharacter 47%N (mkDom None 0 0) (mkState b u)
  = Some (mkState
            (SpecBuffer.mkBuffer [mkBlock Action (lit "ab/")]
               (Some (SpecBuffer.mkCursor 0 3 0)))
            (mkUi true (mkPosition 0 0) 0)).
Proof. reflexivity. Qed.

(** C5 (amended): in the Editing state, with the cursor (a collapsed
    selection) in a block, Tab and Enter are intercepted before they reach
    the text: their default action is prevented, the one thing the handler
    does to the buffer is to insert an element with empty text, and no
    character is inserted (the texts of the blocks, read in order, are what
    they were).  The [/] key is not intercepted: it opens the palette, its
    default action is not prevented, and the character is inserted at the
    cursor in the current block's text. *)
Theorem structural_keys_and_the_text
    (b : SpecBuffer.Buffer) (u : Ui) (d : Dom)
    (c : SpecBuffer.Cursor) (blk : Block)
    (Hediting : showCommandPalette u = false)
    (Hcursor : SpecBuffer.cursor b = Some c)
    (Hcollapsed : SpecBuffer.extent c = 0%nat)
    (Hblock : nth_error (SpecBuffer.blocks b) (SpecBuffer.block c) = Some blk) :
  let i := SpecBuffer.block c in
  let off := SpecBuffer.offset c in
  (exists s',
      keydown (mkKeyEvent (lit "Tab") d) (mkState b u) = Some (mkOutcome s' true)
      /\ editor s' = Transforms_insertNodes (mkBlock Character []) b
      /\ flat_map btext (SpecBuffer.blocks (editor s'))
         = flat_map btext (SpecBuffer.blocks b))
  /\ (exists s' ty,
        keydown (mkKeyEvent (lit "Enter") d) (mkState b u) = Some (mkOutcome s' true)
        /\ editor s' = Transforms_insertNodes (mkBlock ty []) b
        /\ flat_map btext (SpecBuffer.blocks (editor s'))
           = flat_map btext (SpecBuffer.blocks b))
  /\ (exists b1 u1 ty1,
        keydown (mkKeyEvent [47%N] d) (mkState b u)
        = Some (mkOutcome (mkState b u1) false)
        /\ pressCharacter 47%N d (mkState b u) = Some (mkState b1 u1)
        /\ showCommandPalette u1 = true
        /\ nth_error (SpecBuffer.blocks b1) i
           = Some (mkBlock ty1 (firstn off (btext blk) ++ [47%N] ++ skipn off (btext blk)))
        /\ SpecBuffer.cursor b1 = Some (SpecBuffer.mkCursor i (off + 1) 0)).
Proof.
  cbn zeta. split; [|split].
  - eexists. split; [|split].
    + rewrite (handleKeyDown_Tab d b u Hediting).
      rewrite (EditingFacts.collapsed_cursor b c Hcursor Hcollapsed). reflexivity.
    + reflexivity.
    + cbn [editor].
      now apply (EditingFacts.insertNodes_texts _ b c blk).
  - eexists. exists (enterTarget (btype blk)). split; [|split].
    + apply (handleKeyDown_Enter d b u (btype blk) Hediting
               (EditingFacts.collapsed_cursor b c Hcursor Hcollapsed)
               (EditingFacts.element_at_cursor b c blk Hcursor Hblock)).
    + reflexivity.
    + cbn [editor].
      now apply (EditingFacts.insertNodes_texts _ b c blk).
  - destruct (handleKeyDown_slash d b u Hediting) as [pos Hk].
    unfold pressCharacter. rewrite Hk. cbn [defaultPrevented state editor ui].
    set (t1 := firstn (SpecBuffer.offset c) (btext blk) ++ [47%N]
               ++ skipn (SpecBuffer.offset c) (btext blk)).
    set (blocks1 ty := SpecBuffer.setBlock (SpecBuffer.block c) (mkBlock ty t1)
                         (SpecBuffer.blocks b)).
    set (cur1 := Some (SpecBuffer.mkCursor (SpecBuffer.block c)
                         (SpecBuffer.offset c + 1) 0)).
    assert (Hins : insertText [47%N] b = SpecBuffer.mkBuffer (blocks1 (btype blk)) cur1).
    { cbn [insertText SpecBuffer.buffer]. unfold SpecBuffer.insertTextAtCursor.
      rewrite Hcursor, Hblock. unfold SpecBuffer.spliceText.
      rewrite Hcollapsed, Nat.add_0_r. reflexivity. }
    assert (Hty : exists ty1,
               editor_insertText [47%N] b = SpecBuffer.mkBuffer (blocks1 ty1) cur1).
    { unfold editor_insertText. rewrite Hins.
      cbn [isActualText truthy List.length Nat.eqb JS.eqb N.eqb Pos.eqb andb negb].
      cbn [selectionCollapsed nodeText aboveType SpecBuffer.buffer].
      unfold SpecBuffer.currentBlock. subst cur1 blocks1.
      cbn [SpecBuffer.cursor SpecBuffer.blocks SpecBuffer.block SpecBuffer.extent
           option_map Nat.eqb].
      rewrite (SpecBufferFacts.setBlock_same _ _ _ _ Hblock).
      cbn [option_map btext btype].
      destruct (setNodesTo (autoFormat t1 (Some (btype blk)))) as [ty1|].
      - exists ty1. cbn [Transforms_setNodes SpecBuffer.buffer].
        unfold SpecBuffer.setCurrentBlockType.
        cbn [SpecBuffer.cursor SpecBuffer.blocks SpecBuffer.block].
        rewrite (SpecBufferFacts.setBlock_same _ _ _ _ Hblock).
        cbn [btext]. now rewrite SpecBufferFacts.setBlock_setBlock.
      - now exists (btype blk). }
    destruct Hty as [ty1 Hty]. rewrite Hty.
    exists (SpecBuffer.mkBuffer (blocks1 ty1) cur1), (mkUi true pos (selectedIndex u)), ty1.
    split; [reflexivity|]. split; [reflexivity|]. split; [reflexivity|].
    split; [apply (SpecBufferFacts.setBlock_same _ _ _ _ Hblock)|reflexivity].
Qed.

Lemma structural_keys_witness :
  let blk := mkBlock Action (lit "ab") in
  let b := SpecBuffer.mkBuffer [blk] (Some (SpecBuffer.mkCursor 0 2 0)) in
  let u := mkUi false (mkPosition 0 0) 0 in
  let d := mkDom None 0 0 in
  exists b1 u1 ty1,
    keydown (mkKeyEvent [47%N] d) (mkState b u)
    = Some (mkOutcome (mkState b u1) false)
    /\ pressCharacter 47%N d (mkState b u) = Some (mkState b1 u1)
    /\ showCommandPalette u1 = true
    /\ nth_error (SpecBuffer.blocks b1) 0 = Some (mkBlock ty1 (lit "ab/"))
    /\ SpecBuffer.cursor b1 = Some (SpecBuffer.mkCursor 0 3 0).
Proof.
  cbn zeta.
  exact (proj2 (proj2 (structural_keys_and_the_text
    (SpecBuffer.mkBuffer [mkBlock Action (lit "ab")] (Some (SpecBuffer.mkCursor 0 2 0)))
    (mkUi false (mkPosition 0 0) 0) (mkDom None 0 0)
    (SpecBuffer.mkCursor 0 2 0) (mkBlock Action (lit "ab"))
    eq_refl eq_refl eq_refl eq_refl))).
Defined.

(** ** Key handling while the palette is open *)

(** C3 as stated fails: with the palette open (the [/] that opened it is in
    the text), pressing [a] puts that character into the text of the
    block. *)
Lemma typing_reaches_text_while_palette_open :
  let b := SpecBuffer.mkBuffer [mkBlock Action (lit "/")]
             (Some (SpecBuffer.mkCursor 0 1 0)) in
  let u := mkUi true (mkPosition 0 0) 0 in
  pressCharacter 97%N (mkDom None 0 0) (mkState b u)
  = Some (mkState
            (SpecBuffer.mkBuffer [mkBlock Action (lit "/a")]
               (Some (SpecBuffer.mkCursor 0 2 0)))
            u).
Proof. reflexivity. Qed.

(** C3 (amended): while the palette is open, the handlers consume only
    ArrowUp, ArrowDown, Enter and Escape (their default action is
    prevented).  For every other key the handlers do nothing at all: the
    state is unchanged, no block is inserted, the palette stays open, and
    the default action of the key is not prevented; a key that produces a
    single character therefore still has that character inserted into the
    text through [editor.insertText]. *)
Theorem palette_open_keys {B : Type} {TB : TextBuffer B}
    (s : State B) (Hopen : showCommandPalette (ui s) = true) :
  (forall ev : KeyEvent,
      keyIs ev "ArrowDown" = false -> keyIs ev "ArrowUp" = false ->
      keyIs ev "Enter" = false -> keyIs ev "Escape" = false ->
      keydown ev s = Some (mkOutcome s false))
  /\ (forall (c : N) (d : Dom),
        pressCharacter c d s
        = Some (mkState (editor_insertText [c] (editor s)) (ui s)))
  /\ (forall (d : Dom) (name : string),
        In name ["ArrowDown"; "ArrowUp"; "Enter"; "Escape"]%string ->
        match keydown (mkKeyEvent (lit name) d) s with
        | Some o => defaultPrevented o = true
        | None => True
        end).
Proof.
  split; [|split].
  - intros ev. now apply keydown_palette_open_other.
  - intros c d. now apply pressCharacter_palette_open.
  - intros d name Hin. destruct s as [e [sh pos i]]. cbn in Hopen. subst sh.
    cbn in Hin.
    destruct Hin as [<-|[<-|[<-|[<-|[]]]]]; try reflexivity.
    unfold keydown, CommandPalette_handleKeyDown.
    cbn [ui showCommandPalette selectedIndex negb keyIs key].
    change (JS.eqb (lit "Enter") (lit "ArrowDown")) with false.
    change (JS.eqb (lit "Enter") (lit "ArrowUp")) with false.
    change (JS.eqb (lit "Enter") (lit "Enter")) with true.
    cbv iota.
    destruct (if i <? 0 then None else nth_error commands (Z.to_nat i)); exact I || reflexivity.
Qed.

Lemma palette_open_keys_witness :
  let b := SpecBuffer.mkBuffer [mkBlock Action (lit "/")]
             (Some (SpecBuffer.mkCursor 0 1 0)) in
  let s := mkState b (mkUi true (mkPosition 0 0) 0) in
  keydown (mkKeyEvent (lit "Backspace") (mkDom None 0 0)) s = Some (mkOutcome s false)
  /\ pressCharacter 97%N (mkDom None 0 0) s
     = Some (mkState (editor_insertText [97%N] b) (ui s)).
Proof.
  cbn zeta.
  pose proof (palette_open_keys
    (mkState (SpecBuffer.mkBuffer [mkBlock Action (lit "/")]
                (Some (SpecBuffer.mkCursor 0 1 0)))
             (mkUi true (mkPosition 0 0) 0)) eq_refl) as [H1 [H2 _]].
  split.
  - exact (H1 (mkKeyEvent (lit "Backspace") (mkDom None 0 0))
             eq_refl eq_refl eq_refl eq_refl).
  - exact (H2 97%N (mkDom None 0 0)).
Defined.

(** ** Title page *)

Section TitlePage.
Import Pdf.

Variable widthOfTextAtSize : Font -> jsstring -> Z -> option Q.
Variable drawable : Font -> jsstring -> bool.
Variable toUpperCase : jsstring -> jsstring.

(** The title page is drawn exactly when the library measures and draws
    each of its fields; with a contact string its draws end with it. *)
Lemma titlePageDraws_outcome (g : Geometry) (tp : TitlePage) :
  match titlePageDraws widthOfTextAtSize drawable toUpperCase g tp with
  | Some p =>
      titlePageDrawable widthOfTextAtSize drawable toUpperCase tp = true
      /\ (truthy (contact tp) = true ->
          exists before,
            p = before ++ [mkDraw (contact tp) (inject_Z (marginLeft g))
                             (marginBottom g) 10 courierFont]
            /\ forall dr, In dr before ->
                 y dr <> marginBottom g \/ pageHeight g <= 350 + marginBottom g)
  | None => titlePageDrawable widthOfTextAtSize drawable toUpperCase tp = false
  end.
Proof.
  unfold titlePageDraws, titlePageDrawable, centrable, centered, drawText, andThen.
  destruct (truthy (title tp));
    [destruct (widthOfTextAtSize courierBoldFont _ 24);
     [destruct (drawable courierBoldFont _)|]|];
    cbn [andb]; try reflexivity;
    (destruct (truthy (author tp));
     [destruct (widthOfTextAtSize courierFont (lit "Written by " ++ _) 12);
      [destruct (drawable courierFont (lit "Written by " ++ _))|]|];
     cbn [andb]; try reflexivity;
     (destruct (truthy (basedOn tp));
      [destruct (widthOfTextAtSize courierFont (lit "Based on " ++ _) 12);
       [destruct (drawable courierFont (lit "Based on " ++ _))|]|];
      cbn [andb]; try reflexivity;
      (destruct (truthy (contact tp));
       [destruct (drawable courierFont (contact tp))|];
       cbn [andb]; try reflexivity;
       (split; [reflexivity|]; intros Hc;
        first
          [ discriminate Hc
          | eexists; split; [rewrite ?app_assoc; reflexivity|];
            intros dr Hin;
            destruct (Z_le_gt_dec (pageHeight g) (350 + marginBottom g)) as [Hle|Hgt];
            [now right|left];
            cbn [app] in Hin;
            repeat (destruct Hin as [<-|Hin]; [cbn [y]; lia|]);
            destruct Hin ])))).
Qed.

End TitlePage.

(** ** Pagination *)

Section Pagination.
Import Pdf.

Variable widthOfTextAtSize : Font -> jsstring -> Z -> option Q.
Variable drawable : Font -> jsstring -> bool.
Variable toUpperCase : jsstring -> jsstring.
Variable g : Geometry.

Let topY : Z := pageHeight g - marginTop g.
Let per : nat := Z.to_nat (maxLinesPerPage g).
(** The vertical cursor once [j] lines are on the current page. *)
Let cursorAfter (j : nat) : Z := topY - Z.of_nat j * lineHeight g.

(** A line is drawn exactly when the library measures and draws it, and
    then with its own text, at the height asked for. *)
Lemma drawLine_outcome (line : PageLine) (yPosition : Z) :
  match drawLine widthOfTextAtSize drawable toUpperCase g line yPosition with
  | Some dr =>
      placeable widthOfTextAtSize drawable toUpperCase line = true
      /\ drawn dr = text line /\ y dr = yPosition
      /\ fontSize dr = (if size line =? 0 then 12 else size line)
      /\ font dr = (if bold line then courierBoldFont else courierFont)
  | None => placeable widthOfTextAtSize drawable toUpperCase line = false
  end.
Proof.
  unfold drawLine, xPositionOf, placeable, centered, drawText, andThen.
  destruct (type line);
    try destruct (widthOfTextAtSize _ _ _);
    destruct (drawable _ _); cbn; auto.
Qed.

(** Whether a line is drawn does not depend on the height. *)
Lemma drawLine_placeable (line : PageLine) (yPosition : Z) :
  placeable widthOfTextAtSize drawable toUpperCase line = true ->
  exists dr, drawLine widthOfTextAtSize drawable toUpperCase g line yPosition = Some dr.
Proof.
  intros H. pose proof (drawLine_outcome line yPosition) as Ho.
  destruct (drawLine _ _ _ _ _ _) as [dr|]; [now exists dr|congruence].
Qed.

(** The loop completes exactly when every line is measured and drawn. *)
Lemma layout_completes (lines : list PageLine) :
  forall (yPosition : Z) (currentPage : Page),
    forallb (placeable widthOfTextAtSize drawable toUpperCase) lines = true ->
    exists pages,
      layout widthOfTextAtSize drawable toUpperCase g lines yPosition currentPage
      = Some pages.
Proof.
  induction lines as [|line lines IH]; intros yPosition currentPage H; cbn [layout].
  - now eexists.
  - cbn [forallb] in H. apply andb_prop in H as [Hl Hr].
    destruct (yPosition - lineHeight g <? marginBottom g).
    + destruct (drawLine_placeable line (pageHeight g - marginTop g) Hl) as [dr ->].
      cbn [andThen].
      destruct (IH (pageHeight g - marginTop g - lineHeight g) [dr] Hr) as [pages ->].
      now eexists.
    + destruct (drawLine_placeable line yPosition Hl) as [dr ->]. cbn [andThen].
      apply IH, Hr.
Qed.

Lemma layout_fails (lines : list PageLine) :
  forall (yPosition : Z) (currentPage : Page),
    forallb (placeable widthOfTextAtSize drawable toUpperCase) lines = false ->
    layout widthOfTextAtSize drawable toUpperCase g lines yPosition currentPage = None.
Proof.
  induction lines as [|line lines IH]; intros yPosition currentPage H; cbn [layout];
    [discriminate H|].
  cbn [forallb] in H.
  destruct (yPosition - lineHeight g <? marginBottom g).
  - pose proof (drawLine_outcome line (pageHeight g - marginTop g)) as Ho.
    destruct (drawLine _ _ _ _ _ _) as [dr|]; [|reflexivity].
    destruct Ho as [Hp _]. rewrite Hp in H. cbn [andb] in H. cbn [andThen].
    now rewrite (IH _ _ H).
  - pose proof (drawLine_outcome line yPosition) as Ho.
    destruct (drawLine _ _ _ _ _ _) as [dr|]; [|reflexivity].
    destruct Ho as [Hp _]. rewrite Hp in H. cbn [andb] in H. cbn [andThen].
    apply IH, H.
Qed.

(** One step of the loop that completes. *)
Lemma layout_step (line : PageLine) (lines : list PageLine) (yPosition : Z)
    (currentPage : Page) (pages : list Page) :
  layout widthOfTextAtSize drawable toUpperCase g (line :: lines) yPosition currentPage
  = Some pages ->
  if yPosition - lineHeight g <? marginBottom g
  then exists dr rest,
      drawLine widthOfTextAtSize drawable toUpperCase g line (pageHeight g - marginTop g)
      = Some dr
      /\ layout widthOfTextAtSize drawable toUpperCase g lines
           (pageHeight g - marginTop g - lineHeight g) [dr] = Some rest
      /\ pages = currentPage :: rest
  else exists dr,
      drawLine widthOfTextAtSize drawable toUpperCase g line yPosition = Some dr
      /\ layout widthOfTextAtSize drawable toUpperCase g lines
           (yPosition - lineHeight g) (currentPage ++ [dr]) = Some pages.
Proof.
  cbn [layout]. destruct (yPosition - lineHeight g <? marginBottom g).
  - destruct (drawLine _ _ _ _ _ _) as [dr|]; [|discriminate]. cbn [andThen].
    destruct (layout _ _ _ _ _ _ _) as [rest|] eqn:Hrest; [|discriminate].
    cbn [andThen]. intros E. inversion E. now exists dr, rest.
  - destruct (drawLine _ _ _ _ _ _) as [dr|]; [|discriminate]. cbn [andThen].
    intros E. now exists dr.
Qed.

Lemma layout_prefix (lines : list PageLine) :
  forall (yPosition : Z) (currentPage : Page) (pages : list Page),
    layout widthOfTextAtSize drawable toUpperCase g lines yPosition currentPage
    = Some pages ->
    exists more rest, pages = (currentPage ++ more) :: rest.
Proof.
  induction lines as [|line lines IH]; intros yPosition currentPage pages E.
  - cbn in E. inversion E. exists [], []. now rewrite app_nil_r.
  - apply layout_step in E.
    destruct (yPosition - lineHeight g <? marginBottom g).
    + destruct E as [dr [rest [_ [_ ->]]]]. exists [], rest. now rewrite app_nil_r.
    + destruct E as [dr [_ E]]. destruct (IH _ _ _ E) as [more [rest ->]].
      rewrite <- app_assoc. now eexists; eexists.
Qed.

Hypothesis line_positive : 0 < lineHeight g.
Hypothesis line_fits : lineHeight g <= topY - marginBottom g.

Lemma per_positive : (1 <= per)%nat.
Proof.
  subst per. unfold maxLinesPerPage. fold topY.
  assert (1 <= (topY - marginBottom g) / lineHeight g)
    by (apply Z.div_le_lower_bound; lia).
  lia.
Qed.

(** The page-break test of the loop fires exactly on a full page. *)
Lemma break_iff_full (j : nat) :
  (cursorAfter j - lineHeight g <? marginBottom g) = (per <=? j)%nat.
Proof.
  subst per cursorAfter. unfold maxLinesPerPage. fold topY. cbv beta.
  pose proof (Z.div_mod (topY - marginBottom g) (lineHeight g) ltac:(lia)) as Hdm.
  pose proof (Z.mod_pos_bound (topY - marginBottom g) (lineHeight g) line_positive) as Hr.
  assert (Hq : 1 <= (topY - marginBottom g) / lineHeight g)
    by (apply Z.div_le_lower_bound; lia).
  set (q := (topY - marginBottom g) / lineHeight g) in *.
  set (r := (topY - marginBottom g) mod lineHeight g) in *.
  destruct (Nat.leb_spec (Z.to_nat q) j) as [Hle|Hlt].
  - apply Z.ltb_lt. assert (q <= Z.of_nat j) by lia. nia.
  - apply Z.ltb_ge. assert (Z.of_nat j + 1 <= q) by lia. nia.
Qed.

Lemma cursorAfter_S (j : nat) : cursorAfter j - lineHeight g = cursorAfter (S j).
Proof. subst cursorAfter. cbv beta. lia. Qed.

Lemma cursorAfter_1 : topY - lineHeight g = cursorAfter 1.
Proof. subst cursorAfter. cbv beta. lia. Qed.

(** How many pages the loop ends with, from a page that holds [j] lines. *)
Lemma layout_count (lines : list PageLine) :
  forall (j : nat) (currentPage : Page) (pages : list Page),
    (j <= per)%nat ->
    layout widthOfTextAtSize drawable toUpperCase g lines (cursorAfter j) currentPage
    = Some pages ->
    List.length pages = (1 + (j + List.length lines - 1) / per)%nat.
Proof.
  pose proof per_positive as Hper.
  induction lines as [|line lines IH]; intros j currentPage pages Hj E.
  - cbn in E. inversion E. cbn [List.length].
    rewrite Nat.div_small by lia. reflexivity.
  - apply layout_step in E. rewrite break_iff_full in E. fold topY in E.
    cbn [List.length].
    destruct (Nat.leb_spec per j) as [Hfull|Hroom].
    + destruct E as [dr [rest [_ [E ->]]]]. rewrite cursorAfter_1 in E.
      cbn [List.length]. rewrite (IH 1%nat _ _ Hper E).
      replace (j + S (List.length lines) - 1)%nat
        with (List.length lines + 1 * per)%nat by lia.
      rewrite Nat.div_add by lia.
      replace (1 + List.length lines - 1)%nat with (List.length lines) by lia. lia.
    + destruct E as [dr [_ E]]. rewrite cursorAfter_S in E.
      rewrite (IH (S j) _ _ ltac:(lia) E). do 2 f_equal. lia.
Qed.

(** Where each line is drawn, from a page that holds [j] lines. *)
Lemma layout_place (lines : list PageLine) :
  forall (j : nat) (currentPage : Page) (pages : list Page) (k : nat) (line : PageLine),
    (j <= per)%nat -> List.length currentPage = j ->
    layout widthOfTextAtSize drawable toUpperCase g lines (cursorAfter j) currentPage
    = Some pages ->
    nth_error lines k = Some line ->
    exists dr,
      drawLine widthOfTextAtSize drawable toUpperCase g line
        (cursorAfter ((j + k) mod per)) = Some dr
      /\ nth_error (nth ((j + k) / per) pages []) ((j + k) mod per) = Some dr.
Proof.
  pose proof per_positive as Hper.
  induction lines as [|l lines IH]; intros j currentPage pages k line Hj Hlen E Hk;
    [destruct k; discriminate Hk|].
  apply layout_step in E. rewrite break_iff_full in E. fold topY in E.
  destruct (Nat.leb_spec per j) as [Hfull|Hroom].
  - destruct E as [dr [rest [Hdr [E ->]]]]. rewrite cursorAfter_1 in E.
    replace (j + k)%nat with (k + 1 * per)%nat by lia.
    rewrite Nat.div_add, Nat.Div0.mod_add by lia.
    replace (k / per + 1)%nat with (S (k / per)) by lia. cbn [nth].
    destruct k as [|k]; cbn [nth_error] in Hk.
    + inversion Hk; subst l. rewrite Nat.div_small, Nat.Div0.mod_0_l by lia.
      destruct (layout_prefix _ _ _ _ E) as [more [rest' ->]].
      exists dr. split; [|reflexivity].
      replace (cursorAfter 0) with topY by (subst cursorAfter; cbv beta; lia).
      exact Hdr.
    + exact (IH 1%nat [dr] rest k line Hper eq_refl E Hk).
  - destruct E as [dr [Hdr E]]. rewrite cursorAfter_S in E.
    destruct k as [|k]; cbn [nth_error] in Hk.
    + inversion Hk; subst l. rewrite Nat.add_0_r.
      rewrite Nat.div_small, Nat.mod_small by lia.
      destruct (layout_prefix _ _ _ _ E) as [more [rest ->]].
      exists dr. split; [exact Hdr|].
      cbn [nth]. rewrite <- app_assoc.
      rewrite nth_error_app2 by lia. rewrite Hlen, Nat.sub_diag. reflexivity.
    + replace (j + S k)%nat with (S j + k)%nat by lia.
      apply (IH (S j) (currentPage ++ [dr]) pages k line); [lia| |exact E|exact Hk].
      rewrite length_app. cbn. lia.
Qed.

End Pagination.

(** ** The export as a whole *)

(** The content pages are made exactly when every line is measured and
    drawn. *)
Lemma contentPages_outcome
    (widthOfTextAtSize : Pdf.Font -> jsstring -> Z -> option Q)
    (drawable : Pdf.Font -> jsstring -> bool)
    (toUpperCase : jsstring -> jsstring)
    (g : Pdf.Geometry) (lines : list Pdf.PageLine) :
  if forallb (Pdf.placeable widthOfTextAtSize drawable toUpperCase) lines
  then exists pages,
      Pdf.contentPages widthOfTextAtSize drawable toUpperCase g lines = Some pages
  else Pdf.contentPages widthOfTextAtSize drawable toUpperCase g lines = None.
Proof.
  unfold Pdf.contentPages.
  destruct (forallb _ lines) eqn:H.
  - now apply layout_completes.
  - now apply layout_fails.
Qed.

(** The page count of the content pages. *)
Lemma contentPages_count
    (widthOfTextAtSize : Pdf.Font -> jsstring -> Z -> option Q)
    (drawable : Pdf.Font -> jsstring -> bool)
    (toUpperCase : jsstring -> jsstring)
    (lines : list Pdf.PageLine) (pages : list Pdf.Page) :
  Pdf.contentPages widthOfTextAtSize drawable toUpperCase Pdf.letter lines = Some pages ->
  List.length pages = Nat.max 1 (Pdf.ceilDiv (List.length lines) 46).
Proof.
  unfold Pdf.contentPages. intros E.
  pose proof (layout_count widthOfTextAtSize drawable toUpperCase Pdf.letter
                ltac:(cbn; lia) ltac:(cbn; lia) lines 0%nat [] pages
                ltac:(cbn; lia)) as H.
  change (Z.to_nat (Pdf.maxLinesPerPage Pdf.letter)) with 46%nat in H.
  cbn [Nat.add] in H. rewrite Z.mul_0_l, Z.sub_0_r in H. rewrite (H E).
  unfold Pdf.ceilDiv. destruct lines as [|l lines]; [reflexivity|].
  cbn [List.length].
  replace (S (List.length lines) - 1)%nat with (List.length lines) by lia.
  replace (S (List.length lines) + 46 - 1)%nat
    with (List.length lines + 1 * 46)%nat by lia.
  rewrite Nat.div_add by lia. lia.
Qed.

(** C7 as stated fails: the contact string is drawn at size 10, not 12. *)
Lemma contact_is_drawn_at_size_10 :
  let tp := Pdf.mkTitlePage (lit "T") (lit "A") (lit "me@example.org") [] in
  exists pages,
    Pdf.handleExportPDF Pdf.courierWidth Pdf.courierDraws Pdf.asciiUpper true tp []
    = Some pages
    /\ nth_error (hd [] pages) 2
       = Some (Pdf.mkDraw (lit "me@example.org") 72 72 10 Pdf.courierFont)
    /\ ~ In (Pdf.mkDraw (lit "me@example.org") 72 72 12 Pdf.courierFont)
           (List.concat pages).
Proof.
  cbn zeta. eexists. split; [vm_compute; reflexivity|]. split; [reflexivity|].
  cbn. intros H.
  repeat (destruct H as [H|H]; [discriminate H|]). exact H.
Qed.

(** C7 (amended): when the title page is requested and the title or the
    author is not empty, and the PDF library measures and draws every text
    of the title page and of the body in its Courier fonts, the first page
    of the export is the title page, and a non-empty contact string is the
    last thing drawn on it: left-aligned at x = leftMargin = 72, at
    y = bottomMargin = 72, in Courier at font size 10.  When the library
    throws on one of these texts, the export fails and there is no
    document. *)
Theorem contact_drawn_at_bottom_margin
    (widthOfTextAtSize : Pdf.Font -> jsstring -> Z -> option Q)
    (drawable : Pdf.Font -> jsstring -> bool)
    (toUpperCase : jsstring -> jsstring)
    (tp : Pdf.TitlePage) (content : list Pdf.Node)
    (Hhead : truthy (Pdf.title tp) || truthy (Pdf.author tp) = true)
    (Hcontact : truthy (Pdf.contact tp) = true) :
  let encodable :=
    Pdf.titlePageDrawable widthOfTextAtSize drawable toUpperCase tp
    && forallb (Pdf.placeable widthOfTextAtSize drawable toUpperCase)
         (Pdf.formatContentForPDF content) in
  (encodable = true ->
   exists before rest,
     Pdf.handleExportPDF widthOfTextAtSize drawable toUpperCase true tp content
     = Some ((before ++ [Pdf.mkDraw (Pdf.contact tp) 72 72 10 Pdf.courierFont]) :: rest)
     /\ forall dr, In dr before -> Pdf.y dr <> 72)
  /\ (encodable = false ->
      Pdf.handleExportPDF widthOfTextAtSize drawable toUpperCase true tp content = None).
Proof.
  cbn zeta.
  unfold Pdf.handleExportPDF, Pdf.exportPages, Pdf.titlePages.
  rewrite Hhead. cbn [andb].
  pose proof (titlePageDraws_outcome widthOfTextAtSize drawable toUpperCase
                Pdf.letter tp) as Ht.
  pose proof (contentPages_outcome widthOfTextAtSize drawable toUpperCase
                Pdf.letter (Pdf.formatContentForPDF content)) as Hb.
  destruct (Pdf.titlePageDraws _ _ _ _ tp) as [p|].
  - destruct Ht as [Ht Hlast]. rewrite Ht. cbn [andb Pdf.andThen].
    destruct (forallb _ (Pdf.formatContentForPDF content)).
    + destruct Hb as [pages ->]. cbn [Pdf.andThen app]. split; [|discriminate].
      intros _. destruct (Hlast Hcontact) as [before [-> Hy]].
      exists before, pages. split; [reflexivity|].
      intros dr Hin. destruct (Hy dr Hin) as [H|H]; [exact H|]. cbn in H. lia.
    + rewrite Hb. split; [discriminate|reflexivity].
  - rewrite Ht. cbn [andb Pdf.andThen]. split; [discriminate|reflexivity].
Qed.

Lemma contact_drawn_witness :
  let tp := Pdf.mkTitlePage (lit "T") [] (lit "c") [] in
  exists before rest,
    Pdf.handleExportPDF Pdf.courierWidth Pdf.courierDraws Pdf.asciiUpper true tp []
    = Some ((before ++ [Pdf.mkDraw (lit "c") 72 72 10 Pdf.courierFont]) :: rest)
    /\ forall dr, In dr before -> Pdf.y dr <> 72.
Proof.
  cbn zeta.
  exact (proj1 (contact_drawn_at_bottom_margin Pdf.courierWidth Pdf.courierDraws
                  Pdf.asciiUpper (Pdf.mkTitlePage (lit "T") [] (lit "c") []) []
                  eq_refl eq_refl) eq_refl).
Defined.

(** C2 as stated fails: a body of N = 0 lines is exported as one content
    page, not as ceil(0 / 46) = 0 pages. *)
Lemma empty_body_is_one_page_not_zero :
  let lines : list Pdf.PageLine := [] in
  exists pages,
    Pdf.contentPages Pdf.courierWidth Pdf.courierDraws Pdf.asciiUpper Pdf.letter lines
    = Some pages
    /\ List.length pages = 1%nat
    /\ Pdf.ceilDiv (List.length lines) (Z.to_nat (648 / 14)) = 0%nat
    /\ List.length pages
       <> Pdf.ceilDiv (List.length lines) (Z.to_nat (Pdf.maxLinesPerPage Pdf.letter)).
Proof. cbn zeta. eexists. repeat split. vm_compute. discriminate. Qed.

(** C2 (amended): with line height 14 on pages of height 792 with margins
    72, a page takes floor(648 / 14) = 46 lines.  When the PDF library
    measures and draws every line, a body of N >= 1 lines is exported as
    exactly ceil(N / 46) content pages, and a body of no lines as one
    (empty) content page; when it throws on a line, the export fails and
    there are no pages.  Line number k (from 0) is drawn on content page
    floor(k / 46), as the (k mod 46)-th draw of that page, at height
    720 - 14 (k mod 46), which never puts it across the bottom margin; so
    every line that would cross it starts a new page at height 720.  For any
    page geometry in which n lines fill the usable span exactly, the first n
    lines are on the first page and the next line starts the second page. *)
Theorem pagination_page_count_and_placement
    (widthOfTextAtSize : Pdf.Font -> jsstring -> Z -> option Q)
    (drawable : Pdf.Font -> jsstring -> bool)
    (toUpperCase : jsstring -> jsstring)
    (lines : list Pdf.PageLine) :
  let encodable := forallb (Pdf.placeable widthOfTextAtSize drawable toUpperCase) lines in
  Pdf.maxLinesPerPage Pdf.letter = 46
  /\ (encodable = false ->
      Pdf.contentPages widthOfTextAtSize drawable toUpperCase Pdf.letter lines = None)
  /\ (encodable = true ->
      exists pages,
        Pdf.contentPages widthOfTextAtSize drawable toUpperCase Pdf.letter lines
        = Some pages
        /\ List.length pages = Nat.max 1 (Pdf.ceilDiv (List.length lines) 46)
        /\ forall (k : nat) (line : Pdf.PageLine),
             nth_error lines k = Some line ->
             exists dr,
               Pdf.drawLine widthOfTextAtSize drawable toUpperCase Pdf.letter line
                 (720 - 14 * Z.of_nat (k mod 46)) = Some dr
               /\ nth_error (nth (k / 46) pages []) (k mod 46) = Some dr
               /\ Pdf.drawn dr = Pdf.text line
               /\ Pdf.y dr = 720 - 14 * Z.of_nat (k mod 46)
               /\ 72 <= Pdf.y dr - 14)
  /\ (forall (g : Pdf.Geometry) (n : nat) (line : Pdf.PageLine) (pages' : list Pdf.Page),
        0 < Pdf.lineHeight g -> (1 <= n)%nat ->
        Z.of_nat n * Pdf.lineHeight g
        = Pdf.pageHeight g - Pdf.marginTop g - Pdf.marginBottom g ->
        nth_error lines n = Some line ->
        Pdf.contentPages widthOfTextAtSize drawable toUpperCase g lines = Some pages' ->
        (forall (k : nat) (l : Pdf.PageLine),
            (k < n)%nat -> nth_error lines k = Some l ->
            nth_error (nth 0 pages' []) k
            = Pdf.drawLine widthOfTextAtSize drawable toUpperCase g l
                (Pdf.pageHeight g - Pdf.marginTop g - Z.of_nat k * Pdf.lineHeight g)
            /\ nth_error (nth 0 pages' []) k <> None)
        /\ nth_error (nth 1 pages' []) 0
           = Pdf.drawLine widthOfTextAtSize drawable toUpperCase g line
               (Pdf.pageHeight g - Pdf.marginTop g)
        /\ nth_error (nth 1 pages' []) 0 <> None).
Proof.
  cbn zeta. split; [reflexivity|].
  pose proof (contentPages_outcome widthOfTextAtSize drawable toUpperCase
                Pdf.letter lines) as Ho.
  split; [|split].
  - intros H. now rewrite H in Ho.
  - intros H. rewrite H in Ho. destruct Ho as [pages E]. exists pages.
    split; [exact E|]. split; [exact (contentPages_count _ _ _ _ _ E)|].
    intros k line Hk.
    unfold Pdf.contentPages in E.
    destruct (layout_place widthOfTextAtSize drawable toUpperCase Pdf.letter
                ltac:(cbn; lia) ltac:(cbn; lia) lines 0%nat [] pages k line
                ltac:(cbn; lia) eq_refl E Hk) as [dr [Hdr Hnth]].
    change (Z.to_nat (Pdf.maxLinesPerPage Pdf.letter)) with 46%nat in Hdr, Hnth.
    cbn [Nat.add] in Hdr, Hnth.
    cbn [Pdf.pageHeight Pdf.marginTop Pdf.lineHeight Pdf.letter] in Hdr.
    replace (792 - 72 - Z.of_nat (k mod 46) * 14)
      with (720 - 14 * Z.of_nat (k mod 46)) in Hdr by lia.
    exists dr. split; [exact Hdr|]. split; [exact Hnth|].
    pose proof (drawLine_outcome widthOfTextAtSize drawable toUpperCase Pdf.letter
                  line (720 - 14 * Z.of_nat (k mod 46))) as Hd.
    rewrite Hdr in Hd. destruct Hd as [_ [Htext [Hy _]]].
    split; [exact Htext|]. split; [exact Hy|].
    rewrite Hy. pose proof (Nat.mod_upper_bound k 46 ltac:(lia)). lia.
  - intros g n line pages' Hh Hn Hfill Hline E.
    assert (Hper : Z.to_nat (Pdf.maxLinesPerPage g) = n).
    { unfold Pdf.maxLinesPerPage. rewrite <- Hfill, Z.div_mul by lia. lia. }
    assert (Hfit : Pdf.lineHeight g
                   <= Pdf.pageHeight g - Pdf.marginTop g - Pdf.marginBottom g) by nia.
    unfold Pdf.contentPages in E.
    assert (Hn' : forall (k : nat) (l : Pdf.PageLine),
               nth_error lines k = Some l ->
               exists dr,
                 Pdf.drawLine widthOfTextAtSize drawable toUpperCase g l
                   (Pdf.pageHeight g - Pdf.marginTop g
                    - Z.of_nat (k mod n) * Pdf.lineHeight g) = Some dr
                 /\ nth_error (nth (k / n) pages' []) (k mod n) = Some dr).
    { intros k l Hk.
      pose proof (layout_place widthOfTextAtSize drawable toUpperCase g Hh Hfit
                    lines 0%nat [] pages' k l ltac:(lia) eq_refl) as H.
      rewrite Hper in H. cbn [Nat.add] in H.
      rewrite Z.mul_0_l, Z.sub_0_r in H. exact (H E Hk). }
    split; [|].
    + intros k l Hlt Hk. destruct (Hn' k l Hk) as [dr [Hdr Hnth]].
      rewrite Nat.div_small, Nat.mod_small in * by lia.
      rewrite Hdr, Hnth. split; [reflexivity|discriminate].
    + destruct (Hn' n line Hline) as [dr [Hdr Hnth]].
      rewrite Nat.div_same, Nat.Div0.mod_same in * by lia.
      rewrite Z.mul_0_l, Z.sub_0_r in Hdr.
      rewrite Hdr, Hnth. split; [reflexivity|discriminate].
Qed.

Lemma pagination_witness :
  let line := Pdf.mkLine (lit "a") Action false 12 in
  let lines := repeat line 47 in
  exists pages dr,
    Pdf.contentPages Pdf.courierWidth Pdf.courierDraws Pdf.asciiUpper Pdf.letter lines
    = Some pages
    /\ List.length pages = 2%nat
    /\ Pdf.drawLine Pdf.courierWidth Pdf.courierDraws Pdf.asciiUpper Pdf.letter line 720
       = Some dr
    /\ nth_error (nth 1 pages []) 0 = Some dr.
Proof.
  cbn zeta.
  destruct (pagination_page_count_and_placement Pdf.courierWidth Pdf.courierDraws
              Pdf.asciiUpper (repeat (Pdf.mkLine (lit "a") Action false 12) 47))
    as [_ [_ [H _]]].
  destruct (H eq_refl) as [pages [E [Hn Hp]]].
  destruct (Hp 46%nat (Pdf.mkLine (lit "a") Action false 12) eq_refl)
    as [dr [Hdr [Hnth _]]].
  exists pages, dr. split; [exact E|]. split; [exact Hn|]. split; [exact Hdr|exact Hnth].
Defined.

(** ** Empty bodies *)






(* ================================================================== *)
(** * Further properties *)

(** ** The auto-format loop on any list of rules *)

Lemma autoFormatLoop_retyping (rules : list AutoFormatRule) (textContent : jsstring)
    (ty : BlockType) :
  setNodesTo (autoFormatLoop rules textContent (Some ty))
  = option_map type (retypingRule rules textContent ty).
Proof.
  unfold retypingRule. induction rules as [|r rules IH]; [reflexivity|].
  rewrite autoFormatLoop_cons. cbn [find].
  destruct (Regex.test (pattern r) textContent && negb (BlockType_eqb ty (type r)));
    [reflexivity|exact IH].
Qed.

(** The loop reads the text only through the pattern tests. *)
Lemma autoFormatLoop_ext (rules : list AutoFormatRule) (s s' : jsstring)
    (element : option BlockType) :
  (forall r, In r rules -> Regex.test (pattern r) s = Regex.test (pattern r) s') ->
  autoFormatLoop rules s element = autoFormatLoop rules s' element.
Proof.
  induction rules as [|r rules IH]; intros H; [reflexivity|].
  rewrite !autoFormatLoop_cons, (H r (or_introl eq_refl)), IH; [reflexivity|].
  intros r' Hr'. apply H. now right.
Qed.

(** A pattern looks at a prefix of the text only. *)
Lemma matchAt_app (p : list Regex.atom) (s t : jsstring) :
  Regex.matchAt p s = true -> Regex.matchAt p (s ++ t) = true.
Proof.
  revert s. induction p as [|a p IH]; intros s H; [reflexivity|].
  destruct a as [u|d|]; cbn [Regex.matchAt] in *.
  - destruct s as [|c s]; [discriminate H|]. cbn [app].
    apply andb_prop in H as [H1 H2]. now rewrite H1, (IH s H2).
  - destruct s as [|c s].
    + cbn [app]. apply IH in H. cbn [app] in H.
      destruct t as [|c t]; [exact H|]. rewrite H. apply orb_true_r.
    + cbn [app]. apply orb_prop in H as [H|H].
      * apply andb_prop in H as [H1 H2]. now rewrite H1, (IH s H2).
      * apply (IH (c :: s)) in H. cbn [app] in H. rewrite H. apply orb_true_r.
  - destruct s as [|c s]; [discriminate H|]. cbn [app].
    apply andb_prop in H as [H1 H2]. now rewrite H1, (IH s H2).
Qed.

(** ** The catalog of patterns *)

(** No text is matched by two rules of the catalog: a match fixes the first
    letter, and the five words start with five different letters. *)
Lemma catalog_exclusive (textContent : jsstring) (r r' : AutoFormatRule) :
  In r autoFormatPatterns -> In r' autoFormatPatterns ->
  Regex.test (pattern r) textContent = true ->
  Regex.test (pattern r') textContent = true ->
  r = r'.
Proof.
  rewrite autoFormatPatterns_atoms. intros Hr Hr' H H'.
  destruct textContent as [|c s];
    [cbn in Hr; repeat (destruct Hr as [<-|Hr]; [discriminate H|]); contradiction|].
  unfold Regex.test in *.
  cbn [In] in Hr, Hr'.
  repeat (destruct Hr as [<-|Hr]); try contradiction;
    repeat (destruct Hr' as [<-|Hr']); try contradiction; try reflexivity;
    exfalso; cbn [pattern] in H, H';
    rewrite matchAt_letter in H, H';
    apply andb_prop in H as [H _]; apply andb_prop in H' as [H' _];
    unfold Regex.letterMatches in H, H';
    apply orb_prop in H; apply orb_prop in H';
    rewrite !N.eqb_eq in H, H'; lia.
Qed.

(** The type a block ends up with is the type of the rule that matches its
    text, whatever the type was. *)
Lemma typeAfterAutoFormat_match (textContent : jsstring) (ty : BlockType)
    (r : AutoFormatRule) :
  In r autoFormatPatterns -> Regex.test (pattern r) textContent = true ->
  typeAfterAutoFormat textContent ty = type r.
Proof.
  intros Hr Hm. unfold typeAfterAutoFormat, autoFormat.
  rewrite autoFormatLoop_retyping. unfold retypingRule.
  destruct (find _ autoFormatPatterns) as [r'|] eqn:E; cbn [option_map].
  - apply find_some in E as [Hr' E]. apply andb_prop in E as [Hm' _].
    now rewrite (catalog_exclusive textContent r r' Hr Hr' Hm Hm').
  - pose proof (find_none _ _ E r Hr) as Hn. cbv beta in Hn. rewrite Hm in Hn.
    cbn in Hn. apply negb_false_iff, BlockType_eqb_eq in Hn. exact Hn.
Qed.

Lemma typeAfterAutoFormat_no_match (textContent : jsstring) (ty : BlockType) :
  (forall r, In r autoFormatPatterns -> Regex.test (pattern r) textContent = false) ->
  typeAfterAutoFormat textContent ty = ty.
Proof.
  intros Hn. unfold typeAfterAutoFormat, autoFormat.
  rewrite autoFormatLoop_retyping. unfold retypingRule.
  destruct (find _ autoFormatPatterns) as [r'|] eqn:E; [|reflexivity].
  apply find_some in E as [Hr' E]. rewrite (Hn r' Hr') in E. discriminate E.
Qed.

Lemma BlockType_eqb_same (a : BlockType) : negb (BlockType_eqb a a) = false.
Proof. now destruct a. Qed.

(** X1: the auto-format pass settles in one step.  Whatever the text and the
    type of the block, the pass never sets the type the block already has,
    only ever sets SceneHeading or Transition, and a second pass over the
    same text with the resulting type makes no change. *)
Theorem autoFormat_settles (textContent : jsstring) (ty : BlockType) :
  let ty' := typeAfterAutoFormat textContent ty in
  setNodesTo (autoFormat textContent (Some ty)) <> Some ty
  /\ (ty' = ty \/ ty' = SceneHeading \/ ty' = Transition)
  /\ setNodesTo (autoFormat textContent (Some ty')) = None
  /\ typeAfterAutoFormat textContent ty' = ty'.
Proof.
  cbn zeta.
  assert (Hstable : forall t, typeAfterAutoFormat textContent
                                 (typeAfterAutoFormat textContent t)
                               = typeAfterAutoFormat textContent t).
  { intros t.
    destruct (find (fun r => Regex.test (pattern r) textContent) autoFormatPatterns)
      as [r|] eqn:E.
    - apply find_some in E as [Hr Hm].
      now rewrite !(typeAfterAutoFormat_match textContent _ r Hr Hm).
    - rewrite !typeAfterAutoFormat_no_match; auto;
        intros r Hr; exact (find_none _ _ E r Hr). }
  assert (Hnone : forall t, typeAfterAutoFormat textContent t = t ->
                            setNodesTo (autoFormat textContent (Some t)) = None).
  { intros t Ht. unfold typeAfterAutoFormat in Ht. unfold autoFormat in *.
    rewrite autoFormatLoop_retyping in *. unfold retypingRule in *.
    destruct (find _ autoFormatPatterns) as [r|] eqn:E; [|reflexivity].
    cbn [option_map] in Ht. apply find_some in E as [_ E].
    apply andb_prop in E as [_ E]. rewrite <- Ht, BlockType_eqb_same in E.
    discriminate E. }
  repeat split.
  - unfold autoFormat. rewrite autoFormatLoop_retyping. unfold retypingRule.
    destruct (find _ autoFormatPatterns) as [r|] eqn:E; [|discriminate].
    cbn [option_map]. apply find_some in E as [_ E].
    apply andb_prop in E as [_ E]. intros [= Heq]. rewrite Heq, BlockType_eqb_same in E.
    discriminate E.
  - unfold typeAfterAutoFormat, autoFormat. rewrite autoFormatLoop_retyping.
    unfold retypingRule.
    destruct (find _ autoFormatPatterns) as [r|] eqn:E; [|now left].
    right. cbn [option_map]. apply find_some in E as [Hr _].
    rewrite autoFormatPatterns_atoms in Hr. cbn [In] in Hr.
    repeat (destruct Hr as [<-|Hr]; [cbn; auto|]). contradiction.
  - apply Hnone, Hstable.
  - apply Hstable.
Qed.

(** X2: a recognised prefix stays recognised.  Once a rule of the catalog
    matches the text of a block, it matches every text obtained by adding
    code units at the end; whatever is typed there, the pass keeps giving
    the block the type of that rule and never another one. *)
Theorem recognised_prefix_persists
    (r : AutoFormatRule) (s t : jsstring) (ty : BlockType)
    (Hrule : In r autoFormatPatterns)
    (Hmatch : Regex.test (pattern r) s = true) :
  Regex.test (pattern r) (s ++ t) = true
  /\ typeAfterAutoFormat (s ++ t) ty = type r
  /\ setNodesTo (autoFormat (s ++ t) (Some (type r))) = None.
Proof.
  assert (Hm : Regex.test (pattern r) (s ++ t) = true)
    by (apply matchAt_app; exact Hmatch).
  split; [exact Hm|]. split.
  - now apply typeAfterAutoFormat_match.
  - unfold autoFormat. rewrite autoFormatLoop_retyping. unfold retypingRule.
    destruct (find _ autoFormatPatterns) as [r'|] eqn:E; [|reflexivity].
    apply find_some in E as [Hr' E]. apply andb_prop in E as [Hm' E].
    rewrite (catalog_exclusive (s ++ t) r r' Hrule Hr' Hm Hm'), BlockType_eqb_same in E.
    discriminate E.
Qed.

Lemma recognised_prefix_witness :
  let r := mkRule (Regex.word "CUT" ++ [Regex.Space]) Transition in
  Regex.test (pattern r) (lit "cut " ++ lit "to:") = true
  /\ typeAfterAutoFormat (lit "cut " ++ lit "to:") Action = type r
  /\ setNodesTo (autoFormat (lit "cut " ++ lit "to:") (Some (type r))) = None.
Proof.
  cbn zeta.
  apply (recognised_prefix_persists
           (mkRule (Regex.word "CUT" ++ [Regex.Space]) Transition)
           (lit "cut ") (lit "to:") Action).
  - cbn. auto.
  - reflexivity.
Defined.

(** ** Letter case *)

Lemma isWhiteSpace_not_letter (c : N) :
  isWhiteSpace c = true -> (c < 65 \/ 122 < c)%N.
Proof.
  unfold isWhiteSpace. rewrite !orb_true_iff, !andb_true_iff, !N.eqb_eq, !N.leb_le.
  lia.
Qed.

Lemma isWhiteSpace_asciiFold (c : N) : isWhiteSpace (asciiFold c) = isWhiteSpace c.
Proof.
  unfold asciiFold.
  destruct ((97 <=? c) && (c <=? 122))%N eqn:E; [|reflexivity].
  apply andb_prop in E as [E1 E2]. apply N.leb_le in E1, E2.
  destruct (isWhiteSpace (c - 32)) eqn:W1.
  - apply isWhiteSpace_not_letter in W1. lia.
  - destruct (isWhiteSpace c) eqn:W2; [|reflexivity].
    apply isWhiteSpace_not_letter in W2. lia.
Qed.

Lemma letterMatches_asciiFold (u c : N) :
  (65 <= u <= 90)%N ->
  Regex.letterMatches u (asciiFold c) = Regex.letterMatches u c.
Proof.
  intros Hu. unfold Regex.letterMatches, asciiFold.
  destruct ((97 <=? c) && (c <=? 122))%N eqn:E; [|reflexivity].
  apply andb_prop in E as [E1 E2]. apply N.leb_le in E1, E2.
  destruct (N.eqb_spec (c - 32) u), (N.eqb_spec (c - 32) (u + 32)),
    (N.eqb_spec c u), (N.eqb_spec c (u + 32)); cbn; try reflexivity; lia.
Qed.

Lemma matchAt_asciiFold (p : list Regex.atom) :
  Forall caseless p ->
  forall s, Regex.matchAt p (map asciiFold s) = Regex.matchAt p s.
Proof.
  induction 1 as [|a p Ha _ IH]; intros s; [reflexivity|].
  destruct a as [u|d|]; cbn [Regex.matchAt caseless] in *;
    destruct s as [|c s]; cbn [map]; rewrite ?IH; try reflexivity.
  - now rewrite letterMatches_asciiFold.
  - f_equal; [|exact (IH (c :: s))]. f_equal.
    unfold asciiFold.
    destruct ((97 <=? c) && (c <=? 122))%N eqn:E; [|reflexivity].
    apply andb_prop in E as [E1 E2]. apply N.leb_le in E1, E2.
    destruct (N.eqb_spec (c - 32) d), (N.eqb_spec c d); try reflexivity; lia.
  - now rewrite isWhiteSpace_asciiFold.
Qed.

Lemma catalog_caseless (r : AutoFormatRule) :
  In r autoFormatPatterns -> Forall caseless (pattern r).
Proof.
  rewrite autoFormatPatterns_atoms. cbn [In].
  intros H. repeat (destruct H as [<-|H]; [cbn [pattern]; repeat constructor; cbn; lia|]).
  contradiction.
Qed.

(** X3: the patterns do not tell the case of ASCII letters apart.  Two texts
    that differ only in the case of ASCII letters are matched by the same
    rules, and the pass does the same on both. *)
Theorem autoFormat_ignores_case
    (s s' : jsstring) (element : option BlockType)
    (Hsame : map asciiFold s = map asciiFold s') :
  (forall r, In r autoFormatPatterns ->
             Regex.test (pattern r) s = Regex.test (pattern r) s')
  /\ autoFormat s element = autoFormat s' element.
Proof.
  assert (H : forall r, In r autoFormatPatterns ->
                        Regex.test (pattern r) s = Regex.test (pattern r) s').
  { intros r Hr. unfold Regex.test.
    rewrite <- (matchAt_asciiFold _ (catalog_caseless r Hr) s).
    rewrite <- (matchAt_asciiFold _ (catalog_caseless r Hr) s').
    now rewrite Hsame. }
  split; [exact H|]. now apply autoFormatLoop_ext.
Qed.

Lemma autoFormat_ignores_case_witness :
  autoFormat (lit "Ext. park") (Some Action) = autoFormat (lit "EXT. PARK") (Some Action).
Proof.
  exact (proj2 (autoFormat_ignores_case (lit "Ext. park") (lit "EXT. PARK")
                  (Some Action) eq_refl)).
Defined.

(** ** Typing into the document *)

Lemma setBlock_other (i j : nat) (v : Block) (l : list Block) :
  j <> i -> nth_error (SpecBuffer.setBlock i v l) j = nth_error l j.
Proof.
  revert i j. induction l as [|x l IH]; intros [|i] [|j] H; cbn; auto;
    contradiction.
Qed.

(** The overriding [insertText] on the document, for one character that
    is neither a newline nor a tab. *)
Lemma typing_a_character_buffer
    (c : N) (b : SpecBuffer.Buffer) (cur : SpecBuffer.Cursor) (blk : Block) :
  c <> 10%N /\ c <> 9%N ->
  SpecBuffer.cursor b = Some cur ->
  nth_error (SpecBuffer.blocks b) (SpecBuffer.block cur) = Some blk ->
  editor_insertText [c] b
  = SpecBuffer.mkBuffer
      (SpecBuffer.setBlock (SpecBuffer.block cur)
         (mkBlock (typeAfterAutoFormat (SpecBuffer.spliceText cur [c] (btext blk))
                     (btype blk))
                  (SpecBuffer.spliceText cur [c] (btext blk)))
         (SpecBuffer.blocks b))
      (Some (SpecBuffer.mkCursor (SpecBuffer.block cur) (SpecBuffer.offset cur + 1) 0)).
Proof.
  intros Hchar Hcursor Hblock.
  set (text' := SpecBuffer.spliceText cur [c] (btext blk)).
  unfold editor_insertText.
  assert (Hact : isActualText [c] = true).
  { unfold isActualText. cbn.
    destruct Hchar as [H10 H9].
    apply N.eqb_neq in H10, H9. now rewrite H10, H9. }
  rewrite Hact.
  cbn [insertText SpecBuffer.buffer]. unfold SpecBuffer.insertTextAtCursor.
  rewrite Hcursor, Hblock. fold text'.
  cbn [selectionCollapsed nodeText aboveType SpecBuffer.buffer].
  unfold SpecBuffer.currentBlock.
  cbn [SpecBuffer.cursor SpecBuffer.blocks SpecBuffer.block SpecBuffer.extent
       option_map Nat.eqb List.length].
  rewrite (SpecBufferFacts.setBlock_same _ _ _ _ Hblock).
  cbn [option_map btext btype].
  unfold typeAfterAutoFormat.
  destruct (setNodesTo (autoFormat text' (Some (btype blk)))) as [ty1|].
  - cbn [Transforms_setNodes SpecBuffer.buffer].
    unfold SpecBuffer.setCurrentBlockType.
    cbn [SpecBuffer.cursor SpecBuffer.blocks SpecBuffer.block].
    rewrite (SpecBufferFacts.setBlock_same _ _ _ _ Hblock).
    cbn [btext]. now rewrite SpecBufferFacts.setBlock_setBlock.
  - reflexivity.
Qed.

(** X4: typing one character that is neither a newline nor a tab changes
    the block of the cursor and nothing else: the character replaces what is
    selected (it is inserted at a collapsed cursor), the cursor ends up
    collapsed behind it, and the type of the block becomes the type the
    auto-format pass gives to the new text; every other block is as it
    was. *)
Theorem typing_a_character
    (c : N) (b : SpecBuffer.Buffer) (cur : SpecBuffer.Cursor) (blk : Block)
    (Hchar : c <> 10%N /\ c <> 9%N)
    (Hcursor : SpecBuffer.cursor b = Some cur)
    (Hblock : nth_error (SpecBuffer.blocks b) (SpecBuffer.block cur) = Some blk) :
  let text' := SpecBuffer.spliceText cur [c] (btext blk) in
  editor_insertText [c] b
  = SpecBuffer.mkBuffer
      (SpecBuffer.setBlock (SpecBuffer.block cur)
         (mkBlock (typeAfterAutoFormat text' (btype blk)) text')
         (SpecBuffer.blocks b))
      (Some (SpecBuffer.mkCursor (SpecBuffer.block cur) (SpecBuffer.offset cur + 1) 0))
  /\ forall j, j <> SpecBuffer.block cur ->
       nth_error (SpecBuffer.blocks (editor_insertText [c] b)) j
       = nth_error (SpecBuffer.blocks b) j.
Proof.
  cbn zeta.
  pose proof (typing_a_character_buffer c b cur blk Hchar Hcursor Hblock) as E.
  split; [exact E|].
  intros j Hj. rewrite E. cbn [SpecBuffer.blocks].
  now apply setBlock_other.
Qed.

Lemma typing_a_character_witness :
  let b := SpecBuffer.mkBuffer [mkBlock Action (lit "INT"); mkBlock Action (lit "x")]
             (Some (SpecBuffer.mkCursor 0 3 0)) in
  editor_insertText [32%N] b
  = SpecBuffer.mkBuffer [mkBlock SceneHeading (lit "INT "); mkBlock Action (lit "x")]
      (Some (SpecBuffer.mkCursor 0 4 0)).
Proof.
  cbn zeta.
  exact (proj1 (typing_a_character 32%N
    (SpecBuffer.mkBuffer [mkBlock Action (lit "INT"); mkBlock Action (lit "x")]
       (Some (SpecBuffer.mkCursor 0 3 0)))
    (SpecBuffer.mkCursor 0 3 0) (mkBlock Action (lit "INT"))
    (conj (proj1 (N.eqb_neq 32 10) eq_refl) (proj1 (N.eqb_neq 32 9) eq_refl))
    eq_refl eq_refl)).
Defined.

(** ** The palette and the catalog *)

(** Enter in the open palette, for each index of the catalog. *)
Lemma palette_confirm_state {B : Type} {TB : TextBuffer B}
    (e : B) (pos : Position) (d : Dom) (i : Z) :
  0 <= i < 16 ->
  exists (c : Command) (ty : BlockType),
    nth_error commands (Z.to_nat i) = Some c
    /\ lookup (id c) elementMap = Some ty
    /\ keydown (mkKeyEvent (lit "Enter") d) (mkState e (mkUi true pos i))
       = Some (mkOutcome
                 (mkState
                    (Transforms_move
                       (Transforms_insertNodes (emptyElement ty) (Transforms_delete e)))
                    (mkUi false pos 0))
                 true).
Proof.
  intros Hrange.
  assert (Hn : exists n, i = Z.of_nat n /\ (n < 16)%nat)
    by (exists (Z.to_nat i); lia).
  destruct Hn as [n [-> Hn]].
  do 16 (destruct n as [|n]; [eexists; eexists; repeat split|]).
  lia.
Qed.

(** X5: confirming a command.  With the palette open on an index of the
    catalog, Enter never falls back on the default of [elementMap]: the
    selected command has an entry there, and the entry is never Paragraph.
    The handler deletes one character backwards, inserts one empty element
    of the mapped type, moves the cursor, closes the palette and puts the
    selection back to 0, the default action of the key being prevented.
    Clicking the same command leaves exactly the same state. *)
Theorem palette_confirm {B : Type} {TB : TextBuffer B}
    (e : B) (pos : Position) (d : Dom) (i : Z) (Hrange : 0 <= i < 16) :
  exists (c : Command) (ty : BlockType),
    nth_error commands (Z.to_nat i) = Some c
    /\ lookup (id c) elementMap = Some ty
    /\ ty <> Paragraph
    /\ keydown (mkKeyEvent (lit "Enter") d) (mkState e (mkUi true pos i))
       = Some (mkOutcome
                 (mkState
                    (Transforms_move
                       (Transforms_insertNodes (emptyElement ty) (Transforms_delete e)))
                    (mkUi false pos 0))
                 true)
    /\ clickCommand c (mkState e (mkUi true pos i))
       = mkState
           (Transforms_move
              (Transforms_insertNodes (emptyElement ty) (Transforms_delete e)))
           (mkUi false pos 0).
Proof.
  assert (Hn : exists n, i = Z.of_nat n /\ (n < 16)%nat)
    by (exists (Z.to_nat i); lia).
  destruct Hn as [n [-> Hn]].
  do 16 (destruct n as [|n];
         [eexists; eexists; repeat split; try reflexivity; discriminate|]).
  lia.
Qed.

Lemma palette_confirm_witness :
  let e := SpecBuffer.mkBuffer [mkBlock Action (lit "/")]
             (Some (SpecBuffer.mkCursor 0 1 0)) in
  exists (c : Command) (ty : BlockType),
    nth_error commands 15 = Some c
    /\ lookup (id c) elementMap = Some ty
    /\ ty <> Paragraph
    /\ keydown (mkKeyEvent (lit "Enter") (mkDom None 0 0))
         (mkState e (mkUi true (mkPosition 0 0) 15))
       = Some (mkOutcome
                 (mkState
                    (Transforms_move
                       (Transforms_insertNodes (emptyElement ty) (Transforms_delete e)))
                    (mkUi false (mkPosition 0 0) 0))
                 true)
    /\ clickCommand c (mkState e (mkUi true (mkPosition 0 0) 15))
       = mkState
           (Transforms_move
              (Transforms_insertNodes (emptyElement ty) (Transforms_delete e)))
           (mkUi false (mkPosition 0 0) 0).
Proof.
  cbn zeta.
  exact (palette_confirm
           (SpecBuffer.mkBuffer [mkBlock Action (lit "/")]
              (Some (SpecBuffer.mkCursor 0 1 0)))
           (mkPosition 0 0) (mkDom None 0 0) 15 (conj (Zle_0_pos 15) eq_refl)).
Defined.

Ltac settle_palette :=
  eexists; split; [reflexivity|]; unfold paletteInvariant;
  change commands_length with 16; cbn;
  repeat split; intros; (lia || discriminate).

(** X6: the states of the palette.  From a state in which the selection is
    an index of the catalog, and is 0 while the palette is closed, every
    [keydown] event, whatever its key, is handled without an exception and
    leads to such a state again, and so does a click on a command.  In
    particular a palette that opens always opens on index 0. *)
Theorem palette_states_are_kept {B : Type} {TB : TextBuffer B}
    (event : KeyEvent) (s : State B) (Hinv : paletteInvariant (ui s)) :
  (exists o,
      keydown event s = Some o
      /\ paletteInvariant (ui (state o))
      /\ (showCommandPalette (ui s) = false ->
          showCommandPalette (ui (state o)) = true ->
          selectedIndex (ui (state o)) = 0))
  /\ forall c, paletteInvariant (ui (clickCommand c s)).
Proof.
  destruct s as [e [sh pos i]]. destruct Hinv as [Hr Hz]. cbn in Hr, Hz.
  change commands_length with 16 in Hr.
  assert (Hmod : forall j, 0 <= Z.rem j 16 < 16 \/ j < 0).
  { intros j. destruct (Z.ltb_spec j 0); [now right|left].
    rewrite Z.rem_mod_nonneg by lia. apply Z.mod_pos_bound. lia. }
  split.
  - unfold keydown, handleKeyDown, CommandPalette_handleKeyDown.
    cbn [ui showCommandPalette selectedIndex editor].
    destruct sh; cbn [negb].
    + destruct (keyIs event "ArrowDown"); [|destruct (keyIs event "ArrowUp")].
      * eexists; split; [reflexivity|]. unfold paletteInvariant.
        change commands_length with 16. cbn.
        destruct (Hmod (i + 1)); repeat split; intros; (lia || discriminate).
      * eexists; split; [reflexivity|]. unfold paletteInvariant.
        change commands_length with 16. cbn.
        destruct (Hmod (i - 1 + 16)); repeat split; intros; (lia || discriminate).
      * destruct (keyIs event "Enter"); [|destruct (keyIs event "Escape")].
        -- destruct (Z.ltb_spec i 0) as [Hneg|_]; [lia|].
           destruct (nth_error commands (Z.to_nat i)) as [c|] eqn:E.
           ++ eexists; split; [reflexivity|]. unfold paletteInvariant.
              change commands_length with 16. cbn.
              repeat split; intros; (lia || discriminate).
           ++ apply nth_error_None in E.
              change (List.length commands) with 16%nat in E. lia.
        -- eexists; split; [reflexivity|]. unfold paletteInvariant.
           change commands_length with 16. cbn.
           repeat split; intros; (lia || discriminate).
        -- eexists; split; [reflexivity|]. unfold paletteInvariant.
           change commands_length with 16. cbn.
           repeat split; intros; (lia || discriminate).
    + specialize (Hz eq_refl). subst i.
      destruct (keyIs event "/").
      * destruct (rangeRect (dom event)) as [[bottom lft]|]; settle_palette.
      * destruct (keyIs event "Enter"); [|destruct (keyIs event "Tab")].
        -- destruct (selectionCollapsed e) as [[|]|];
             try destruct (aboveType e); settle_palette.
        -- destruct (selectionCollapsed e) as [[|]|]; settle_palette.
        -- destruct (keyIs event "Escape"); settle_palette.
  - intros c. unfold clickCommand, handleCommandSelect, resetSelectionEffect.
    cbn [ui editor showCommandPalette setShowCommandPalette].
    unfold paletteInvariant. change commands_length with 16.
    destruct sh; cbn; repeat split; intros; lia.
Qed.

Lemma palette_states_witness :
  let s := mkState (SpecBuffer.mkBuffer [mkBlock Action (lit "ab")]
                      (Some (SpecBuffer.mkCursor 0 2 0)))
                   (mkUi false (mkPosition 0 0) 0) in
  exists o,
    keydown (mkKeyEvent (lit "/") (mkDom None 0 0)) s = Some o
    /\ paletteInvariant (ui (state o))
    /\ (showCommandPalette (ui s) = false ->
        showCommandPalette (ui (state o)) = true ->
        selectedIndex (ui (state o)) = 0).
Proof.
  cbn zeta.
  exact (proj1 (palette_states_are_kept (mkKeyEvent (lit "/") (mkDom None 0 0))
    (mkState (SpecBuffer.mkBuffer [mkBlock Action (lit "ab")]
                (Some (SpecBuffer.mkCursor 0 2 0)))
             (mkUi false (mkPosition 0 0) 0))
    (conj (conj (Z.le_refl 0) eq_refl) (fun _ => eq_refl)))).
Defined.

(** ** The Editing state *)

(** X7: what the key handlers leave alone.  With the palette closed, a key
    other than [/], Enter and Tab (Escape included) changes nothing and
    keeps its default action.  Enter does the same when the selection is
    missing or not collapsed, or when no element encloses it.  Tab with such
    a selection changes nothing either, but its default action is
    prevented. *)
Theorem editing_keys_left_alone {B : Type} {TB : TextBuffer B}
    (s : State B) (Hediting : showCommandPalette (ui s) = false) :
  (forall event : KeyEvent,
      keyIs event "/" = false -> keyIs event "Enter" = false ->
      keyIs event "Tab" = false ->
      keydown event s = Some (mkOutcome s false))
  /\ (forall d : Dom,
        selectionCollapsed (editor s) <> Some true \/ aboveType (editor s) = None ->
        keydown (mkKeyEvent (lit "Enter") d) s = Some (mkOutcome s false))
  /\ (forall d : Dom,
        selectionCollapsed (editor s) <> Some true ->
        keydown (mkKeyEvent (lit "Tab") d) s = Some (mkOutcome s true)).
Proof.
  destruct s as [e [sh pos i]]. cbn in Hediting. subst sh.
  split; [|split].
  - intros event H1 H2 H3. unfold keydown, handleKeyDown.
    cbn [ui showCommandPalette]. rewrite H1, H2, H3.
    destruct (keyIs event "Escape"); reflexivity.
  - intros d H. cbn [editor] in H. unfold keydown, handleKeyDown. cbn.
    destruct (selectionCollapsed e) as [[|]|]; try reflexivity.
    destruct H as [H|H]; [exfalso; apply H; reflexivity|]. now rewrite H.
  - intros d H. cbn [editor] in H. rewrite (handleKeyDown_Tab d e (mkUi false pos i) eq_refl).
    destruct (selectionCollapsed e) as [[|]|]; try reflexivity.
    exfalso. apply H. reflexivity.
Qed.

Lemma editing_keys_witness :
  let s := mkState (SpecBuffer.mkBuffer [mkBlock Action (lit "ab")]
                      (Some (SpecBuffer.mkCursor 0 0 2)))
                   (mkUi false (mkPosition 0 0) 0) in
  keydown (mkKeyEvent (lit "Escape") (mkDom None 0 0)) s = Some (mkOutcome s false)
  /\ keydown (mkKeyEvent (lit "Enter") (mkDom None 0 0)) s = Some (mkOutcome s false).
Proof.
  cbn zeta.
  pose proof (editing_keys_left_alone
    (mkState (SpecBuffer.mkBuffer [mkBlock Action (lit "ab")]
                (Some (SpecBuffer.mkCursor 0 0 2)))
             (mkUi false (mkPosition 0 0) 0)) eq_refl) as [H1 [H2 _]].
  split.
  - exact (H1 (mkKeyEvent (lit "Escape") (mkDom None 0 0)) eq_refl eq_refl eq_refl).
  - apply H2. left. discriminate.
Defined.

(** ** A slash command, from the slash to the new block *)

Lemma firstn_setBlock (i : nat) (v blk : Block) (l : list Block) :
  nth_error l i = Some blk ->
  firstn i (SpecBuffer.setBlock i v l) = firstn i l
  /\ skipn (S i) (SpecBuffer.setBlock i v l) = skipn (S i) l.
Proof.
  revert i. induction l as [|x l IH]; intros [|i] H; cbn in H; try discriminate.
  - split; reflexivity.
  - destruct (IH i H) as [E1 E2]. split.
    + cbn [SpecBuffer.setBlock firstn]. now rewrite E1.
    + cbn [SpecBuffer.setBlock skipn]. cbn [skipn] in E2. exact E2.
Qed.

(** One code unit put at a position and taken out again. *)
Lemma put_and_take (t : jsstring) (off : nat) (x : N) :
  (off <= List.length t)%nat ->
  firstn off (firstn off t ++ [x] ++ skipn off t)
  ++ skipn (S off) (firstn off t ++ [x] ++ skipn off t) = t.
Proof.
  intros H.
  assert (Hlen : List.length (firstn off t) = off) by now apply firstn_length_le.
  rewrite firstn_app, Hlen, Nat.sub_diag, firstn_O, app_nil_r.
  rewrite firstn_firstn, Nat.min_id.
  rewrite skipn_app, Hlen. replace (S off - off)%nat with 1%nat by lia.
  rewrite skipn_all2 by lia. cbn [app skipn]. apply firstn_skipn.
Qed.

(** [Transforms.move] from an empty block: the cursor goes to the start of
    the block that follows, if there is one. *)
Lemma move_from_empty_block (pre post : list Block) (new : Block) :
  btext new = [] ->
  Transforms_move
    (SpecBuffer.mkBuffer (pre ++ new :: post)
       (Some (SpecBuffer.mkCursor (List.length pre) 0 0)))
  = SpecBuffer.mkBuffer (pre ++ new :: post)
      (Some match post with
            | [] => SpecBuffer.mkCursor (List.length pre) 0 0
            | _ :: _ => SpecBuffer.mkCursor (S (List.length pre)) 0 0
            end).
Proof.
  intros Hnew. cbn [Transforms_move SpecBuffer.buffer]. unfold SpecBuffer.moveCursor.
  cbn [SpecBuffer.cursor SpecBuffer.blocks SpecBuffer.block SpecBuffer.offset
       SpecBuffer.extent].
  rewrite nth_error_app2, Nat.sub_diag by lia. cbn [nth_error].
  rewrite Hnew. cbn [List.length Nat.add]. change (0 <? 0)%nat with false.
  cbn [Nat.eqb]. rewrite length_app.
  destruct post as [|p post]; cbn [List.length].
  - destruct (Nat.ltb_spec (S (List.length pre)) (List.length pre + 1)) as [H|H];
      [lia|reflexivity].
  - destruct (Nat.ltb_spec (S (List.length pre))
                (List.length pre + S (S (List.length post)))) as [H|H];
      [reflexivity|lia].
Qed.

(** X8: a slash command as a whole.  In the Editing state, with a collapsed
    cursor in the text of a block (a text of code units below U+0300, in
    which a character of the editor is one code unit) and the palette
    selection on an index of the catalog, typing [/] and confirming with
    Enter takes the slash out again and puts one empty block of the type
    mapped to the selected command where the slash was typed: after the
    block at the end of its text, before it at the start of a text that is
    not empty, and otherwise between the two parts of the block, which is
    split there.  The texts of the blocks, read in order, are what they were
    before the slash.  The cursor does not stay in the new block when a
    block follows it: [Transforms.move] takes it to the start of that
    block.  The palette is closed again with its selection back at 0, and
    the block of the cursor has the type the auto-format pass gave it when
    the slash was in its text. *)
Theorem slash_command_round_trip
    (b : SpecBuffer.Buffer) (u : Ui) (d : Dom)
    (cur : SpecBuffer.Cursor) (blk : Block)
    (Hediting : showCommandPalette u = false)
    (Hindex : 0 <= selectedIndex u < 16)
    (Hcursor : SpecBuffer.cursor b = Some cur)
    (Hcollapsed : SpecBuffer.extent cur = 0%nat)
    (Hblock : nth_error (SpecBuffer.blocks b) (SpecBuffer.block cur) = Some blk)
    (Hoffset : (SpecBuffer.offset cur <= List.length (btext blk))%nat)
    (Hplain : forallb (fun c => (c <? 768)%N) (btext blk) = true) :
  let i := SpecBuffer.block cur in
  let off := SpecBuffer.offset cur in
  let t := btext blk in
  let before := firstn i (SpecBuffer.blocks b) in
  let after := skipn (S i) (SpecBuffer.blocks b) in
  exists s1 c ty ty1 s2,
    pressCharacter 47%N d (mkState b u) = Some s1
    /\ nth_error commands (Z.to_nat (selectedIndex u)) = Some c
    /\ lookup (id c) elementMap = Some ty
    /\ keydown (mkKeyEvent (lit "Enter") d) s1 = Some (mkOutcome s2 true)
    /\ showCommandPalette (ui s2) = false /\ selectedIndex (ui s2) = 0
    /\ editor s2
       = (if (List.length t <=? off)%nat
          then SpecBuffer.mkBuffer
                 (before ++ mkBlock ty1 t :: mkBlock ty [] :: after)
                 (Some match after with
                       | [] => SpecBuffer.mkCursor (S i) 0 0
                       | _ :: _ => SpecBuffer.mkCursor (S (S i)) 0 0
                       end)
          else if (off =? 0)%nat
          then SpecBuffer.mkBuffer
                 (before ++ mkBlock ty [] :: mkBlock ty1 t :: after)
                 (Some (SpecBuffer.mkCursor (S i) 0 0))
          else SpecBuffer.mkBuffer
                 (before ++ mkBlock ty1 (firstn off t) :: mkBlock ty []
                  :: mkBlock ty1 (skipn off t) :: after)
                 (Some (SpecBuffer.mkCursor (S (S i)) 0 0)))
    /\ flat_map btext (SpecBuffer.blocks (editor s2))
       = flat_map btext (SpecBuffer.blocks b).
Proof.
  cbn zeta.
  destruct (handleKeyDown_slash d b u Hediting) as [pos Hk].
  unfold pressCharacter. rewrite Hk. cbn [defaultPrevented state editor ui].
  assert (Hchar : (47 <> 10 /\ 47 <> 9)%N) by (split; discriminate).
  rewrite (typing_a_character_buffer 47%N b cur blk Hchar Hcursor Hblock).
  set (text' := SpecBuffer.spliceText cur [47%N] (btext blk)).
  set (ty1 := typeAfterAutoFormat text' (btype blk)).
  destruct (palette_confirm_state
              (SpecBuffer.mkBuffer
                 (SpecBuffer.setBlock (SpecBuffer.block cur) (mkBlock ty1 text')
                    (SpecBuffer.blocks b))
                 (Some (SpecBuffer.mkCursor (SpecBuffer.block cur)
                          (SpecBuffer.offset cur + 1) 0)))
              pos d (selectedIndex u) Hindex)
    as [c [ty [Hc [Hty Hkey]]]].
  eexists. exists c, ty, ty1. eexists.
  split; [reflexivity|]. split; [exact Hc|]. split; [exact Hty|].
  split; [exact Hkey|]. split; [reflexivity|]. split; [reflexivity|].
  cbn [editor].
  (* the backward delete takes the slash out *)
  assert (Hdel :
    Transforms_delete
      (SpecBuffer.mkBuffer
         (SpecBuffer.setBlock (SpecBuffer.block cur) (mkBlock ty1 text')
            (SpecBuffer.blocks b))
         (Some (SpecBuffer.mkCursor (SpecBuffer.block cur)
                  (SpecBuffer.offset cur + 1) 0)))
    = SpecBuffer.mkBuffer
        (SpecBuffer.setBlock (SpecBuffer.block cur) (mkBlock ty1 (btext blk))
           (SpecBuffer.blocks b))
        (Some (SpecBuffer.mkCursor (SpecBuffer.block cur) (SpecBuffer.offset cur) 0))).
  { cbn [Transforms_delete SpecBuffer.buffer]. unfold SpecBuffer.deleteBackward.
    cbn [SpecBuffer.cursor SpecBuffer.blocks SpecBuffer.block SpecBuffer.extent
         SpecBuffer.offset Nat.eqb negb].
    rewrite (SpecBufferFacts.setBlock_same _ _ _ _ Hblock).
    replace (SpecBuffer.offset cur + 1)%nat with (S (SpecBuffer.offset cur)) by lia.
    cbn [btype btext]. rewrite SpecBufferFacts.setBlock_setBlock.
    subst text'. unfold SpecBuffer.spliceText. rewrite Hcollapsed, Nat.add_0_r.
    now rewrite (put_and_take (btext blk) (SpecBuffer.offset cur) 47%N Hoffset). }
  rewrite Hdel.
  destruct (firstn_setBlock (SpecBuffer.block cur) (mkBlock ty1 (btext blk)) blk
              (SpecBuffer.blocks b) Hblock) as [F1 F2].
  assert (Hlen : List.length (firstn (SpecBuffer.block cur) (SpecBuffer.blocks b))
                 = SpecBuffer.block cur).
  { apply firstn_length_le, Nat.lt_le_incl, nth_error_Some. congruence. }
  rewrite (EditingFacts.insertNodes_collapsed (emptyElement ty)
             (SpecBuffer.mkBuffer
                (SpecBuffer.setBlock (SpecBuffer.block cur) (mkBlock ty1 (btext blk))
                   (SpecBuffer.blocks b))
                (Some (SpecBuffer.mkCursor (SpecBuffer.block cur)
                         (SpecBuffer.offset cur) 0)))
             (SpecBuffer.mkCursor (SpecBuffer.block cur) (SpecBuffer.offset cur) 0)
             (mkBlock ty1 (btext blk)) eq_refl eq_refl
             (SpecBufferFacts.setBlock_same _ _ _ _ Hblock)).
  unfold emptyElement.
  cbn [SpecBuffer.blocks SpecBuffer.block SpecBuffer.offset btext btype List.length].
  rewrite F1, F2.
  assert (R : flat_map btext (SpecBuffer.blocks b)
              = flat_map btext (firstn (SpecBuffer.block cur) (SpecBuffer.blocks b))
                ++ btext blk
                ++ flat_map btext (skipn (S (SpecBuffer.block cur)) (SpecBuffer.blocks b))).
  { rewrite (EditingFacts.split_at_nth _ _ _ Hblock) at 1.
    rewrite flat_map_app. reflexivity. }
  destruct (List.length (btext blk) <=? SpecBuffer.offset cur)%nat;
    [|destruct (SpecBuffer.offset cur =? 0)%nat]; cbv iota.
  - pose proof (move_from_empty_block
                  (firstn (SpecBuffer.block cur) (SpecBuffer.blocks b)
                   ++ [mkBlock ty1 (btext blk)])
                  (skipn (S (SpecBuffer.block cur)) (SpecBuffer.blocks b))
                  (mkBlock ty []) eq_refl) as Hm.
    rewrite length_app, Hlen in Hm. cbn [List.length] in Hm.
    replace (SpecBuffer.block cur + 1)%nat with (S (SpecBuffer.block cur)) in Hm by lia.
    rewrite <- app_assoc in Hm. cbn [app] in Hm. rewrite Hm.
    split; [reflexivity|].
    cbn [SpecBuffer.blocks]. rewrite R, !flat_map_app. reflexivity.
  - pose proof (move_from_empty_block
                  (firstn (SpecBuffer.block cur) (SpecBuffer.blocks b))
                  (mkBlock ty1 (btext blk)
                   :: skipn (S (SpecBuffer.block cur)) (SpecBuffer.blocks b))
                  (mkBlock ty []) eq_refl) as Hm.
    rewrite Hlen in Hm. rewrite Hm.
    split; [reflexivity|].
    cbn [SpecBuffer.blocks]. rewrite R, !flat_map_app. reflexivity.
  - pose proof (move_from_empty_block
                  (firstn (SpecBuffer.block cur) (SpecBuffer.blocks b)
                   ++ [mkBlock ty1 (firstn (SpecBuffer.offset cur) (btext blk))])
                  (mkBlock ty1 (skipn (SpecBuffer.offset cur) (btext blk))
                   :: skipn (S (SpecBuffer.block cur)) (SpecBuffer.blocks b))
                  (mkBlock ty []) eq_refl) as Hm.
    rewrite length_app, Hlen in Hm. cbn [List.length] in Hm.
    replace (SpecBuffer.block cur + 1)%nat with (S (SpecBuffer.block cur)) in Hm by lia.
    rewrite <- app_assoc in Hm. cbn [app] in Hm. rewrite Hm.
    split; [reflexivity|].
    cbn [SpecBuffer.blocks]. rewrite R, !flat_map_app. cbn [flat_map btext app].
    f_equal. now rewrite app_assoc, firstn_skipn.
Qed.

Lemma slash_command_witness :
  let b := SpecBuffer.mkBuffer [mkBlock Action (lit "ab"); mkBlock Dialogue (lit "c")]
             (Some (SpecBuffer.mkCursor 0 1 0)) in
  let u := mkUi false (mkPosition 0 0) 0 in
  let d := mkDom None 0 0 in
  exists s1 c ty ty1 s2,
    pressCharacter 47%N d (mkState b u) = Some s1
    /\ nth_error commands 0 = Some c
    /\ lookup (id c) elementMap = Some ty
    /\ keydown (mkKeyEvent (lit "Enter") d) s1 = Some (mkOutcome s2 true)
    /\ showCommandPalette (ui s2) = false /\ selectedIndex (ui s2) = 0
    /\ editor s2
       = SpecBuffer.mkBuffer
           [mkBlock ty1 (lit "a"); mkBlock ty []; mkBlock ty1 (lit "b");
            mkBlock Dialogue (lit "c")]
           (Some (SpecBuffer.mkCursor 2 0 0))
    /\ flat_map btext (SpecBuffer.blocks (editor s2)) = lit "abc".
Proof.
  cbn zeta.
  exact (slash_command_round_trip
    (SpecBuffer.mkBuffer [mkBlock Action (lit "ab"); mkBlock Dialogue (lit "c")]
       (Some (SpecBuffer.mkCursor 0 1 0)))
    (mkUi false (mkPosition 0 0) 0) (mkDom None 0 0)
    (SpecBuffer.mkCursor 0 1 0) (mkBlock Action (lit "ab"))
    eq_refl (conj (Z.le_refl 0) eq_refl) eq_refl eq_refl eq_refl
    (le_S 1 1 (le_n 1)) eq_refl).
Defined.

(** ** Flattening the document into lines *)

Lemma splitNewline_no_newline (s : jsstring) :
  Forall (fun line => ~ In 10%N line) (splitNewline s).
Proof.
  induction s as [|c s IH]; cbn [splitNewline].
  - constructor; [intros []|constructor].
  - destruct (N.eqb_spec c 10) as [->|Hc].
    + constructor; [intros []|exact IH].
    + destruct (splitNewline s) as [|l ls].
      * constructor; [|constructor]. intros [H|[]]. congruence.
      * inversion IH as [|? ? Hl Hls]; subst. constructor; [|exact Hls].
        intros [H|H]; [congruence|contradiction].
Qed.

Lemma trimStart_nonblank (s : jsstring) :
  trimStart s <> [] -> existsb (fun c => negb (isWhiteSpace c)) s = true.
Proof.
  induction s as [|c s IH]; cbn [trimStart existsb]; [congruence|].
  destruct (isWhiteSpace c); cbn; auto.
Qed.

Lemma trim_nonblank (s : jsstring) :
  truthy (trim s) = true -> existsb (fun c => negb (isWhiteSpace c)) s = true.
Proof.
  intros H. apply trimStart_nonblank. intros E. unfold trim in H.
  rewrite E in H. discriminate H.
Qed.

Lemma linesOfText_wellFormed (ty : option BlockType) (s : jsstring) :
  Forall wellFormedLine (Pdf.linesOfText ty s).
Proof.
  unfold Pdf.linesOfText.
  pose proof (splitNewline_no_newline s) as Hs.
  induction Hs as [|line ls Hline _ IH]; [constructor|].
  cbn [flat_map]. apply Forall_app. split; [|exact IH].
  destruct (truthy (trim line)) eqn:E; [|constructor].
  constructor; [|constructor].
  repeat split; cbn.
  - now destruct ty as [[]|].
  - now destruct ty as [[]|].
  - exact Hline.
  - now apply trim_nonblank.
Qed.

(** Induction on a node with the property known of its children. *)
Lemma Node_children_ind (P : Pdf.Node -> Prop) :
  (forall ty tx ch,
      match ch with Some cs => Forall P cs | None => True end ->
      P (Pdf.mkNode ty tx ch)) ->
  forall n, P n.
Proof.
  intros H. fix IH 1. intros [ty tx ch]. apply H.
  destruct ch as [cs|]; [|exact I].
  induction cs as [|c cs IHcs]; constructor; [apply IH|exact IHcs].
Qed.

Lemma processNode_wellFormed (node : Pdf.Node) :
  forall inherited, Forall wellFormedLine (Pdf.processNode inherited node).
Proof.
  induction node as [ty tx ch Hch] using Node_children_ind. intros inherited.
  cbn [Pdf.processNode]. apply Forall_app. split.
  - destruct tx as [s|]; [apply linesOfText_wellFormed|constructor].
  - destruct ch as [cs|]; [|constructor].
    induction Hch as [|c cs Hc _ IH]; [constructor|].
    cbn [flat_map]. apply Forall_app. split; [apply Hc|exact IH].
Qed.

(** X9: the lines the export works on.  For every editor value, each line
    produced by [formatContentForPDF] has size 12, is bold exactly when its
    type is Character, SceneHeading or Transition, contains no newline and
    has at least one code unit that is not white space. *)
Theorem formatContentForPDF_lines (content : list Pdf.Node) :
  Forall wellFormedLine (Pdf.formatContentForPDF content).
Proof.
  unfold Pdf.formatContentForPDF.
  induction content as [|node content IH]; [constructor|].
  cbn [flat_map]. apply Forall_app. split; [apply processNode_wellFormed|exact IH].
Qed.

(** ** What ends up on the pages *)

Section PageFilling.
Import Pdf.

Variable widthOfTextAtSize : Font -> jsstring -> Z -> option Q.
Variable drawable : Font -> jsstring -> bool.
Variable toUpperCase : jsstring -> jsstring.
Variable g : Geometry.

(** The text of the draws, page after page, is the text of the lines. *)
Lemma layout_texts (lines : list PageLine) :
  forall (yPosition : Z) (currentPage : Page) (pages : list Page),
    layout widthOfTextAtSize drawable toUpperCase g lines yPosition currentPage
    = Some pages ->
    map drawn (List.concat pages) = map drawn currentPage ++ map text lines.
Proof.
  induction lines as [|line lines IH]; intros yPosition currentPage pages E.
  - cbn in E. inversion E. cbn. now rewrite !app_nil_r.
  - apply layout_step in E.
    destruct (yPosition - lineHeight g <? marginBottom g).
    + destruct E as [dr [rest [Hdr [E ->]]]].
      pose proof (drawLine_outcome widthOfTextAtSize drawable toUpperCase g line
                    (pageHeight g - marginTop g)) as Hd.
      rewrite Hdr in Hd. destruct Hd as [_ [Htext _]].
      cbn [List.concat]. rewrite map_app, (IH _ _ _ E). cbn [map]. now rewrite Htext.
    + destruct E as [dr [Hdr E]].
      pose proof (drawLine_outcome widthOfTextAtSize drawable toUpperCase g line
                    yPosition) as Hd.
      rewrite Hdr in Hd. destruct Hd as [_ [Htext _]].
      rewrite (IH _ _ _ E), map_app, <- app_assoc. cbn [map app]. now rewrite Htext.
Qed.

Hypothesis line_positive : 0 < lineHeight g.
Hypothesis line_fits : lineHeight g <= pageHeight g - marginTop g - marginBottom g.

(** A draw that sits on one of the line positions of a page. *)
Let onLinePosition (dr : Draw) : Prop :=
  exists k : nat,
    (k < Z.to_nat (maxLinesPerPage g))%nat
    /\ y dr = pageHeight g - marginTop g - Z.of_nat k * lineHeight g.

Lemma layout_pages (lines : list PageLine) :
  forall (j : nat) (currentPage : Page) (pages : list Page),
    (j <= (Z.to_nat (maxLinesPerPage g)))%nat -> List.length currentPage = j ->
    Forall onLinePosition currentPage ->
    layout widthOfTextAtSize drawable toUpperCase g lines
      (pageHeight g - marginTop g - Z.of_nat j * lineHeight g) currentPage
    = Some pages ->
    Forall (fun p => (List.length p <= (Z.to_nat (maxLinesPerPage g)))%nat
                     /\ Forall onLinePosition p) pages
    /\ Forall (fun p => List.length p = (Z.to_nat (maxLinesPerPage g)))
         (removelast pages).
Proof.
  pose proof (per_positive g line_positive line_fits) as Hper.
  induction lines as [|line lines IH]; intros j currentPage pages Hj Hlen Hcur E.
  - cbn in E. inversion E.
    split; [|constructor]. constructor; [|constructor]. split; [lia|exact Hcur].
  - apply layout_step in E.
    rewrite (break_iff_full g line_positive line_fits) in E.
    destruct (Nat.leb_spec (Z.to_nat (maxLinesPerPage g)) j) as [Hfull|Hroom].
    + destruct E as [dr [rest [Hdr [E ->]]]].
      pose proof (drawLine_outcome widthOfTextAtSize drawable toUpperCase g line
                    (pageHeight g - marginTop g)) as Hd.
      rewrite Hdr in Hd. destruct Hd as [_ [_ [Hy _]]].
      rewrite (cursorAfter_1 g) in E.
      destruct (IH 1%nat [dr] rest Hper eq_refl) as [H1 H2]; [|exact E|].
      { constructor; [|constructor]. exists 0%nat. split; [lia|]. rewrite Hy. lia. }
      split.
      * constructor; [split; [lia|exact Hcur]|exact H1].
      * destruct (layout_prefix _ _ _ _ _ _ _ _ E) as [more [rest' ->]].
        cbn [removelast]. constructor; [lia|exact H2].
    + destruct E as [dr [Hdr E]].
      pose proof (drawLine_outcome widthOfTextAtSize drawable toUpperCase g line
                    (pageHeight g - marginTop g - Z.of_nat j * lineHeight g)) as Hd.
      rewrite Hdr in Hd. destruct Hd as [_ [_ [Hy _]]].
      rewrite (cursorAfter_S g) in E.
      apply (IH (S j) (currentPage ++ [dr]) pages);
        [lia|rewrite length_app; cbn; lia| |exact E].
      apply Forall_app. split; [exact Hcur|].
      constructor; [|constructor]. exists j. split; [lia|exact Hy].
Qed.

End PageFilling.

(** X10: no line is lost on the way to the pages.  The pagination loop
    comes to its end exactly when the PDF library measures and draws every
    line; it fails otherwise.  When it comes to its end, the texts drawn on
    the content pages, read page after page, are the texts of the lines, in
    the same order and each one once; no page holds more than 46 draws,
    every page before the last holds exactly 46, and every draw is at a
    height 720 - 14 k with 0 <= k < 46, that is between 90 and 720. *)
Theorem content_pages_hold_the_lines
    (widthOfTextAtSize : Pdf.Font -> jsstring -> Z -> option Q)
    (drawable : Pdf.Font -> jsstring -> bool)
    (toUpperCase : jsstring -> jsstring)
    (lines : list Pdf.PageLine) :
  match Pdf.contentPages widthOfTextAtSize drawable toUpperCase Pdf.letter lines with
  | Some pages =>
      forallb (Pdf.placeable widthOfTextAtSize drawable toUpperCase) lines = true
      /\ map Pdf.drawn (List.concat pages) = map Pdf.text lines
      /\ Forall (fun p => (List.length p <= 46)%nat) pages
      /\ Forall (fun p => List.length p = 46%nat) (removelast pages)
      /\ Forall (Forall (fun dr => 90 <= Pdf.y dr <= 720 /\ (720 - Pdf.y dr) mod 14 = 0))
           pages
  | None =>
      forallb (Pdf.placeable widthOfTextAtSize drawable toUpperCase) lines = false
  end.
Proof.
  pose proof (contentPages_outcome widthOfTextAtSize drawable toUpperCase
                Pdf.letter lines) as Ho.
  destruct (Pdf.contentPages _ _ _ _ lines) as [pages|] eqn:E.
  - split.
    { destruct (forallb _ lines); [reflexivity|discriminate Ho]. }
    unfold Pdf.contentPages in E.
    split; [exact (layout_texts _ _ _ _ _ _ _ _ E)|].
    pose proof (layout_pages widthOfTextAtSize drawable toUpperCase Pdf.letter
                  ltac:(cbn; lia) ltac:(cbn; lia) lines 0%nat [] pages
                  ltac:(cbn; lia) eq_refl (Forall_nil _)) as H.
    change (Z.to_nat (Pdf.maxLinesPerPage Pdf.letter)) with 46%nat in H.
    cbn [Pdf.pageHeight Pdf.marginTop Pdf.lineHeight Pdf.letter] in H, E.
    change (792 - 72 - Z.of_nat 0 * 14) with (792 - 72) in H.
    destruct (H E) as [H1 H2].
    split; [|split; [exact H2|]].
    + eapply Forall_impl; [|exact H1]. cbv beta. intros p [Hp _]. exact Hp.
    + eapply Forall_impl; [|exact H1]. cbv beta. intros p [_ Hp].
      eapply Forall_impl; [|exact Hp]. cbv beta. intros dr [k [Hk Hy]].
      rewrite Hy. split; [lia|].
      replace (720 - (792 - 72 - Z.of_nat k * 14)) with (Z.of_nat k * 14) by lia.
      apply Z.mod_mul. lia.
  - destruct (forallb _ lines); [|reflexivity]. destruct Ho as [pages Ho]. discriminate Ho.
Qed.

Lemma content_pages_witness :
  let line := Pdf.mkLine (lit "CUT TO:") Transition true 12 in
  let lines := repeat line 47 in
  exists pages,
    Pdf.contentPages Pdf.courierWidth Pdf.courierDraws Pdf.asciiUpper Pdf.letter lines
    = Some pages
    /\ map Pdf.drawn (List.concat pages) = map Pdf.text lines
    /\ Forall (fun p => List.length p = 46%nat) (removelast pages).
Proof.
  cbn zeta.
  pose proof (content_pages_hold_the_lines Pdf.courierWidth Pdf.courierDraws
                Pdf.asciiUpper
                (repeat (Pdf.mkLine (lit "CUT TO:") Transition true 12) 47)) as H.
  destruct (Pdf.contentPages _ _ _ _ _) as [pages|]; [|discriminate H].
  destruct H as [_ [H1 [_ [H2 _]]]]. now exists pages.
Defined.

(** ** The exported document as a whole *)

(** X11: title page and content pages.  An export that does not fail
    starts with a title page exactly when it is requested and the title or
    the author is not empty (a contact or a based-on line alone does not
    make one); the pages after it are the content pages, and the number of
    pages is 1 for the title page, if there is one, plus at least one
    content page, ceil(N / 46) of them for N >= 1 lines.  The export fails,
    leaving no page, exactly when the PDF library throws on a text of the
    title page that is shown or on a line of the body; without a title page
    it is the content pages alone. *)
Theorem export_pages_structure
    (widthOfTextAtSize : Pdf.Font -> jsstring -> Z -> option Q)
    (drawable : Pdf.Font -> jsstring -> bool)
    (toUpperCase : jsstring -> jsstring)
    (showTitlePage : bool) (tp : Pdf.TitlePage) (content : list Pdf.Node) :
  let export := Pdf.handleExportPDF widthOfTextAtSize drawable toUpperCase in
  let body :=
    Pdf.contentPages widthOfTextAtSize drawable toUpperCase Pdf.letter
      (Pdf.formatContentForPDF content) in
  let n := List.length (Pdf.formatContentForPDF content) in
  let wanted := showTitlePage && (truthy (Pdf.title tp) || truthy (Pdf.author tp)) in
  match export showTitlePage tp content with
  | Some pages =>
      (wanted = true ->
       Pdf.titlePageDrawable widthOfTextAtSize drawable toUpperCase tp = true)
      /\ forallb (Pdf.placeable widthOfTextAtSize drawable toUpperCase)
           (Pdf.formatContentForPDF content) = true
      /\ (if wanted
       then exists p rest,
           Pdf.titlePageDraws widthOfTextAtSize drawable toUpperCase Pdf.letter tp
           = Some p
           /\ body = Some rest /\ pages = p :: rest
       else body = Some pages)
      /\ List.length pages
         = ((if wanted then 1 else 0) + Nat.max 1 (Pdf.ceilDiv n 46))%nat
  | None =>
      (wanted = true
       /\ Pdf.titlePageDrawable widthOfTextAtSize drawable toUpperCase tp = false)
      \/ forallb (Pdf.placeable widthOfTextAtSize drawable toUpperCase)
           (Pdf.formatContentForPDF content) = false
  end
  /\ export false tp content = body
  /\ export true (Pdf.mkTitlePage [] [] (Pdf.contact tp) (Pdf.basedOn tp)) content
     = body.
Proof.
  cbn zeta.
  pose proof (titlePageDraws_outcome widthOfTextAtSize drawable toUpperCase
                Pdf.letter tp) as Ht.
  pose proof (contentPages_outcome widthOfTextAtSize drawable toUpperCase
                Pdf.letter (Pdf.formatContentForPDF content)) as Hb.
  assert (Hf : forallb (Pdf.placeable widthOfTextAtSize drawable toUpperCase)
                 (Pdf.formatContentForPDF content)
               = match Pdf.contentPages widthOfTextAtSize drawable toUpperCase
                         Pdf.letter (Pdf.formatContentForPDF content) with
                 | Some _ => true
                 | None => false
                 end).
  { destruct (forallb _ (Pdf.formatContentForPDF content)).
    - destruct Hb as [pages ->]. reflexivity.
    - now rewrite Hb. }
  rewrite Hf. clear Hf Hb.
  unfold Pdf.handleExportPDF, Pdf.exportPages, Pdf.titlePages.
  cbn [Pdf.title Pdf.author truthy andb orb Pdf.andThen app].
  split; [|split;
    destruct (Pdf.contentPages _ _ _ Pdf.letter (Pdf.formatContentForPDF content));
    reflexivity].
  destruct (showTitlePage && (truthy (Pdf.title tp) || truthy (Pdf.author tp))).
  - destruct (Pdf.titlePageDraws _ _ _ _ tp) as [p|]; cbn [Pdf.andThen].
    + destruct Ht as [Ht _].
      destruct (Pdf.contentPages _ _ _ Pdf.letter (Pdf.formatContentForPDF content))
        as [rest|] eqn:E; cbn [Pdf.andThen app].
      * split; [intros _; exact Ht|]. split; [reflexivity|].
        split; [now exists p, rest|].
        cbn [List.length]. now rewrite (contentPages_count _ _ _ _ _ E).
      * now right.
    + left. now split.
  - cbn [Pdf.andThen].
    destruct (Pdf.contentPages _ _ _ Pdf.letter (Pdf.formatContentForPDF content))
      as [rest|] eqn:E; cbn [Pdf.andThen app].
    + split; [discriminate|]. split; [reflexivity|].
      split; [reflexivity|]. now rewrite (contentPages_count _ _ _ _ _ E).
    + now right.
Qed.

Lemma export_pages_witness :
  let tp := Pdf.mkTitlePage (lit "T") [] (lit "c") [] in
  let content := [Pdf.ofBlock (mkBlock Action (lit "a"))] in
  exists pages,
    Pdf.handleExportPDF Pdf.courierWidth Pdf.courierDraws Pdf.asciiUpper true tp content
    = Some pages
    /\ List.length pages = 2%nat.
Proof.
  cbn zeta.
  pose proof (export_pages_structure Pdf.courierWidth Pdf.courierDraws Pdf.asciiUpper
                true (Pdf.mkTitlePage (lit "T") [] (lit "c") [])
                [Pdf.ofBlock (mkBlock Action (lit "a"))]) as [H _].
  cbv zeta in H.
  destruct (Pdf.handleExportPDF _ _ _ _ _ _) as [pages|].
  - destruct H as [_ [_ [_ H]]]. now exists pages.
  - destruct H as [[_ H]|H]; discriminate H.
Defined.

(** ** The scene navigator *)

Lemma extractScenesFrom_numbers (content : list Pdf.Node) :
  forall sceneNumber pageNumber,
    map App.number (App.extractScenesFrom sceneNumber pageNumber content)
    = seq sceneNumber
        (List.length (App.extractScenesFrom sceneNumber pageNumber content))
    /\ Forall (fun s => App.page s = pageNumber /\ App.heading s <> [])
         (App.extractScenesFrom sceneNumber pageNumber content).
Proof.
  induction content as [|node content IH]; intros sceneNumber pageNumber;
    cbn [App.extractScenesFrom]; [split; [reflexivity|constructor]|].
  destruct (App.sceneHeading node) as [h|] eqn:E; [|apply IH].
  destruct (IH (S sceneNumber) pageNumber) as [H1 H2].
  cbn [map List.length seq App.number]. split; [now rewrite H1|].
  constructor; [|exact H2]. cbn. split; [reflexivity|].
  destruct node as [[[]|] tx [[|[ty' [s|] ch'] cs]|]]; cbn in E; try discriminate E;
    try destruct (truthy s) eqn:Hs; inversion E; subst; try discriminate.
  intros ->. discriminate Hs.
Qed.

Lemma extractScenes_blocks (blocks : list Block) :
  forall sceneNumber pageNumber,
    List.length (App.extractScenesFrom sceneNumber pageNumber (map Pdf.ofBlock blocks))
    = List.length (filter (fun b => BlockType_eqb (btype b) SceneHeading) blocks).
Proof.
  induction blocks as [|b blocks IH]; intros sceneNumber pageNumber; [reflexivity|].
  cbn [map App.extractScenesFrom filter].
  destruct b as [[] t]; cbn -[lit]; try apply IH;
    destruct (truthy t); cbn [List.length]; f_equal; apply IH.
Qed.

(** X12: the scene list.  [extractScenes] numbers the scenes 1, 2, 3, ... in
    document order without a gap, reports every one of them on page 1
    wherever it falls in the export, and never gives an empty heading (a
    scene heading without text is listed as "Untitled Scene").  For a
    document of blocks there is one scene per SceneHeading block. *)
Theorem extractScenes_numbering (content : list Pdf.Node) (blocks : list Block) :
  let scenes := App.extractScenes content in
  map App.number scenes = seq 1 (List.length scenes)
  /\ Forall (fun s => App.page s = 1%nat /\ App.heading s <> []) scenes
  /\ List.length (App.extractScenes (map Pdf.ofBlock blocks))
     = List.length (filter (fun b => BlockType_eqb (btype b) SceneHeading) blocks)
  /\ App.extractScenes [Pdf.ofBlock (mkBlock SceneHeading [])]
     = [App.mkScene 1 (lit "Untitled Scene") 1].
Proof.
  cbn zeta. unfold App.extractScenes.
  destruct (extractScenesFrom_numbers content 1%nat 1%nat) as [H1 H2].
  split; [exact H1|]. split; [exact H2|]. split; [apply extractScenes_blocks|].
  reflexivity.
Qed.

(** ** The name of the exported file *)

(** Settle every comparison of a goal whose outcome follows from the
    hypotheses by linear arithmetic. *)
Ltac settle_comparisons :=
  repeat (match goal with
          | |- context [(?a <=? ?b)%N] =>
              first [rewrite (proj2 (N.leb_le a b)) by lia
                    |rewrite (proj2 (N.leb_gt a b)) by lia]
          | |- context [(?a =? ?b)%N] =>
              first [rewrite (proj2 (N.eqb_eq a b)) by lia
                    |rewrite (proj2 (N.eqb_neq a b)) by lia]
          end; cbn [andb orb]).

Ltac by_kind_of_unit c :=
  assert ((48 <= c <= 57) \/ (65 <= c <= 90) \/ (97 <= c <= 122)
          \/ c < 48 \/ 57 < c < 65 \/ 90 < c < 97 \/ 122 < c)%N
    as [?|[?|[?|[?|[?|[?|?]]]]]] by lia.

Lemma sanitized_unit (c : N) :
  let c1 := if App.isAlphanumeric c then c else 95%N in
  let c2 := if ((65 <=? c1) && (c1 <=? 90))%N then (c1 + 32)%N else c1 in
  App.isSafe c2 = true
  /\ (if App.isAlphanumeric c2 then c2 else 95%N) = c2
  /\ ((65 <=? c2) && (c2 <=? 90))%N = false.
Proof.
  cbn zeta. unfold App.isAlphanumeric, App.isSafe.
  by_kind_of_unit c; settle_comparisons; auto.
Qed.

Lemma sanitize_fold (c : N) :
  let low x := if ((65 <=? x) && (x <=? 90))%N then (x + 32)%N else x in
  low (if App.isAlphanumeric (asciiFold c) then asciiFold c else 95%N)
  = low (if App.isAlphanumeric c then c else 95%N).
Proof.
  cbn zeta. unfold App.isAlphanumeric, asciiFold.
  by_kind_of_unit c; settle_comparisons; auto; lia.
Qed.

(** X13: the file name of the export.  Whatever the title of the document,
    the name is as long as the title plus the four code units of ".pdf";
    before the extension it is made of lower-case ASCII letters, digits and
    underscores only; computing the name of that stem again gives the same
    name; and two titles that differ only in the case of ASCII letters get
    the same name. *)
Theorem downloadName_is_safe (currentDocument other : jsstring) :
  let stem := App.toLowerCase (App.replaceNonAlphanumeric currentDocument) in
  App.downloadName currentDocument = stem ++ lit ".pdf"
  /\ List.length stem = List.length currentDocument
  /\ List.length (App.downloadName currentDocument)
     = (List.length currentDocument + 4)%nat
  /\ forallb App.isSafe stem = true
  /\ App.downloadName stem = App.downloadName currentDocument
  /\ (map asciiFold currentDocument = map asciiFold other ->
      App.downloadName currentDocument = App.downloadName other).
Proof.
  cbn zeta. unfold App.downloadName, App.toLowerCase, App.replaceNonAlphanumeric.
  split; [reflexivity|]. split; [now rewrite !length_map|].
  split; [rewrite length_app, !length_map; reflexivity|].
  split; [|split].
  - rewrite forallb_forall. intros x Hx. rewrite map_map in Hx.
    apply in_map_iff in Hx as [c [<- _]]. apply sanitized_unit.
  - f_equal. rewrite !map_map. apply map_ext. intros c.
    destruct (sanitized_unit c) as [_ [E1 E2]]. cbn zeta in E1, E2.
    rewrite E1, E2. reflexivity.
  - intros H. f_equal. rewrite !map_map.
    transitivity
      (map (fun c => (fun x => if ((65 <=? x) && (x <=? 90))%N then (x + 32)%N else x)
                       (if App.isAlphanumeric c then c else 95%N))
           (map asciiFold currentDocument)).
    + rewrite map_map. apply map_ext. intros c. symmetry. apply sanitize_fold.
    + rewrite H, map_map. apply map_ext. intros c. apply sanitize_fold.
Qed.

Lemma downloadName_witness :
  App.downloadName (lit "Untitled Screenplay") = App.downloadName (lit "UNTITLED SCREENPLAY").
Proof.
  exact (proj2 (proj2 (proj2 (proj2 (proj2
    (downloadName_is_safe (lit "Untitled Screenplay") (lit "UNTITLED SCREENPLAY"))))))
    eq_refl).
Defined.

(** ** The persistence server *)

Lemma JS_eqb_eq (a b : jsstring) : JS.eqb a b = true <-> a = b.
Proof.
  revert b. induction a as [|x a IH]; intros [|y b]; cbn; split;
    try discriminate; try reflexivity.
  - intros H. apply andb_prop in H as [H1 H2].
    apply N.eqb_eq in H1. apply IH in H2. now subst.
  - intros [= -> ->]. rewrite N.eqb_refl. now apply IH.
Qed.

Lemma JS_eqb_refl (a : jsstring) : JS.eqb a a = true.
Proof. now apply JS_eqb_eq. Qed.

Lemma JS_eqb_neq (a b : jsstring) : a <> b -> JS.eqb a b = false.
Proof.
  intros H. destruct (JS.eqb a b) eqn:E; [|reflexivity].
  apply JS_eqb_eq in E. contradiction.
Qed.

Section ServerFacts.
Import Server.

Context {Json : Type}.
Variable truthyJson : Json -> bool.
Variable emptyObject : Json.

Lemma selectById_id (i : jsstring) (db : Db Json) (row : Row Json) :
  selectById i db = Some row -> id row = i /\ In row db.
Proof.
  unfold selectById. intros H. apply find_some in H as [Hin H].
  apply JS_eqb_eq in H. now split.
Qed.

Lemma selectById_None (i : jsstring) (db : Db Json) :
  selectById i db = None <-> ~ In i (map id db).
Proof.
  unfold selectById. split.
  - intros H Hin. apply in_map_iff in Hin as [r [Hr Hin]].
    pose proof (find_none _ _ H r Hin) as Hn. cbv beta in Hn.
    rewrite Hr, JS_eqb_refl in Hn. discriminate Hn.
  - intros H. destruct (find _ db) as [r|] eqn:E; [|reflexivity].
    apply find_some in E as [Hin E]. apply JS_eqb_eq in E.
    exfalso. apply H. apply in_map_iff. now exists r.
Qed.

Lemma selectById_app_new (i j : jsstring) (db : Db Json) (row : Row Json) :
  id row = j -> selectById j db = None ->
  selectById i (db ++ [row])
  = if JS.eqb j i then Some row else selectById i db.
Proof.
  intros Hid Hnew. unfold selectById in *.
  induction db as [|r db IH]; cbn [app find].
  - rewrite Hid. destruct (JS.eqb j i); reflexivity.
  - cbn [find] in Hnew. destruct (JS.eqb (id r) j) eqn:Ej; [discriminate Hnew|].
    destruct (JS.eqb (id r) i) eqn:Ei.
    + destruct (JS.eqb j i) eqn:Eji; [|reflexivity].
      apply JS_eqb_eq in Ei, Eji.
      assert (X : JS.eqb (id r) j = true) by (apply JS_eqb_eq; congruence).
      congruence.
    + now apply IH.
Qed.

Lemma updateRow_ids (i t : jsstring) (c tp : Json) (now : Z) (db : Db Json) :
  map id (updateRow i t c tp now db) = map id db.
Proof.
  unfold updateRow. rewrite map_map. apply map_ext. intros r.
  destruct (JS.eqb (id r) i); reflexivity.
Qed.

Lemma selectById_updateRow (i j t : jsstring) (c tp : Json) (now : Z) (db : Db Json) :
  selectById j (updateRow i t c tp now db)
  = if JS.eqb i j
    then option_map (fun r => mkRow (id r) t c tp (created_at r) now) (selectById j db)
    else selectById j db.
Proof.
  unfold selectById, updateRow.
  destruct (JS.eqb i j) eqn:Eij.
  - apply JS_eqb_eq in Eij. subst j.
    induction db as [|r db IH]; [reflexivity|]. cbn [map find].
    destruct (JS.eqb (id r) i) eqn:Ei; cbn [id]; rewrite Ei; [reflexivity|exact IH].
  - induction db as [|r db IH]; [reflexivity|]. cbn [map find].
    destruct (JS.eqb (id r) i) eqn:Ei; cbn [id].
    + apply JS_eqb_eq in Ei. rewrite Ei, Eij. exact IH.
    + destruct (JS.eqb (id r) j); [reflexivity|exact IH].
Qed.

Lemma selectById_filter (i j : jsstring) (db : Db Json) :
  selectById j (filter (fun r => negb (JS.eqb (id r) i)) db)
  = if JS.eqb i j then None else selectById j db.
Proof.
  unfold selectById.
  destruct (JS.eqb i j) eqn:Eij.
  - apply JS_eqb_eq in Eij. subst j.
    induction db as [|r db IH]; [reflexivity|]. cbn [filter].
    destruct (JS.eqb (id r) i) eqn:Ei; cbn [negb find]; [exact IH|].
    rewrite Ei. exact IH.
  - induction db as [|r db IH]; [reflexivity|]. cbn [filter find].
    destruct (JS.eqb (id r) i) eqn:Ei; cbn [negb find].
    + apply JS_eqb_eq in Ei. rewrite Ei, Eij. exact IH.
    + destruct (JS.eqb (id r) j); [reflexivity|exact IH].
Qed.

Lemma filter_removes_one (i : jsstring) (db : Db Json) (row : Row Json) :
  NoDup (map id db) -> selectById i db = Some row ->
  List.length db = S (List.length (filter (fun r => negb (JS.eqb (id r) i)) db)).
Proof.
  unfold selectById. induction db as [|r db IH]; intros Hnd H; [discriminate H|].
  cbn [map] in Hnd. inversion Hnd as [|? ? Hnotin Hnd']; subst.
  cbn [find filter] in *. destruct (JS.eqb (id r) i) eqn:Ei; cbn [negb List.length].
  - f_equal. apply JS_eqb_eq in Ei.
    assert (Hall : forall x, In x db -> negb (JS.eqb (id x) i) = true).
    { intros x Hx. apply negb_true_iff, JS_eqb_neq. intros E.
      apply Hnotin. rewrite Ei, <- E. now apply in_map. }
    clear -Hall. induction db as [|x db IH]; [reflexivity|].
    cbn [filter]. rewrite (Hall x (or_introl eq_refl)). cbn [List.length].
    f_equal. apply IH. intros y Hy. apply Hall. now right.
  - f_equal. now apply IH.
Qed.

End ServerFacts.

(** X14: the ids of the table stay pairwise different.  If no two rows
    share an id, the same is true after any POST, PUT or DELETE request,
    whatever its body, id and outcome. *)
Theorem server_keeps_ids_unique {Json : Type}
    (truthyJson : Json -> bool) (emptyObject : Json)
    (db : Server.Db Json) (Hunique : NoDup (map Server.id db)) :
  (forall b stamp now,
      NoDup (map Server.id
               (snd (Server.postScreenplay truthyJson emptyObject b stamp now db))))
  /\ (forall i b now,
        NoDup (map Server.id
                 (snd (Server.putScreenplay truthyJson emptyObject i b now db))))
  /\ (forall i, NoDup (map Server.id (snd (Server.deleteScreenplay i db)))).
Proof.
  split; [|split].
  - intros b stamp now. unfold Server.postScreenplay.
    destruct (Server.body_title b) as [t|], (Server.body_content b) as [c|];
      try exact Hunique.
    destruct (truthy t && truthyJson c); [|exact Hunique].
    destruct (Server.selectById (lit "screenplay-" ++ stamp) db) eqn:E; [exact Hunique|].
    cbn [snd]. rewrite map_app. cbn [map Server.id].
    apply selectById_None in E.
    apply NoDup_app; [exact Hunique|repeat constructor; intros []|].
    intros x Hx [<-|[]]. contradiction.
  - intros i b now. unfold Server.putScreenplay.
    destruct (Server.selectById i db); [|exact Hunique].
    destruct (Server.body_title b) as [t|], (Server.body_content b) as [c|];
      try exact Hunique.
    destruct (Server.selectById i (Server.updateRow i t c _ now db));
      cbn [snd]; now rewrite updateRow_ids.
  - intros i. unfold Server.deleteScreenplay.
    destruct (_ =? 0)%nat; cbn [snd]; [exact Hunique|].
    clear -Hunique. induction db as [|r db IH]; [constructor|].
    cbn [map] in Hunique. inversion Hunique as [|? ? Hn Hd]; subst.
    cbn [filter]. destruct (negb (JS.eqb (Server.id r) i)); [|now apply IH].
    cbn [map]. constructor; [|now apply IH].
    intros Hin. apply Hn. apply in_map_iff in Hin as [x [Hx Hin]].
    apply filter_In in Hin as [Hin _]. apply in_map_iff. now exists x.
Qed.

Lemma server_ids_witness :
  let db := [Server.mkRow (lit "sample-1") (lit "Sample Screenplay") (lit "[]") (lit "{}") 0 0] in
  NoDup (map Server.id
           (snd (Server.postScreenplay (fun _ : jsstring => true) (lit "{}")
                   (Server.mkBody (Some (lit "T")) (Some (lit "[]")) None)
                   (lit "1-abc") 5 db))).
Proof.
  cbn zeta.
  refine (proj1 (server_keeps_ids_unique (fun _ : jsstring => true) (lit "{}")
            [Server.mkRow (lit "sample-1") (lit "Sample Screenplay") (lit "[]") (lit "{}") 0 0]
            _) _ _ _).
  repeat constructor. intros [].
Defined.

(** X15: a request that fails changes nothing.  Whenever a POST, PUT or
    DELETE request is answered with a status of 400 or more (a title or a
    content that is missing or empty, an id that is not there, an id that is
    taken), the table is exactly as it was; a GET never changes it. *)
Theorem failed_requests_change_nothing {Json : Type}
    (truthyJson : Json -> bool) (emptyObject : Json) (db : Server.Db Json) :
  (forall b stamp now,
      let (r, db') := Server.postScreenplay truthyJson emptyObject b stamp now db in
      (400 <= Server.status r)%N -> db' = db)
  /\ (forall i b now,
        let (r, db') := Server.putScreenplay truthyJson emptyObject i b now db in
        (400 <= Server.status r)%N -> db' = db)
  /\ (forall i,
        let (r, db') := Server.deleteScreenplay i db in
        (400 <= Server.status r)%N -> db' = db)
  /\ (forall b stamp now,
        Server.body_title b = None \/ Server.body_title b = Some []
        \/ Server.body_content b = None ->
        Server.postScreenplay truthyJson emptyObject b stamp now db
        = (Server.mkResponse 400 (Server.ErrorBody (lit "Title and content are required")),
           db)).
Proof.
  split; [|split; [|split]].
  - intros b stamp now. unfold Server.postScreenplay.
    destruct (Server.body_title b) as [t|], (Server.body_content b) as [c|]; auto.
    destruct (truthy t && truthyJson c); auto.
    destruct (Server.selectById (lit "screenplay-" ++ stamp) db); auto.
    cbn. lia.
  - intros i b now. unfold Server.putScreenplay.
    destruct (Server.selectById i db) as [old|] eqn:E; auto.
    destruct (Server.body_title b) as [t|], (Server.body_content b) as [c|]; auto.
    rewrite selectById_updateRow, JS_eqb_refl, E. cbn. lia.
  - intros i. unfold Server.deleteScreenplay.
    destruct (_ =? 0)%nat; auto. cbn. lia.
  - intros b stamp now H. unfold Server.postScreenplay.
    destruct H as [H|[H|H]]; rewrite H; try reflexivity.
    + destruct (Server.body_content b); reflexivity.
    + destruct (Server.body_title b); reflexivity.
Qed.

Lemma failed_requests_witness :
  let db := [Server.mkRow (lit "sample-1") (lit "Sample Screenplay") (lit "[]") (lit "{}") 0 0] in
  let (r, db') :=
    Server.putScreenplay (fun _ : jsstring => true) (lit "{}") (lit "sample-1")
      (Server.mkBody None (Some (lit "[]")) None) 5 db in
  (400 <= Server.status r)%N -> db' = db.
Proof.
  cbn zeta.
  exact (proj1 (proj2 (failed_requests_change_nothing (fun _ : jsstring => true)
    (lit "{}")
    [Server.mkRow (lit "sample-1") (lit "Sample Screenplay") (lit "[]") (lit "{}") 0 0]))
    (lit "sample-1") (Server.mkBody None (Some (lit "[]")) None) 5).
Defined.

(** X16: what is created can be read back.  A POST with a title that is not
    empty and a truthy content, when the generated id is not taken, is
    answered with 201 and the new row: the id is "screenplay-" followed by
    the stamp, title and content are the ones sent, a missing title page is
    the empty object, both times are the time of the request.  The table
    has one row more; a GET of the new id gives that row, and a GET of any
    other id gives what it gave before. *)
Theorem created_then_read {Json : Type}
    (truthyJson : Json -> bool) (emptyObject : Json)
    (db : Server.Db Json) (t : jsstring) (c : Json) (tp : option Json)
    (stamp : jsstring) (now : Z)
    (Htitle : t <> [])
    (Hcontent : truthyJson c = true)
    (Hfresh : Server.selectById (lit "screenplay-" ++ stamp) db = None) :
  let newId := lit "screenplay-" ++ stamp in
  let row := Server.mkRow newId t c
               (Server.titlePageOrEmpty truthyJson emptyObject tp) now now in
  Server.postScreenplay truthyJson emptyObject (Server.mkBody (Some t) (Some c) tp)
    stamp now db
  = (Server.mkResponse 201 (Server.Screenplay row), db ++ [row])
  /\ Server.getScreenplay newId (db ++ [row])
     = Server.mkResponse 200 (Server.Screenplay row)
  /\ forall j, j <> newId ->
       Server.getScreenplay j (db ++ [row]) = Server.getScreenplay j db.
Proof.
  cbn zeta. split; [|split].
  - unfold Server.postScreenplay. cbn [Server.body_title Server.body_content
                                       Server.body_title_page].
    destruct t as [|x t]; [contradiction|]. cbn [truthy andb].
    now rewrite Hcontent, Hfresh.
  - unfold Server.getScreenplay.
    match goal with
    | |- context [db ++ [?r]] =>
        rewrite (selectById_app_new _ (lit "screenplay-" ++ stamp) db r eq_refl Hfresh)
    end.
    now rewrite JS_eqb_refl.
  - intros j Hj. unfold Server.getScreenplay.
    match goal with
    | |- context [db ++ [?r]] =>
        rewrite (selectById_app_new j (lit "screenplay-" ++ stamp) db r eq_refl Hfresh)
    end.
    rewrite JS_eqb_neq by congruence. reflexivity.
Qed.

Lemma created_then_read_witness :
  let db := [Server.mkRow (lit "sample-1") (lit "Sample Screenplay") (lit "[]") (lit "{}") 0 0] in
  let row := Server.mkRow (lit "screenplay-1-abc") (lit "T") (lit "[]") (lit "{}") 5 5 in
  Server.getScreenplay (lit "screenplay-1-abc") (db ++ [row])
  = Server.mkResponse 200 (Server.Screenplay row).
Proof.
  cbn zeta.
  exact (proj1 (proj2 (created_then_read (fun _ : jsstring => true) (lit "{}")
    [Server.mkRow (lit "sample-1") (lit "Sample Screenplay") (lit "[]") (lit "{}") 0 0]
    (lit "T") (lit "[]") None (lit "1-abc") 5
    ltac:(discriminate) eq_refl eq_refl))).
Defined.

(** X17: an update replaces one row and keeps its identity.  A PUT on an id
    that is there, with a title and a content, is answered with 200 and the
    row as updated: title, content and title page are the ones sent, the id
    and the time of creation are kept, the time of update is the time of the
    request.  A GET of the id then gives that row, a GET of any other id
    gives what it gave before, and the table has as many rows as it had. *)
Theorem update_replaces_one_row {Json : Type}
    (truthyJson : Json -> bool) (emptyObject : Json)
    (db : Server.Db Json) (i t : jsstring) (c : Json) (tp : option Json) (now : Z)
    (old : Server.Row Json)
    (Hold : Server.selectById i db = Some old) :
  let row := Server.mkRow i t c (Server.titlePageOrEmpty truthyJson emptyObject tp)
               (Server.created_at old) now in
  exists db',
    Server.putScreenplay truthyJson emptyObject i (Server.mkBody (Some t) (Some c) tp) now db
    = (Server.mkResponse 200 (Server.Screenplay row), db')
    /\ Server.getScreenplay i db' = Server.mkResponse 200 (Server.Screenplay row)
    /\ (forall j, j <> i -> Server.getScreenplay j db' = Server.getScreenplay j db)
    /\ List.length db' = List.length db.
Proof.
  cbn zeta.
  destruct (selectById_id i db old Hold) as [Hid _].
  exists (Server.updateRow i t c (Server.titlePageOrEmpty truthyJson emptyObject tp) now db).
  assert (E : Server.selectById i
                (Server.updateRow i t c
                   (Server.titlePageOrEmpty truthyJson emptyObject tp) now db)
              = Some (Server.mkRow i t c
                        (Server.titlePageOrEmpty truthyJson emptyObject tp)
                        (Server.created_at old) now)).
  { rewrite selectById_updateRow, JS_eqb_refl, Hold. cbn [option_map]. now rewrite Hid. }
  split; [|split; [|split]].
  - unfold Server.putScreenplay. rewrite Hold.
    cbn [Server.body_title Server.body_content Server.body_title_page].
    now rewrite E.
  - unfold Server.getScreenplay. now rewrite E.
  - intros j Hj. unfold Server.getScreenplay.
    rewrite selectById_updateRow, JS_eqb_neq by congruence. reflexivity.
  - unfold Server.updateRow. apply length_map.
Qed.

Lemma update_witness :
  let old := Server.mkRow (lit "sample-1") (lit "Sample Screenplay") (lit "[]") (lit "{}") 0 0 in
  exists db',
    Server.putScreenplay (fun _ : jsstring => true) (lit "{}") (lit "sample-1")
      (Server.mkBody (Some (lit "T")) (Some (lit "[1]")) None) 7 [old]
    = (Server.mkResponse 200
         (Server.Screenplay (Server.mkRow (lit "sample-1") (lit "T") (lit "[1]") (lit "{}") 0 7)),
       db')
    /\ Server.getScreenplay (lit "sample-1") db'
       = Server.mkResponse 200
           (Server.Screenplay (Server.mkRow (lit "sample-1") (lit "T") (lit "[1]") (lit "{}") 0 7))
    /\ (forall j, j <> lit "sample-1" ->
          Server.getScreenplay j db' = Server.getScreenplay j [old])
    /\ List.length db' = 1%nat.
Proof.
  cbn zeta.
  exact (update_replaces_one_row (fun _ : jsstring => true) (lit "{}")
    [Server.mkRow (lit "sample-1") (lit "Sample Screenplay") (lit "[]") (lit "{}") 0 0]
    (lit "sample-1") (lit "T") (lit "[1]") None 7
    (Server.mkRow (lit "sample-1") (lit "Sample Screenplay") (lit "[]") (lit "{}") 0 0)
    eq_refl).
Defined.

(** X18: a delete removes the row and only that row.  A DELETE of an id
    that is there is answered with 200; afterwards a GET of that id is
    answered with 404 "Screenplay not found", a GET of any other id gives
    what it gave before, and, the ids being pairwise different, the table
    has exactly one row less.  A DELETE of an id that is not there is
    answered with 404 and changes nothing. *)
Theorem delete_removes_one_row {Json : Type}
    (db : Server.Db Json) (i : jsstring)
    (Hunique : NoDup (map Server.id db)) :
  match Server.selectById i db with
  | Some _ =>
      exists db',
        Server.deleteScreenplay i db
        = (Server.mkResponse 200
             (Server.MessageBody (lit "Screenplay deleted successfully")), db')
        /\ Server.getScreenplay i db'
           = Server.mkResponse 404 (Server.ErrorBody (lit "Screenplay not found"))
        /\ (forall j, j <> i -> Server.getScreenplay j db' = Server.getScreenplay j db)
        /\ List.length db = S (List.length db')
  | None =>
      Server.deleteScreenplay i db
      = (Server.mkResponse 404 (Server.ErrorBody (lit "Screenplay not found")), db)
  end.
Proof.
  destruct (Server.selectById i db) as [old|] eqn:E.
  - pose proof (filter_removes_one i db old Hunique E) as Hlen.
    exists (filter (fun r => negb (JS.eqb (Server.id r) i)) db).
    split; [|split; [|split]].
    + unfold Server.deleteScreenplay. rewrite Hlen.
      replace (S _ - _)%nat with 1%nat by lia. reflexivity.
    + unfold Server.getScreenplay. now rewrite selectById_filter, JS_eqb_refl.
    + intros j Hj. unfold Server.getScreenplay.
      rewrite selectById_filter, JS_eqb_neq by congruence. reflexivity.
    + exact Hlen.
  - unfold Server.deleteScreenplay.
    assert (Hsame : filter (fun r => negb (JS.eqb (Server.id r) i)) db = db).
    { apply selectById_None in E. clear Hunique.
      induction db as [|r db IH]; [reflexivity|]. cbn [filter].
      rewrite JS_eqb_neq.
      - cbn [negb]. f_equal. apply IH. intros H. apply E. now right.
      - intros H. apply E. now left. }
    rewrite Hsame, Nat.sub_diag. reflexivity.
Qed.

Lemma delete_witness :
  let db := [Server.mkRow (lit "sample-1") (lit "Sample Screenplay") (lit "[]") (lit "{}") 0 0] in
  exists db',
    Server.deleteScreenplay (lit "sample-1") db
    = (Server.mkResponse 200
         (Server.MessageBody (lit "Screenplay deleted successfully")), db')
    /\ Server.getScreenplay (lit "sample-1") db'
       = Server.mkResponse 404 (Server.ErrorBody (lit "Screenplay not found"))
    /\ (forall j, j <> lit "sample-1" ->
          Server.getScreenplay j db' = Server.getScreenplay j db)
    /\ List.length db = S (List.length db').
Proof.
  cbn zeta.
  refine (delete_removes_one_row
    [Server.mkRow (lit "sample-1") (lit "Sample Screenplay") (lit "[]") (lit "{}") 0 0]
    (lit "sample-1") _).
  repeat constructor. intros [].
Defined.

(** ** The client of the server *)

(** X19: saving always creates.  Against this server,
    [saveCurrentScreenplay] never updates a row: a missing screenplay is
    reported by an exception whose message is "Screenplay not found" (the
    answer [null] of [getScreenplay] never occurs), and when a row has the
    title as its id the update is sent without a title and is refused; both
    ways the call ends in [createScreenplay].  So with a truthy content and
    a free id every save adds one new row, under a new id, and all rows
    that were there stay as they were. *)
Theorem save_always_creates {Json : Type}
    (truthyJson : Json -> bool) (emptyObject : Json)
    (db : Server.Db Json) (t : jsstring) (c tp : Json) (stamp : jsstring) (now : Z)
    (Hplain : Server.plainPathSegment t = true) :
  Server.saveCurrentScreenplay truthyJson emptyObject t c tp stamp now db
  = Server.client_createScreenplay truthyJson emptyObject t c tp stamp now db
  /\ (forall i, Server.client_getScreenplay i db <> Server.Returned None)
  /\ (forall r, In r db ->
        In r (snd (Server.saveCurrentScreenplay truthyJson emptyObject t c tp stamp now db)))
  /\ (truthyJson c = true ->
      Server.selectById (lit "screenplay-" ++ stamp) db = None ->
      let row := Server.mkRow (lit "screenplay-" ++ stamp) t c
                   (Server.titlePageOrEmpty truthyJson emptyObject (Some tp)) now now in
      Server.saveCurrentScreenplay truthyJson emptyObject t c tp stamp now db
      = (Server.Returned (Server.Screenplay row), db ++ [row])).
Proof.
  assert (Hsave : Server.saveCurrentScreenplay truthyJson emptyObject t c tp stamp now db
                  = Server.client_createScreenplay truthyJson emptyObject t c tp stamp now db).
  { unfold Server.saveCurrentScreenplay, Server.client_getScreenplay,
      Server.client_updateContent, Server.getScreenplay, Server.putScreenplay.
    destruct (Server.selectById t db) as [old|]; reflexivity. }
  assert (Hnonempty : truthy t = true).
  { unfold Server.plainPathSegment in Hplain. now apply andb_prop in Hplain as [H _]. }
  split; [exact Hsave|]. split; [|split].
  - intros i. unfold Server.client_getScreenplay, Server.getScreenplay.
    destruct (Server.selectById i db); discriminate.
  - intros r Hr. rewrite Hsave.
    unfold Server.client_createScreenplay, Server.postScreenplay.
    cbn [Server.body_title Server.body_content Server.body_title_page].
    destruct (truthy t && truthyJson c); [|exact Hr].
    destruct (Server.selectById (lit "screenplay-" ++ stamp) db); [exact Hr|].
    cbn [snd]. apply in_or_app. now left.
  - intros Hc Hfresh. cbn zeta. rewrite Hsave.
    unfold Server.client_createScreenplay, Server.postScreenplay.
    cbn [Server.body_title Server.body_content Server.body_title_page].
    rewrite Hnonempty, Hc, Hfresh. reflexivity.
Qed.

Lemma save_always_creates_witness :
  let old := Server.mkRow (lit "sample-1") (lit "Sample Screenplay") (lit "[]") (lit "{}") 0 0 in
  let row := Server.mkRow (lit "screenplay-1-abc") (lit "sample-1") (lit "[1]") (lit "{}") 5 5 in
  Server.saveCurrentScreenplay (fun _ : jsstring => true) (lit "{}")
    (lit "sample-1") (lit "[1]") (lit "{}") (lit "1-abc") 5 [old]
  = (Server.Returned (Server.Screenplay row), [old; row]).
Proof.
  cbn zeta.
  exact (proj2 (proj2 (proj2 (save_always_creates (fun _ : jsstring => true) (lit "{}")
    [Server.mkRow (lit "sample-1") (lit "Sample Screenplay") (lit "[]") (lit "{}") 0 0]
    (lit "sample-1") (lit "[1]") (lit "{}") (lit "1-abc") 5 eq_refl))) eq_refl eq_refl).
Defined.
